(** * envoy_exporter: the polling throttle, the device registry and the
      ingestion of inventory and production payloads

    A shallow embedding of [envoy_exporter.py].  Python values that come out
    of [json.loads] are the type [json]; the operations the script applies
    to them ([x[k]], [k in x], [for _ in x], [bool], [int], [==]) are the
    functions of module [Py], with Python's exceptions as results.  The
    module globals of the script are the fields of [world]; every function
    of the script is a computation in the monad [M], which threads the world
    and keeps it when an exception is raised (Python does not roll back).

    Conventions of the model:
    - numbers are rationals: a JSON number, a clock reading and a duration
      are all [Q] (a Python float is taken as the rational it denotes; NaN
      and the infinities are left out);
    - strings are byte strings, and a digit is an ASCII digit;
    - a [dict] is the list of its entries in insertion order;
    - [int] and [float] of a string accept a signed decimal numeral between
      optional blanks, which is a subset of what Python accepts;
    - the text produced by [time.strftime] is represented by the instant it
      prints;
    - [logging] calls have no effect on the state and are omitted. *)

From Stdlib Require Import ZArith QArith List String Ascii Bool Lia Lqa.
From Stdlib Require Import DecimalString DecimalNat.
Import ListNotations.

Set Warnings "-register-all".
Local Open Scope string_scope.
Local Open Scope list_scope.
Local Open Scope Z_scope.

(** ** Python values and exceptions *)

Inductive exn : Type :=
  | KeyError
  | IndexError
  | TypeError
  | ValueError
  | AttributeError
  | RuntimeError
  | JSONDecodeError.

Inductive json : Type :=
  | JNull
  | JBool (b : bool)
  | JNum (q : Q)
  | JStr (s : string)
  | JArr (l : list json)
  | JObj (o : list (string * json)).

Inductive outcome (A : Type) : Type :=
  | Returned (a : A)
  | Raised (e : exn).

Arguments Returned {A} a.
Arguments Raised {A} e.

Module Py.

(** [bool(x)] *)
Definition truth (x : json) : bool :=
  match x with
  | JNull => false
  | JBool b => b
  | JNum q => negb (Qeq_bool q 0)
  | JStr s => negb (String.eqb s "")
  | JArr l => match l with [] => false | _ => true end
  | JObj o => match o with [] => false | _ => true end
  end.

Fixpoint lookup (k : string) (o : list (string * json)) : option json :=
  match o with
  | [] => None
  | (k', v) :: o' => if String.eqb k k' then Some v else lookup k o'
  end.

(** [x[k]] for a string key [k] *)
Definition getitem (x : json) (k : string) : outcome json :=
  match x with
  | JObj o => match lookup k o with
              | Some v => Returned v
              | None => Raised KeyError
              end
  | _ => Raised TypeError
  end.

Fixpoint chars (s : string) : list json :=
  match s with
  | EmptyString => []
  | String c s' => JStr (String c EmptyString) :: chars s'
  end.

(** [x[i]] for an index [i] produced by [range] *)
Definition index (x : json) (i : nat) : outcome json :=
  match x with
  | JArr l => match nth_error l i with
              | Some v => Returned v
              | None => Raised IndexError
              end
  | JStr s => match nth_error (chars s) i with
              | Some v => Returned v
              | None => Raised IndexError
              end
  | JObj _ => Raised KeyError
  | _ => Raised TypeError
  end.

(** the values [for _ in x] runs through *)
Definition iter (x : json) : outcome (list json) :=
  match x with
  | JArr l => Returned l
  | JObj o => Returned (map (fun kv => JStr (fst kv)) o)
  | JStr s => Returned (chars s)
  | _ => Raised TypeError
  end.

Fixpoint prefix (p s : string) : bool :=
  match p, s with
  | EmptyString, _ => true
  | String a p', String b s' => Ascii.eqb a b && prefix p' s'
  | String _ _, EmptyString => false
  end.

Fixpoint substring_of (p s : string) : bool :=
  prefix p s ||
  match s with
  | EmptyString => false
  | String _ s' => substring_of p s'
  end.

Definition is_str (k : string) (x : json) : bool :=
  match x with
  | JStr s => String.eqb s k
  | _ => false
  end.

(** [k in x] for a string [k] *)
Definition contains (k : string) (x : json) : outcome bool :=
  match x with
  | JObj o => Returned (match lookup k o with Some _ => true | None => false end)
  | JArr l => Returned (existsb (is_str k) l)
  | JStr s => Returned (substring_of k s)
  | _ => Raised TypeError
  end.

(** *** Numerals *)

Definition is_digit (c : ascii) : bool :=
  let n := nat_of_ascii c in (48 <=? n)%nat && (n <=? 57)%nat.

Definition digit_value (c : ascii) : Z := Z.of_nat (nat_of_ascii c) - 48.

Definition is_blank (c : ascii) : bool :=
  let n := nat_of_ascii c in
  (n =? 32)%nat || ((9 <=? n)%nat && (n <=? 13)%nat).

Fixpoint lstrip (s : string) : string :=
  match s with
  | String c s' => if is_blank c then lstrip s' else s
  | EmptyString => s
  end.

Fixpoint all_blank (s : string) : bool :=
  match s with
  | EmptyString => true
  | String c s' => is_blank c && all_blank s'
  end.

(** splits off the longest run of digits at the head of [s] *)
Fixpoint span_digits (s : string) : string * string :=
  match s with
  | String c s' =>
      if is_digit c
      then let (ds, r) := span_digits s' in (String c ds, r)
      else (EmptyString, s)
  | EmptyString => (EmptyString, EmptyString)
  end.

Fixpoint decimal_value (acc : Z) (ds : string) : Z :=
  match ds with
  | EmptyString => acc
  | String c ds' => decimal_value (10 * acc + digit_value c) ds'
  end.

Definition unsigned_int (s : string) : option Z :=
  let (ds, r) := span_digits s in
  match ds with
  | EmptyString => None
  | _ => if all_blank r then Some (decimal_value 0 ds) else None
  end.

Definition int_of_string (s : string) : option Z :=
  match lstrip s with
  | String "-" r => option_map Z.opp (unsigned_int r)
  | String "+" r => unsigned_int r
  | r => unsigned_int r
  end.

(** [int(x)]: a number is truncated towards zero *)
Definition int (x : json) : outcome Z :=
  match x with
  | JNum q => Returned (Z.quot (Qnum q) (Z.pos (Qden q)))
  | JBool b => Returned (if b then 1 else 0)
  | JStr s => match int_of_string s with
              | Some n => Returned n
              | None => Raised ValueError
              end
  | _ => Raised TypeError
  end.

Definition unsigned_float (s : string) : bool :=
  let (ds, r) := span_digits s in
  match ds, r with
  | EmptyString, String "." f =>
      let (fs, r') := span_digits f in
      match fs with EmptyString => false | _ => all_blank r' end
  | EmptyString, _ => false
  | _, String "." f => let (_, r') := span_digits f in all_blank r'
  | _, _ => all_blank r
  end.

Definition float_of_string_ok (s : string) : bool :=
  match lstrip s with
  | String "-" r => unsigned_float r
  | String "+" r => unsigned_float r
  | r => unsigned_float r
  end.

(** [float(x)], of which only success or the exception matters here *)
Definition float (x : json) : outcome unit :=
  match x with
  | JNum _ | JBool _ => Returned tt
  | JStr s => if float_of_string_ok s then Returned tt else Raised ValueError
  | _ => Raised TypeError
  end.

(** *** Equality and hashing *)

Section Eq.
Variable eqb : json -> json -> bool.

Fixpoint eqb_list (l1 l2 : list json) : bool :=
  match l1, l2 with
  | [], [] => true
  | x :: l1', y :: l2' => eqb x y && eqb_list l1' l2'
  | _, _ => false
  end.

Fixpoint eqb_entries (o1 o2 : list (string * json)) : bool :=
  match o1 with
  | [] => true
  | (k, v) :: o1' =>
      match lookup k o2 with
      | Some v' => eqb v v' && eqb_entries o1' o2
      | None => false
      end
  end.
End Eq.

(** [x == y] *)
Fixpoint eqb (x y : json) {struct x} : bool :=
  match x, y with
  | JNull, JNull => true
  | JStr s, JStr t => String.eqb s t
  | JNum p, JNum q => Qeq_bool p q
  | JNum p, JBool b => Qeq_bool p (if b then 1%Q else 0%Q)
  | JBool a, JNum q => Qeq_bool (if a then 1%Q else 0%Q) q
  | JBool a, JBool b => Bool.eqb a b
  | JArr l1, JArr l2 => eqb_list eqb l1 l2
  | JObj o1, JObj o2 =>
      (List.length o1 =? List.length o2)%nat && eqb_entries eqb o1 o2
  | _, _ => false
  end.

(** the key under which a hashable value is filed in a [dict] *)
Inductive key : Type :=
  | KNone
  | KNum (q : Q)
  | KStr (s : string).

Definition key_eqb (a b : key) : bool :=
  match a, b with
  | KNone, KNone => true
  | KNum p, KNum q => Qeq_bool p q
  | KStr s, KStr t => String.eqb s t
  | _, _ => false
  end.

(** [hash(x)] raises [TypeError] on a list and on a dict *)
Definition hash (x : json) : outcome key :=
  match x with
  | JNull => Returned KNone
  | JBool b => Returned (KNum (if b then 1%Q else 0%Q))
  | JNum q => Returned (KNum q)
  | JStr s => Returned (KStr s)
  | JArr _ | JObj _ => Raised TypeError
  end.

(** [l.insert(i, x)]: a negative index counts from the end, and an index
    out of range is clamped *)
Definition insert {A : Type} (i : Z) (x : A) (l : list A) : list A :=
  let n := Z.of_nat (List.length l) in
  let j := if i <? 0 then Z.max 0 (i + n) else Z.min i n in
  firstn (Z.to_nat j) l ++ x :: skipn (Z.to_nat j) l.

End Py.

(** ** [re.search('line(\d+)-connected', item)] *)

(** the pattern matched at the head of [s]; the result is group 1 *)
Definition match_line_connected (s : string) : option string :=
  match s with
  | String "l" (String "i" (String "n" (String "e" r))) =>
      let (ds, r') := Py.span_digits r in
      match ds with
      | EmptyString => None
      | _ => if Py.prefix "-connected" r' then Some ds else None
      end
  | _ => None
  end.

Fixpoint search_line_connected (s : string) : option string :=
  match match_line_connected s with
  | Some ds => Some ds
  | None =>
      match s with
      | EmptyString => None
      | String _ s' => search_line_connected s'
      end
  end.

(** ** The metrics sink

    The sink is the external collaborator the script writes into.  It is
    modelled by the sequence of calls made on it, oldest first. *)

Inductive DeviceType : Type := INVERTER | AC_BATTERY | NSRB.

Definition DeviceType_eqb (a b : DeviceType) : bool :=
  match a, b with
  | INVERTER, INVERTER | AC_BATTERY, AC_BATTERY | NSRB, NSRB => true
  | _, _ => false
  end.

Inductive direction : Type := production | consumption.

Definition direction_key (d : direction) : string :=
  match d with
  | production => "production"
  | consumption => "consumption"
  end.

(** a metric with the values of its labels *)
Inductive metric : Type :=
  | envoy_production_inverters_active_count
  | envoy_production_inverters_watt_now
  | envoy_production_inverters_watt_hour_lifetime
  | envoy_data_request_duration_seconds
  | envoy_inventory_request_duration_seconds
  | envoy_production_request_duration_seconds
  | envoy_inventory_request_failed_count
  | envoy_production_request_failed_count
  | envoy_device_metadata (serial_num : json)
  | envoy_device_producing (serial_num : json)
  | envoy_device_communicating (serial_num : json)
  | envoy_device_provisioned (serial_num : json)
  | envoy_device_operating (serial_num : json)
  | envoy_relay_line_count (serial_num : json)
  | envoy_relay_line_connected (serial_num : json) (line : Z)
  | envoy_relay_watt_now (serial_num : json) (line : Z) (d : direction)
  | envoy_relay_rms_current (serial_num : json) (line : Z) (d : direction)
  | envoy_relay_rms_voltage (serial_num : json) (line : Z) (d : direction)
  | envoy_relay_apparent_power (serial_num : json) (line : Z) (d : direction)
  | envoy_relay_power_factor (serial_num : json) (line : Z) (d : direction).

Inductive sink_call : Type :=
  | Labels (m : metric)
  | GaugeSet (m : metric) (v : json)
  | InfoSet (m : metric) (part_number : json)
            (installed_date image_loaded_date : Z).

(** ** Devices and the state of the process *)

(** The attributes of a [DeviceData] object.  [line_connected] is the
    attribute that [RelayDevice] adds: it is [None] on a plain device. *)
Record DeviceData : Type := {
  type : DeviceType;
  serial_num : json;
  part_num : json;
  installed_date : json;
  installed_date_date : Z;
  image_loaded_date : json;
  image_loaded_date_date : Z;
  line_connected : option (list bool)
}.

Definition with_image_loaded_date (d : DeviceData) (v : json) : DeviceData :=
  {| type := type d; serial_num := serial_num d; part_num := part_num d;
     installed_date := installed_date d;
     installed_date_date := installed_date_date d;
     image_loaded_date := v;
     image_loaded_date_date := image_loaded_date_date d;
     line_connected := line_connected d |}.

Definition with_image_loaded_date_date (d : DeviceData) (n : Z) : DeviceData :=
  {| type := type d; serial_num := serial_num d; part_num := part_num d;
     installed_date := installed_date d;
     installed_date_date := installed_date_date d;
     image_loaded_date := image_loaded_date d;
     image_loaded_date_date := n;
     line_connected := line_connected d |}.

Definition with_line_connected (d : DeviceData) (l : list bool) : DeviceData :=
  {| type := type d; serial_num := serial_num d; part_num := part_num d;
     installed_date := installed_date d;
     installed_date_date := installed_date_date d;
     image_loaded_date := image_loaded_date d;
     image_loaded_date_date := image_loaded_date_date d;
     line_connected := Some l |}.

(** The attributes of an [EnvoyRequest] object. *)
Record EnvoyRequest : Type := {
  last_text : option string;
  last_json : json;
  last_update_time : Q;
  last_update_duration : Q;
  failed_request_count : Z
}.

Definition EnvoyRequest_init : EnvoyRequest :=
  {| last_text := None; last_json := JNull; last_update_time := 0%Q;
     last_update_duration := 0%Q; failed_request_count := 0 |}.

Inductive resource : Type := Inventory | Production.

Definition request_address (r : resource) : string :=
  match r with
  | Inventory => "inventory.json"
  | Production => "production.json?details=1"
  end.

(** what [requests.get] gives: an exception, or a response with its status
    code, its text and what [response.json()] makes of the text ([None] when
    the text is not JSON) *)
Inductive http_result : Type :=
  | ConnectionError
  | Response (status_code : Z) (text : string) (parsed : option json).

(** The world: the surroundings of the process (the clock, read by
    [time.time()], and the appliance, reached by [requests.get]), how far
    each has been consumed, and the module globals. *)
Record world : Type := {
  time_at : nat -> Q;
  appliance : nat -> string -> http_result;
  ticks : nat;
  requests_made : nat;
  last_envoy_update_time : Q;
  devices : list (Py.key * DeviceData);
  inventory_data : EnvoyRequest;
  production_data : EnvoyRequest;
  sink : list sink_call
}.

Definition envoy_minimum_interval_seconds : Q := 10.

Definition set_ticks (n : nat) (w : world) : world :=
  {| time_at := time_at w; appliance := appliance w; ticks := n;
     requests_made := requests_made w;
     last_envoy_update_time := last_envoy_update_time w;
     devices := devices w; inventory_data := inventory_data w;
     production_data := production_data w; sink := sink w |}.

Definition set_requests_made (n : nat) (w : world) : world :=
  {| time_at := time_at w; appliance := appliance w; ticks := ticks w;
     requests_made := n;
     last_envoy_update_time := last_envoy_update_time w;
     devices := devices w; inventory_data := inventory_data w;
     production_data := production_data w; sink := sink w |}.

Definition set_last_envoy_update_time (t : Q) (w : world) : world :=
  {| time_at := time_at w; appliance := appliance w; ticks := ticks w;
     requests_made := requests_made w;
     last_envoy_update_time := t;
     devices := devices w; inventory_data := inventory_data w;
     production_data := production_data w; sink := sink w |}.

Definition set_devices (l : list (Py.key * DeviceData)) (w : world) : world :=
  {| time_at := time_at w; appliance := appliance w; ticks := ticks w;
     requests_made := requests_made w;
     last_envoy_update_time := last_envoy_update_time w;
     devices := l; inventory_data := inventory_data w;
     production_data := production_data w; sink := sink w |}.

Definition set_inventory_data (r : EnvoyRequest) (w : world) : world :=
  {| time_at := time_at w; appliance := appliance w; ticks := ticks w;
     requests_made := requests_made w;
     last_envoy_update_time := last_envoy_update_time w;
     devices := devices w; inventory_data := r;
     production_data := production_data w; sink := sink w |}.

Definition set_production_data (r : EnvoyRequest) (w : world) : world :=
  {| time_at := time_at w; appliance := appliance w; ticks := ticks w;
     requests_made := requests_made w;
     last_envoy_update_time := last_envoy_update_time w;
     devices := devices w; inventory_data := inventory_data w;
     production_data := r; sink := sink w |}.

Definition set_sink (s : list sink_call) (w : world) : world :=
  {| time_at := time_at w; appliance := appliance w; ticks := ticks w;
     requests_made := requests_made w;
     last_envoy_update_time := last_envoy_update_time w;
     devices := devices w; inventory_data := inventory_data w;
     production_data := production_data w; sink := s |}.

(** ** The monad of the script: state, and exceptions that keep the state *)

Definition M (A : Type) : Type := world -> outcome A * world.

Definition ret {A : Type} (a : A) : M A := fun w => (Returned a, w).

Definition bind {A B : Type} (m : M A) (k : A -> M B) : M B :=
  fun w =>
    match m w with
    | (Returned a, w') => k a w'
    | (Raised e, w') => (Raised e, w')
    end.

Definition raise {A : Type} (e : exn) : M A := fun w => (Raised e, w).

Definition lift {A : Type} (o : outcome A) : M A := fun w => (o, w).

Definition gets {A : Type} (f : world -> A) : M A := fun w => (Returned (f w), w).

Definition modify (f : world -> world) : M unit := fun w => (Returned tt, f w).

Declare Scope py_scope.
Delimit Scope py_scope with py.
Notation "x <- c ;; k" := (bind c (fun x => k))
  (at level 61, c at next level, right associativity) : py_scope.
Notation "c ;; k" := (bind c (fun _ => k))
  (at level 61, right associativity) : py_scope.
Local Open Scope py_scope.

Fixpoint for_each {A : Type} (l : list A) (body : A -> M unit) : M unit :=
  match l with
  | [] => ret tt
  | a :: l' => body a ;; for_each l' body
  end.

Fixpoint fold_each {A B : Type} (l : list A) (acc : B) (body : B -> A -> M B)
  : M B :=
  match l with
  | [] => ret acc
  | a :: l' => acc' <- body acc a ;; fold_each l' acc' body
  end.

(** [time.time()] *)
Definition time_time : M Q :=
  fun w => (Returned (time_at w (ticks w)), set_ticks (S (ticks w)) w).

(** [requests.get("http://%s/%s" % (envoy_address, address), ...)], without
    the [try] around it *)
Definition requests_get (address : string) : M http_result :=
  fun w => (Returned (appliance w (requests_made w) address),
            set_requests_made (S (requests_made w)) w).

Definition emit (c : sink_call) : M unit :=
  modify (fun w => set_sink (sink w ++ [c]) w).

(** [exporter.labels(...)] *)
Definition labels (m : metric) : M unit := emit (Labels m).

(** [child.set(v)]: the sink stores [float(v)] *)
Definition gauge_set (m : metric) (v : json) : M unit :=
  lift (Py.float v) ;; emit (GaugeSet m v).

(** [child.info({...})] *)
Definition info_set (m : metric) (part_number : json)
    (installed image_loaded : Z) : M unit :=
  emit (InfoSet m part_number installed image_loaded).

(** [time.strftime('%Y-%m-%d %H:%M:%S', time.localtime(int(x)))] *)
Definition strftime_localtime_int (x : json) : M Z := lift (Py.int x).

(** ** Objects in the registry

    [devices] holds the only lasting reference to a device object, so an
    object is named by its position in the registry: the registry only
    grows at its end, and positions never change.  [None] is Python's
    [None]. *)

Definition ref : Type := nat.

Fixpoint update_at (i : nat) (f : DeviceData -> DeviceData)
    (l : list (Py.key * DeviceData)) : list (Py.key * DeviceData) :=
  match l, i with
  | [], _ => []
  | (k, d) :: l', O => (k, f d) :: l'
  | x :: l', S i' => x :: update_at i' f l'
  end.

(** reading the attributes of [self] *)
Definition get_device (self : ref) : M DeviceData :=
  fun w =>
    match nth_error (devices w) self with
    | Some (_, d) => (Returned d, w)
    | None => (Raised AttributeError, w)
    end.

(** [self.attr = v] *)
Definition assign (self : ref) (f : DeviceData -> DeviceData) : M unit :=
  modify (fun w => set_devices (update_at self f (devices w)) w).

(** [device.method(...)], where [device] may be [None] *)
Definition method {A : Type} (device : option ref) (m : ref -> M A) : M A :=
  match device with
  | Some self => m self
  | None => raise AttributeError
  end.

(** ** class DeviceData *)

Definition DeviceData_init (new_type : DeviceType) (new_inventory : json)
  : M DeviceData :=
  serial <- lift (Py.getitem new_inventory "serial_num") ;;
  part <- lift (Py.getitem new_inventory "part_num") ;;
  installed <- lift (Py.getitem new_inventory "installed") ;;
  installed_text <- strftime_localtime_int installed ;;
  image_loaded <- lift (Py.getitem new_inventory "img_load_date") ;;
  image_loaded_text <- strftime_localtime_int image_loaded ;;
  labels (envoy_device_metadata serial) ;;
  labels (envoy_device_producing serial) ;;
  labels (envoy_device_communicating serial) ;;
  labels (envoy_device_provisioned serial) ;;
  labels (envoy_device_operating serial) ;;
  info_set (envoy_device_metadata serial) part installed_text image_loaded_text ;;
  ret {| type := new_type; serial_num := serial; part_num := part;
         installed_date := installed; installed_date_date := installed_text;
         image_loaded_date := image_loaded;
         image_loaded_date_date := image_loaded_text;
         line_connected := None |}.

(** lines 150 to 153: the four health flags *)
Definition publish_health (d : DeviceData) (new_inventory : json) : M unit :=
  producing <- lift (Py.getitem new_inventory "producing") ;;
  gauge_set (envoy_device_producing (serial_num d)) producing ;;
  communicating <- lift (Py.getitem new_inventory "communicating") ;;
  gauge_set (envoy_device_communicating (serial_num d)) communicating ;;
  provisioned <- lift (Py.getitem new_inventory "provisioned") ;;
  gauge_set (envoy_device_provisioned (serial_num d)) provisioned ;;
  operating <- lift (Py.getitem new_inventory "operating") ;;
  gauge_set (envoy_device_operating (serial_num d)) operating.

Definition update_inventory_data (self : ref) (new_inventory : json) : M unit :=
  d <- get_device self ;;
  incoming <- lift (Py.getitem new_inventory "img_load_date") ;;
  (if negb (Py.eqb (image_loaded_date d) incoming) then
     v <- lift (Py.getitem new_inventory "img_load_date") ;;
     assign self (fun d => with_image_loaded_date d v) ;;
     text <- strftime_localtime_int v ;;
     assign self (fun d => with_image_loaded_date_date d text) ;;
     info_set (envoy_device_metadata (serial_num d)) (part_num d)
              (installed_date_date d) text
   else ret tt) ;;
  publish_health d new_inventory.

(** ** class RelayDevice *)

(** the five [labels] calls made for one direction of a connected line *)
Definition declare_line (serial : json) (line_number : Z) (d : direction)
  : M unit :=
  labels (envoy_relay_watt_now serial line_number d) ;;
  labels (envoy_relay_rms_current serial line_number d) ;;
  labels (envoy_relay_rms_voltage serial line_number d) ;;
  labels (envoy_relay_apparent_power serial line_number d) ;;
  labels (envoy_relay_power_factor serial line_number d).

(** the body of [for item in new_inventory], on the pair
    [(relay_lines, self.line_connected)] *)
Definition RelayDevice_init_item (new_inventory serial : json)
    (acc : Z * list bool) (item : json) : M (Z * list bool) :=
  match item with
  | JStr key =>
      match search_line_connected key with
      | Some group1 =>
          let line_number := Py.decimal_value 0 group1 in
          let line_index := line_number - 1 in
          v <- lift (Py.getitem new_inventory key) ;;
          let connected := Py.truth v in
          let relay_lines := fst acc + 1 in
          let lines := Py.insert line_index connected (snd acc) in
          labels (envoy_relay_line_connected serial line_number) ;;
          gauge_set (envoy_relay_line_connected serial line_number)
                    (JBool connected) ;;
          (if connected
           then for_each [production; consumption]
                         (declare_line serial line_number)
           else ret tt) ;;
          ret (relay_lines, lines)
      | None => ret acc
      end
  | _ => raise TypeError
  end.

Definition RelayDevice_init (new_type : DeviceType) (new_inventory : json)
  : M DeviceData :=
  d <- DeviceData_init new_type new_inventory ;;
  labels (envoy_relay_line_count (serial_num d)) ;;
  line_count <- lift (Py.getitem new_inventory "line-count") ;;
  gauge_set (envoy_relay_line_count (serial_num d)) line_count ;;
  items <- lift (Py.iter new_inventory) ;;
  acc <- fold_each items (0, []) (RelayDevice_init_item new_inventory (serial_num d)) ;;
  if negb (Z.of_nat (List.length (snd acc)) =? fst acc)
  then raise RuntimeError
  else ret (with_line_connected d (snd acc)).

(** the five gauges written for one direction of one line *)
Definition set_line (serial : json) (line_number : Z) (dir : direction)
    (line_info : json) : M unit :=
  labels (envoy_relay_watt_now serial line_number dir) ;;
  wNow <- lift (Py.getitem line_info "wNow") ;;
  gauge_set (envoy_relay_watt_now serial line_number dir) wNow ;;
  labels (envoy_relay_rms_current serial line_number dir) ;;
  rmsCurrent <- lift (Py.getitem line_info "rmsCurrent") ;;
  gauge_set (envoy_relay_rms_current serial line_number dir) rmsCurrent ;;
  labels (envoy_relay_rms_voltage serial line_number dir) ;;
  rmsVoltage <- lift (Py.getitem line_info "rmsVoltage") ;;
  gauge_set (envoy_relay_rms_voltage serial line_number dir) rmsVoltage ;;
  labels (envoy_relay_apparent_power serial line_number dir) ;;
  apprntPwr <- lift (Py.getitem line_info "apprntPwr") ;;
  gauge_set (envoy_relay_apparent_power serial line_number dir) apprntPwr ;;
  labels (envoy_relay_power_factor serial line_number dir) ;;
  pwrFactor <- lift (Py.getitem line_info "pwrFactor") ;;
  gauge_set (envoy_relay_power_factor serial line_number dir) pwrFactor.

(** the body of [for line_index in range(0, len(self.line_connected))] *)
Definition update_production_line (d : DeviceData) (lines : list bool)
    (dir : direction) (new_production : json) (line_index : nat) : M unit :=
  if nth line_index lines false then
    let line_number := Z.of_nat line_index + 1 in
    all_lines <- lift (Py.getitem new_production "lines") ;;
    line_info <- lift (Py.index all_lines line_index) ;;
    set_line (serial_num d) line_number dir line_info
  else ret tt.

(** [update_production_data]: the method of [RelayDevice] on an object that
    has [line_connected], the empty method of [DeviceData] otherwise *)
Definition update_production_data (self : ref) (dir : direction)
    (new_production : json) : M unit :=
  d <- get_device self ;;
  match line_connected d with
  | Some lines =>
      for_each (seq 0 (List.length lines))
               (update_production_line d lines dir new_production)
  | None => ret tt
  end.

(** ** class EnvoyRequest and its two subclasses *)

Definition with_last_text (r : EnvoyRequest) (t : string) : EnvoyRequest :=
  {| last_text := Some t; last_json := last_json r;
     last_update_time := last_update_time r;
     last_update_duration := last_update_duration r;
     failed_request_count := failed_request_count r |}.

Definition with_last_json (r : EnvoyRequest) (j : json) : EnvoyRequest :=
  {| last_text := last_text r; last_json := j;
     last_update_time := last_update_time r;
     last_update_duration := last_update_duration r;
     failed_request_count := failed_request_count r |}.

Definition with_last_update_time (r : EnvoyRequest) (t : Q) : EnvoyRequest :=
  {| last_text := last_text r; last_json := last_json r;
     last_update_time := t;
     last_update_duration := last_update_duration r;
     failed_request_count := failed_request_count r |}.

Definition with_last_update_duration (r : EnvoyRequest) (t : Q) : EnvoyRequest :=
  {| last_text := last_text r; last_json := last_json r;
     last_update_time := last_update_time r;
     last_update_duration := t;
     failed_request_count := failed_request_count r |}.

Definition with_failed_request_count (r : EnvoyRequest) (n : Z) : EnvoyRequest :=
  {| last_text := last_text r; last_json := last_json r;
     last_update_time := last_update_time r;
     last_update_duration := last_update_duration r;
     failed_request_count := n |}.

(** [inventory_data] and [production_data], the two instances *)
Definition request_of (r : resource) (w : world) : EnvoyRequest :=
  match r with
  | Inventory => inventory_data w
  | Production => production_data w
  end.

Definition set_request (r : resource) (x : EnvoyRequest) (w : world) : world :=
  match r with
  | Inventory => set_inventory_data x w
  | Production => set_production_data x w
  end.

Definition assign_request (r : resource) (f : EnvoyRequest -> EnvoyRequest)
  : M unit :=
  modify (fun w => set_request r (f (request_of r w)) w).

Definition my_failed_request_exporter (r : resource) : metric :=
  match r with
  | Inventory => envoy_inventory_request_failed_count
  | Production => envoy_production_request_failed_count
  end.

Fixpoint find_key (k : Py.key) (l : list (Py.key * DeviceData)) : option ref :=
  match l with
  | [] => None
  | (k', _) :: l' =>
      if Py.key_eqb k' k then Some O else option_map S (find_key k l')
  end.

Fixpoint find_type (t : DeviceType) (l : list (Py.key * DeviceData))
  : option ref :=
  match l with
  | [] => None
  | (_, d) :: l' =>
      if DeviceType_eqb (type d) t then Some O else option_map S (find_type t l')
  end.

(** [devices[k] = d] *)
Definition dict_set (k : Py.key) (d : DeviceData)
    (l : list (Py.key * DeviceData)) : list (Py.key * DeviceData) :=
  match find_key k l with
  | Some i => update_at i (fun _ => d) l
  | None => l ++ [(k, d)]
  end.

Definition find_device_by_serial (serial : json) (device_type : DeviceType)
    (inventory : json) : M (option ref) :=
  k <- lift (Py.hash serial) ;;
  found <- gets (fun w => find_key k (devices w)) ;;
  match found with
  | Some i => ret (Some i)
  | None =>
      match inventory with
      | JNull => ret None
      | _ =>
          new_device <- (if DeviceType_eqb device_type NSRB
                         then RelayDevice_init device_type inventory
                         else DeviceData_init device_type inventory) ;;
          modify (fun w => set_devices (dict_set k new_device (devices w)) w) ;;
          gets (fun w => find_key k (devices w))
      end
  end.

Definition find_device_by_type (device_type : DeviceType) : M (option ref) :=
  gets (fun w => find_type device_type (devices w)).

(** the body of [for device_inventory in item['devices']] *)
Definition convert_device (device_type : DeviceType) (device_inventory : json)
  : M unit :=
  serial <- lift (Py.getitem device_inventory "serial_num") ;;
  device <- find_device_by_serial serial device_type device_inventory ;;
  method device (fun self => update_inventory_data self device_inventory).

(** [if item['type'] == tag: for device_inventory in item['devices']: ...] *)
Definition convert_group (tag : string) (device_type : DeviceType) (item : json)
  : M unit :=
  t <- lift (Py.getitem item "type") ;;
  if Py.eqb t (JStr tag) then
    group <- lift (Py.getitem item "devices") ;;
    l <- lift (Py.iter group) ;;
    for_each l (convert_device device_type)
  else ret tt.

(** the body of [for item in self.last_json] of [InventoryRequest] *)
Definition convert_inventory_item (item : json) : M unit :=
  has_type <- lift (Py.contains "type" item) ;;
  if negb has_type then ret tt
  else
    convert_group "PCU" INVERTER item ;;
    convert_group "ACB" AC_BATTERY item ;;
    convert_group "NSRB" NSRB item.

Definition InventoryRequest_convert_data : M unit :=
  duration <- gets (fun w => last_update_duration (inventory_data w)) ;;
  gauge_set envoy_inventory_request_duration_seconds (JNum duration) ;;
  payload <- gets (fun w => last_json (inventory_data w)) ;;
  items <- lift (Py.iter payload) ;;
  for_each items convert_inventory_item.

(** the body of [for item in self.last_json[direction]] of
    [ProductionRequest] *)
Definition convert_production_item (dir : direction) (item : json) : M unit :=
  has_type <- lift (Py.contains "type" item) ;;
  if negb has_type then ret tt
  else
    t <- lift (Py.getitem item "type") ;;
    if Py.eqb t (JStr "inverters") then
      activeCount <- lift (Py.getitem item "activeCount") ;;
      gauge_set envoy_production_inverters_active_count activeCount ;;
      wNow <- lift (Py.getitem item "wNow") ;;
      gauge_set envoy_production_inverters_watt_now wNow ;;
      whLifetime <- lift (Py.getitem item "whLifetime") ;;
      gauge_set envoy_production_inverters_watt_hour_lifetime whLifetime
    else
      t' <- lift (Py.getitem item "type") ;;
      if Py.eqb t' (JStr "eim") then
        device <- find_device_by_type NSRB ;;
        method device (fun self => update_production_data self dir item)
      else ret tt.

Definition convert_production_direction (dir : direction) : M unit :=
  payload <- gets (fun w => last_json (production_data w)) ;;
  group <- lift (Py.getitem payload (direction_key dir)) ;;
  items <- lift (Py.iter group) ;;
  for_each items (convert_production_item dir).

Definition ProductionRequest_convert_data : M unit :=
  duration <- gets (fun w => last_update_duration (production_data w)) ;;
  gauge_set envoy_production_request_duration_seconds (JNum duration) ;;
  for_each [production; consumption] convert_production_direction.

Definition convert_data (r : resource) : M unit :=
  match r with
  | Inventory => InventoryRequest_convert_data
  | Production => ProductionRequest_convert_data
  end.

(** [response.json()] *)
Definition response_json (parsed : option json) : M json :=
  match parsed with
  | Some j => ret j
  | None => raise JSONDecodeError
  end.

(** the part of [update] that follows [requests.get] *)
Definition update_response (r : resource) (request_start : Q)
    (response : http_result) : M unit :=
  match response with
  | ConnectionError =>
      assign_request r (fun x =>
        with_failed_request_count x (failed_request_count x + 1)) ;;
      n <- gets (fun w => failed_request_count (request_of r w)) ;;
      gauge_set (my_failed_request_exporter r) (JNum (inject_Z n))
  | Response status_code text parsed =>
      assign_request r (fun x => with_failed_request_count x 0) ;;
      n <- gets (fun w => failed_request_count (request_of r w)) ;;
      gauge_set (my_failed_request_exporter r) (JNum (inject_Z n)) ;;
      request_end <- time_time ;;
      if negb (status_code =? 200) then ret tt
      else
        assign_request r (fun x => with_last_text x text) ;;
        j <- response_json parsed ;;
        assign_request r (fun x => with_last_json x j) ;;
        assign_request r (fun x =>
          with_last_update_duration x (request_end - request_start)%Q) ;;
        assign_request r (fun x => with_last_update_time x request_end) ;;
        convert_data r
  end.

Definition update (r : resource) : M unit :=
  request_start <- time_time ;;
  response <- requests_get (request_address r) ;;
  update_response r request_start response.

(** ** request_envoy_data *)

(** the test of line 436 *)
Definition too_quick : M bool :=
  last <- gets last_envoy_update_time ;;
  now <- time_time ;;
  ret (negb (Qle_bool (last + envoy_minimum_interval_seconds) now)).

(** line 441 *)
Definition record_attempt : M unit :=
  now <- time_time ;;
  modify (set_last_envoy_update_time now).

(** lines 443 to 449 *)
Definition fetch_both : M unit :=
  start <- time_time ;;
  update Inventory ;;
  update Production ;;
  end_ <- time_time ;;
  gauge_set envoy_data_request_duration_seconds (JNum (end_ - start)%Q).

Definition request_envoy_data : M unit :=
  quick <- too_quick ;;
  if quick then ret tt
  else record_attempt ;; fetch_both.

(** the state of the process when the module has been loaded *)
Definition start_world (clock : nat -> Q) (envoy : nat -> string -> http_result)
  : world :=
  {| time_at := clock; appliance := envoy; ticks := 0; requests_made := 0;
     last_envoy_update_time := 0%Q; devices := [];
     inventory_data := EnvoyRequest_init;
     production_data := EnvoyRequest_init; sink := [] |}.

(** ** Requests served by several threads

    [ThreadingHTTPServer] serves every request on a thread of its own, and
    [request_envoy_data] takes no lock.  A thread inside the function is at
    one of its statements; the interpreter may switch threads between any
    two of them.  A schedule lists which thread takes the next statement. *)

Inductive pc : Type :=
  | AtCheck
  | AtRecord
  | AtFetch
  | Done (fetched : bool).

Definition step_thread (p : pc) (w : world) : pc * world :=
  match p with
  | AtCheck =>
      match too_quick w with
      | (Returned false, w') => (AtRecord, w')
      | (_, w') => (Done false, w')
      end
  | AtRecord => (AtFetch, snd (record_attempt w))
  | AtFetch => (Done true, snd (fetch_both w))
  | Done b => (Done b, w)
  end.

Fixpoint set_nth {A : Type} (i : nat) (x : A) (l : list A) : list A :=
  match l, i with
  | [], _ => []
  | _ :: l', O => x :: l'
  | y :: l', S i' => y :: set_nth i' x l'
  end.

Definition step (st : list pc * world) (i : nat) : list pc * world :=
  match nth_error (fst st) i with
  | Some p =>
      let (p', w') := step_thread p (snd st) in (set_nth i p' (fst st), w')
  | None => st
  end.

Definition run (schedule : list nat) (st : list pc * world) : list pc * world :=
  fold_left step schedule st.

(** the schedule on which the threads run one after the other *)
Definition serial (n : nat) : list nat :=
  flat_map (fun i => [i; i; i]) (seq 0 n).

Definition fetched (p : pc) : bool :=
  match p with
  | Done true => true
  | _ => false
  end.

Definition finished (p : pc) : bool :=
  match p with
  | Done _ => true
  | _ => false
  end.

Definition fetch_count (ps : list pc) : nat := List.length (filter fetched ps).

(** ** class ExporterRequestHandler

    What the handler sends back is represented by the data it hands to the
    template or to the exposition of the metrics; the rendering itself is
    left to jinja2 and to prometheus_client. *)

Inductive reply : Type :=
  | Homepage (envoys converters : list DeviceData)
  | LastData (title : string) (request_length : Q) (json_text : json)
  | Metrics (exposition : list sink_call)
  | NotFound.

(** [self.name] of the two request objects *)
Definition request_name (r : resource) : string :=
  match r with
  | Inventory => "inventory"
  | Production => "production"
  end.

Definition is_type (t : DeviceType) (d : DeviceData) : bool :=
  DeviceType_eqb (type d) t.

Definition do_homepage : M reply :=
  all <- gets (fun w => map snd (devices w)) ;;
  ret (Homepage (filter (is_type NSRB) all) (filter (is_type INVERTER) all)).

Definition do_last_data (path : string) : M reply :=
  request_envoy_data ;;
  let r := if String.eqb path "/last_inventory" then Inventory else Production in
  data <- gets (request_of r) ;;
  ret (LastData (request_name r) (last_update_duration data) (last_json data)).

Definition do_GET (path : string) : M reply :=
  start <- time_time ;;
  page <- (if String.eqb path "/" then do_homepage
           else if String.eqb path "/metrics" then
             request_envoy_data ;; gets (fun w => Metrics (sink w))
           else if String.eqb path "/last_inventory"
                   || String.eqb path "/last_production" then
             do_last_data path
           else ret NotFound) ;;
  end_ <- time_time ;;
  ret page.

(** * The vocabulary of the statements

    Relations between worlds, measures of the registry and of the sink, and
    the payloads, appliances and clocks on which the properties are
    exercised. *)

(** the computation [m] takes every world to a world related to it by [R] *)
Definition preserves (R : world -> world -> Prop) {A : Type} (m : M A) : Prop :=
  forall w, R w (snd (m w)).

(** what a fetch cycle leaves alone: the recorded attempt and the
    surroundings; the clock and the appliance are only consumed *)
Definition keeps_throttle (w w' : world) : Prop :=
  last_envoy_update_time w' = last_envoy_update_time w /\
  time_at w' = time_at w /\ appliance w' = appliance w /\
  (ticks w <= ticks w')%nat /\ (requests_made w <= requests_made w')%nat.

Definition fetch_begun (w w' : world) : Prop :=
  (requests_made w < requests_made w')%nat.

(** no attempt has been recorded: the global still has the value the module
    gives it *)
Definition never_attempted (w : world) : Prop :=
  last_envoy_update_time w = 0%Q.

(** the world in which the fetches of a cycle start: two clock readings
    taken, the second one recorded *)
Definition attempt_recorded (w : world) : world :=
  set_last_envoy_update_time (time_at w (S (ticks w)))
    (set_ticks (S (S (ticks w))) w).

(** the snapshot of a request object: everything but the failure counter *)
Definition snapshot (x : EnvoyRequest) : option string * json * Q * Q :=
  (last_text x, last_json x, last_update_time x, last_update_duration x).

(** an appliance that cannot be reached twice and then answers 503 *)
Definition envoy_down_then_503 (n : nat) (address : string) : http_result :=
  match n with
  | O | S O => ConnectionError
  | _ => Response 503 "Service Unavailable" None
  end.

(** an appliance that answers 200 with a page that is not JSON *)
Definition envoy_html (n : nat) (address : string) : http_result :=
  Response 200 "<html>busy</html>" None.

(** a production payload with one [eim] item that reports one line *)
Definition eim_payload : json :=
  JObj [("production",
         JArr [JObj [("type", JStr "eim");
                     ("lines", JArr [JObj [("wNow", JNum 230);
                                           ("rmsCurrent", JNum 1);
                                           ("rmsVoltage", JNum 230);
                                           ("apprntPwr", JNum 230);
                                           ("pwrFactor", JNum 1)]])]]);
        ("consumption", JArr [])].

(** an appliance with an empty inventory and the payload above *)
Definition envoy_without_relay (n : nat) (address : string) : http_result :=
  if String.eqb address "inventory.json"
  then Response 200 "[]" (Some (JArr []))
  else Response 200 "{...}" (Some eim_payload).

(** computations that do not raise [RuntimeError] *)
Definition quiet {A : Type} (m : M A) : Prop :=
  forall w e w', m w = (Raised e, w') -> e <> RuntimeError.

(** an inventory record of a relay with lines 1, 2 and 3 *)
Definition relay_record_123 : json :=
  JObj [("serial_num", JStr "R1"); ("part_num", JStr "800-00598");
        ("installed", JStr "1600000000"); ("img_load_date", JStr "1600000001");
        ("producing", JBool false); ("communicating", JBool true);
        ("provisioned", JBool true); ("operating", JBool true);
        ("line-count", JNum 3);
        ("line1-connected", JBool true); ("line2-connected", JBool true);
        ("line3-connected", JBool true)].

(** the same relay with line 2 missing from the record *)
Definition relay_record_13 : json :=
  JObj [("serial_num", JStr "R1"); ("part_num", JStr "800-00598");
        ("installed", JStr "1600000000"); ("img_load_date", JStr "1600000001");
        ("producing", JBool false); ("communicating", JBool true);
        ("provisioned", JBool true); ("operating", JBool true);
        ("line-count", JNum 2);
        ("line1-connected", JBool true); ("line3-connected", JBool false)].

(** a record of a relay whose description of the lines is incomplete: the
    line count is missing *)
Definition relay_record_no_count : json :=
  JObj [("serial_num", JStr "R1"); ("part_num", JStr "800-00598");
        ("installed", JStr "1600000000"); ("img_load_date", JStr "1600000001");
        ("producing", JBool false); ("communicating", JBool true);
        ("provisioned", JBool true); ("operating", JBool true);
        ("line1-connected", JBool true); ("line3-connected", JBool true)].

Definition inverter_record : json :=
  JObj [("serial_num", JStr "I1"); ("part_num", JStr "800-00630");
        ("installed", JStr "1600000000"); ("img_load_date", JStr "1600000001");
        ("producing", JBool true); ("communicating", JBool true);
        ("provisioned", JBool true); ("operating", JBool true)].

Definition inventory_with_bad_relay : json :=
  JArr [JObj [("type", JStr "NSRB"); ("devices", JArr [relay_record_no_count])];
        JObj [("type", JStr "PCU"); ("devices", JArr [inverter_record])]].

Definition envoy_with_bad_relay (n : nat) (address : string) : http_result :=
  if String.eqb address "inventory.json"
  then Response 200 "[...]" (Some inventory_with_bad_relay)
  else Response 200 "{...}"
         (Some (JObj [("production", JArr []); ("consumption", JArr [])])).

Definition is_cycle_duration (c : sink_call) : bool :=
  match c with
  | GaugeSet envoy_data_request_duration_seconds _ => true
  | _ => false
  end.

Definition is_registered (serial : string) (w : world) : bool :=
  match find_key (Py.KStr serial) (devices w) with
  | Some _ => true
  | None => false
  end.

Definition is_metadata (c : sink_call) : bool :=
  match c with
  | InfoSet _ _ _ _ => true
  | _ => false
  end.

(** how often metadata has been published *)
Definition metadata_writes (s : list sink_call) : nat :=
  List.length (filter is_metadata s).

(** the four writes of the health flags *)
Definition health_calls (d : DeviceData) (producing communicating
    provisioned operating : json) : list sink_call :=
  [GaugeSet (envoy_device_producing (serial_num d)) producing;
   GaugeSet (envoy_device_communicating (serial_num d)) communicating;
   GaugeSet (envoy_device_provisioned (serial_num d)) provisioned;
   GaugeSet (envoy_device_operating (serial_num d)) operating].

(** the attributes of a device that [update_inventory_data] never assigns *)
Definition fixed_attributes (d : DeviceData)
  : DeviceType * json * json * json * Z * option (list bool) :=
  (type d, serial_num d, part_num d, installed_date d, installed_date_date d,
   line_connected d).

Definition entry_identity (kd : Py.key * DeviceData) :=
  (fst kd, fixed_attributes (snd kd)).

(** the record of the inverter after a firmware update *)
Definition inverter_record_updated : json :=
  JObj [("serial_num", JStr "I1"); ("part_num", JStr "800-00630");
        ("installed", JStr "1600000000"); ("img_load_date", JStr "1700000000");
        ("producing", JBool true); ("communicating", JBool true);
        ("provisioned", JBool true); ("operating", JBool false)].

(** a world in which the inverter of [inverter_record] is registered *)
Definition world_with_inverter : world :=
  snd (convert_device INVERTER inverter_record
         (start_world (fun _ => 43200%Q) (fun _ _ => ConnectionError))).

(** the calls an inventory update may make on the sink: the metadata record
    and the four health flags *)
Definition inventory_call (c : sink_call) : bool :=
  match c with
  | InfoSet (envoy_device_metadata _) _ _ _ => true
  | GaugeSet (envoy_device_producing _) _ => true
  | GaugeSet (envoy_device_communicating _) _ => true
  | GaugeSet (envoy_device_provisioned _) _ => true
  | GaugeSet (envoy_device_operating _) _ => true
  | _ => false
  end.

(** everything of the world but the registry and the sink *)
Definition surroundings (w : world) :=
  (ticks w, requests_made w, last_envoy_update_time w, inventory_data w,
   production_data w).

(** the registry of [w'] is the registry of [w] with entries added at its
    end; the entries of [w] keep their key and their fixed attributes *)
Definition registry_extends (w w' : world) : Prop :=
  exists added,
    map entry_identity (devices w') = map entry_identity (devices w ++ added).

(** how many entries are filed under the key [k] *)
Definition entries_for (k : Py.key) (l : list (Py.key * DeviceData)) : nat :=
  List.length (filter (fun k' => Py.key_eqb k' k) (map fst l)).

Definition single_entry (l : list (Py.key * DeviceData)) : Prop :=
  forall k, (entries_for k l <= 1)%nat.

(** [n] requests served one after the other *)
Fixpoint calls (n : nat) (w : world) : world :=
  match n with
  | O => w
  | S n' => calls n' (snd (request_envoy_data w))
  end.

(** an appliance that reports the same inverter at every poll *)
Definition envoy_steady (n : nat) (address : string) : http_result :=
  if String.eqb address "inventory.json"
  then Response 200 "[...]"
         (Some (JArr [JObj [("type", JStr "PCU");
                            ("devices", JArr [inverter_record])]]))
  else Response 200 "{...}"
         (Some (JObj [("production", JArr []); ("consumption", JArr [])])).

(** a clock that advances by a minute between two readings *)
Definition minute_clock (n : nat) : Q := inject_Z (43200 + 60 * Z.of_nat n).

(** the calls that publish the measurements [line_info] of one line *)
Definition line_bundle (serial : json) (line_number : Z) (dir : direction)
    (line_info : json) : list sink_call :=
  match Py.getitem line_info "wNow", Py.getitem line_info "rmsCurrent",
        Py.getitem line_info "rmsVoltage", Py.getitem line_info "apprntPwr",
        Py.getitem line_info "pwrFactor" with
  | Returned wNow, Returned rmsCurrent, Returned rmsVoltage,
    Returned apprntPwr, Returned pwrFactor =>
      [Labels (envoy_relay_watt_now serial line_number dir);
       GaugeSet (envoy_relay_watt_now serial line_number dir) wNow;
       Labels (envoy_relay_rms_current serial line_number dir);
       GaugeSet (envoy_relay_rms_current serial line_number dir) rmsCurrent;
       Labels (envoy_relay_rms_voltage serial line_number dir);
       GaugeSet (envoy_relay_rms_voltage serial line_number dir) rmsVoltage;
       Labels (envoy_relay_apparent_power serial line_number dir);
       GaugeSet (envoy_relay_apparent_power serial line_number dir) apprntPwr;
       Labels (envoy_relay_power_factor serial line_number dir);
       GaugeSet (envoy_relay_power_factor serial line_number dir) pwrFactor]
  | _, _, _, _, _ => []
  end.

(** the list under ['lines'] of a production item *)
Definition lines_of (item : json) : list json :=
  match Py.getitem item "lines" with
  | Returned (JArr l) => l
  | _ => []
  end.

(** the calls made for the line at [line_index]: its bundle when the line
    is connected, nothing otherwise *)
Definition production_calls (d : DeviceData) (lines : list bool)
    (dir : direction) (item : json) (line_index : nat) : list sink_call :=
  if nth line_index lines false then
    match nth_error (lines_of item) line_index with
    | Some line_info =>
        line_bundle (serial_num d) (Z.of_nat line_index + 1) dir line_info
    | None => []
    end
  else [].

(** a relay whose line 2 is not connected *)
Definition relay_record_1x3 : json :=
  JObj [("serial_num", JStr "R1"); ("part_num", JStr "800-00598");
        ("installed", JStr "1600000000"); ("img_load_date", JStr "1600000001");
        ("producing", JBool false); ("communicating", JBool true);
        ("provisioned", JBool true); ("operating", JBool true);
        ("line-count", JNum 2);
        ("line1-connected", JBool true); ("line2-connected", JBool false);
        ("line3-connected", JBool true)].

Definition world_with_relay : world :=
  snd (convert_device NSRB relay_record_1x3
         (start_world (fun _ => 43200%Q) (fun _ _ => ConnectionError))).

Definition line_measurement (watts : Z) : json :=
  JObj [("wNow", JNum (inject_Z watts)); ("rmsCurrent", JNum 1);
        ("rmsVoltage", JNum 230); ("apprntPwr", JNum (inject_Z watts));
        ("pwrFactor", JNum 1)].

Definition eim_item : json :=
  JObj [("type", JStr "eim");
        ("lines", JArr [line_measurement 230; line_measurement 0;
                        line_measurement 460])].

(** the attempt recorded is [T], and the clock stays within the minimum
    interval of it *)
Definition throttle_closed_from (T : Q) (w : world) : Prop :=
  last_envoy_update_time w = T /\
  forall k, (ticks w <= k)%nat ->
    (time_at w k < T + envoy_minimum_interval_seconds)%Q.

(** ** Further vocabulary *)

Fixpoint all_digits (s : string) : bool :=
  match s with
  | EmptyString => true
  | String c s' => Py.is_digit c && all_digits s'
  end.

(** the decimal numeral of [n] *)
Definition numeral (n : nat) : string := NilZero.string_of_uint (Nat.to_uint n).

(** the key under which an inventory record reports line [n] *)
Definition line_key (n : nat) : string := ("line" ++ numeral n ++ "-connected")%string.

(** the six calls [DeviceData.__init__] makes on the sink *)
Definition device_calls (d : DeviceData) : list sink_call :=
  [Labels (envoy_device_metadata (serial_num d));
   Labels (envoy_device_producing (serial_num d));
   Labels (envoy_device_communicating (serial_num d));
   Labels (envoy_device_provisioned (serial_num d));
   Labels (envoy_device_operating (serial_num d));
   InfoSet (envoy_device_metadata (serial_num d)) (part_num d)
           (installed_date_date d) (image_loaded_date_date d)].

(** the line number and the flag that a key of the record [o] stands for *)
Definition line_flag (o : list (string * json)) (key : string)
  : option (Z * bool) :=
  match search_line_connected key, Py.lookup key o with
  | Some group1, Some v => Some (Py.decimal_value 0 group1, Py.truth v)
  | _, _ => None
  end.

(** the lines of a record, in the order of its keys *)
Definition line_flags (o : list (string * json)) : list (Z * bool) :=
  flat_map (fun key => match line_flag o key with
                       | Some x => [x]
                       | None => []
                       end)
           (map fst o).

Definition place_line (lines : list bool) (flag : Z * bool) : list bool :=
  Py.insert (fst flag - 1) (snd flag) lines.

(** where the flags end up when they are inserted one after the other *)
Definition place_lines (flags : list (Z * bool)) : list bool :=
  fold_left place_line flags [].

(** an entry of the registry is filed under the serial of its device, and
    its device has a line layout exactly when its type is NSRB *)
Definition well_filed (kd : Py.key * DeviceData) : Prop :=
  Py.hash (serial_num (snd kd)) = Returned (fst kd) /\
  (line_connected (snd kd) <> None <-> type (snd kd) = NSRB).

(** the last three lines of [find_device_by_serial]: build the device with
    [m], file it under [k], return it *)
Definition file_new (k : Py.key) (m : M DeviceData) : M (option ref) :=
  new_device <- m ;;
  modify (fun w => set_devices (dict_set k new_device (devices w)) w) ;;
  gets (fun w => find_key k (devices w)).

(** between [a] and [b] the failure counter of [r] has kept its value and
    the sink has only received further calls *)
Definition counter_kept (r : resource) (a b : world) : Prop :=
  failed_request_count (request_of r b) = failed_request_count (request_of r a) /\
  exists l, sink b = sink a ++ l.

(** a clock whose readings never decrease *)
Definition never_runs_back (clock : nat -> Q) : Prop :=
  forall i j, (i <= j)%nat -> (clock i <= clock j)%Q.

(** the test of [request_envoy_data] lets the call through *)
Definition throttle_open (w : world) : bool :=
  Qle_bool (last_envoy_update_time w + envoy_minimum_interval_seconds)
           (time_at w (ticks w)).

(** how [n] requests served one after the other end: each one has fetched
    exactly when it found the throttle open *)
Fixpoint endings (n : nat) (w : world) : list pc :=
  match n with
  | O => []
  | S n' => Done (throttle_open w) :: endings n' (snd (request_envoy_data w))
  end.

(** the paths that [do_GET] answers after a call of [request_envoy_data] *)
Definition refreshes (path : string) : bool :=
  String.eqb path "/metrics" || String.eqb path "/last_inventory"
  || String.eqb path "/last_production".

(** what [do_last_data] hands to its template for the request object [r] *)
Definition last_data_of (r : resource) (w : world) : reply :=
  LastData (request_name r) (last_update_duration (request_of r w))
           (last_json (request_of r w)).

(** the record of [inverter_record] with a date of the image that [int]
    cannot read *)
Definition inverter_record_unreadable : json :=
  JObj [("serial_num", JStr "I1"); ("part_num", JStr "800-00630");
        ("installed", JStr "1600000000"); ("img_load_date", JStr "soon");
        ("producing", JBool true); ("communicating", JBool true);
        ("provisioned", JBool true); ("operating", JBool true)].

(** the type tags the two converters act on *)
Definition known_tags : list string :=
  ["PCU"; "ACB"; "NSRB"; "inverters"; "eim"].

(** the exceptions that the shape of the data can cause *)
Definition data_error (e : exn) : Prop :=
  e = KeyError \/ e = TypeError \/ e = ValueError.

(** whatever [m] raises satisfies [P] *)
Definition raises_only (P : exn -> Prop) {A : Type} (m : M A) : Prop :=
  forall w e w', m w = (Raised e, w') -> P e.

(** * Properties *)

(** ** Reading keys and inserting flags *)

Example search_line3 : search_line_connected "line3-connected" = Some "3".
Proof. reflexivity. Qed.

Example search_line_count : search_line_connected "line-count" = None.
Proof. reflexivity. Qed.

Example insert_past_end : Py.insert 2 true [false] = [false; true].
Proof. reflexivity. Qed.

(** ** How computations compose *)

Lemma bind_returned {A B : Type} (m : M A) (k : A -> M B) w a w' :
  m w = (Returned a, w') -> bind m k w = k a w'.
Proof. intros H. unfold bind. rewrite H. reflexivity. Qed.

Lemma bind_raised {A B : Type} (m : M A) (k : A -> M B) w e w' :
  m w = (Raised e, w') -> bind m k w = (Raised e, w').
Proof. intros H. unfold bind. rewrite H. reflexivity. Qed.

Lemma bind_inv {A B : Type} (m : M A) (k : A -> M B) w o w' :
  bind m k w = (o, w') ->
  (exists a w1, m w = (Returned a, w1) /\ k a w1 = (o, w')) \/
  (exists e, m w = (Raised e, w') /\ o = Raised e).
Proof.
  unfold bind. destruct (m w) as [[a | e] w1].
  - intros H. left. exists a, w1. split; [reflexivity | exact H].
  - intros H. inversion H; subst. right. exists e. split; reflexivity.
Qed.

(** a loop stops at the first iteration that raises *)
Lemma for_each_raised {A : Type} (body : A -> M unit) a l w e w' :
  body a w = (Raised e, w') -> for_each (a :: l) body w = (Raised e, w').
Proof. intros H. simpl. apply bind_raised. exact H. Qed.

Lemma for_each_app {A : Type} (body : A -> M unit) l1 l2 w :
  for_each (l1 ++ l2) body w =
  bind (for_each l1 body) (fun _ => for_each l2 body) w.
Proof.
  revert w. induction l1 as [| a l1 IH]; intros w; simpl.
  - reflexivity.
  - unfold bind. destruct (body a w) as [[[] | e] w1].
    + rewrite IH. reflexivity.
    + reflexivity.
Qed.

(** ** Relations that every step of a computation respects *)

Create HintDb frame.

Section Preserves.

Variable R : world -> world -> Prop.
Hypothesis R_refl : forall w, R w w.
Hypothesis R_trans : forall a b c, R a b -> R b c -> R a c.

Lemma preserves_ret {A : Type} (a : A) : preserves R (ret a).
Proof. intros w. apply R_refl. Qed.

Lemma preserves_raise {A : Type} e : preserves R (@raise A e).
Proof. intros w. apply R_refl. Qed.

Lemma preserves_lift {A : Type} (o : outcome A) : preserves R (lift o).
Proof. intros w. apply R_refl. Qed.

Lemma preserves_gets {A : Type} (f : world -> A) : preserves R (gets f).
Proof. intros w. apply R_refl. Qed.

Lemma preserves_bind {A B : Type} (m : M A) (k : A -> M B) :
  preserves R m -> (forall a, preserves R (k a)) -> preserves R (bind m k).
Proof.
  intros Hm Hk w. unfold bind. specialize (Hm w).
  destruct (m w) as [[a | e] w1]; simpl in *.
  - apply R_trans with w1; [exact Hm | apply Hk].
  - exact Hm.
Qed.

Lemma preserves_for_each {A : Type} (l : list A) (body : A -> M unit) :
  (forall a, preserves R (body a)) -> preserves R (for_each l body).
Proof.
  intros Hb. induction l as [| a l IH]; simpl.
  - apply preserves_ret.
  - apply preserves_bind; [apply Hb | intros _; exact IH].
Qed.

Lemma preserves_fold_each {A B : Type} (l : list A) (acc : B)
    (body : B -> A -> M B) :
  (forall b a, preserves R (body b a)) -> preserves R (fold_each l acc body).
Proof.
  intros Hb. revert acc. induction l as [| a l IH]; intros acc; simpl.
  - apply preserves_ret.
  - apply preserves_bind; [apply Hb | intros b; apply IH].
Qed.

Lemma preserves_method {A : Type} (device : option ref) (m : ref -> M A) :
  (forall self, preserves R (m self)) -> preserves R (method device m).
Proof.
  intros H. destruct device; simpl; [apply H | apply preserves_raise].
Qed.

Lemma preserves_get_device self : preserves R (get_device self).
Proof.
  intros w. unfold get_device.
  destruct (nth_error (devices w) self) as [[k d] |]; apply R_refl.
Qed.

(** what the relation must allow for the sink, the clock and the
    appliance to be used *)
Hypothesis R_emit : forall c w, R w (set_sink (sink w ++ [c]) w).
Hypothesis R_tick : forall w, R w (set_ticks (S (ticks w)) w).
Hypothesis R_get : forall w, R w (set_requests_made (S (requests_made w)) w).

Lemma preserves_emit c : preserves R (emit c).
Proof. intros w. apply R_emit. Qed.

Lemma preserves_gauge_set m v : preserves R (gauge_set m v).
Proof.
  unfold gauge_set. apply preserves_bind.
  - apply preserves_lift.
  - intros _. apply preserves_emit.
Qed.

Lemma preserves_time_time : preserves R time_time.
Proof. intros w. apply R_tick. Qed.

Lemma preserves_requests_get a : preserves R (requests_get a).
Proof. intros w. apply R_get. Qed.

Lemma preserves_strftime x : preserves R (strftime_localtime_int x).
Proof. apply preserves_lift. Qed.

Lemma preserves_response_json p : preserves R (response_json p).
Proof. destruct p; [apply preserves_ret | apply preserves_raise]. Qed.

#[local] Hint Resolve preserves_ret preserves_raise preserves_lift
  preserves_gets preserves_get_device preserves_emit preserves_gauge_set
  preserves_time_time preserves_requests_get preserves_strftime
  preserves_response_json : frame.

(** breaks a computation into its steps; a step is settled by a hint *)
Ltac frame_steps :=
  repeat first
    [ progress intros
    | solve [auto 1 with frame]
    | apply preserves_bind
    | apply preserves_for_each
    | apply preserves_fold_each
    | apply preserves_method
    | match goal with
      | |- preserves R (if ?b then _ else _) => destruct b
      | |- preserves R (match ?x with _ => _ end) => destruct x
      end ].

(** the methods of the device classes only write into the sink *)

Lemma preserves_DeviceData_init t inv : preserves R (DeviceData_init t inv).
Proof. unfold DeviceData_init, labels, info_set. frame_steps. Qed.

Lemma preserves_declare_line s n d : preserves R (declare_line s n d).
Proof. unfold declare_line, labels. frame_steps. Qed.

#[local] Hint Resolve preserves_DeviceData_init preserves_declare_line : frame.

Lemma preserves_RelayDevice_init_item inv s acc item :
  preserves R (RelayDevice_init_item inv s acc item).
Proof. unfold RelayDevice_init_item, labels. frame_steps. Qed.

#[local] Hint Resolve preserves_RelayDevice_init_item : frame.

Lemma preserves_RelayDevice_init t inv : preserves R (RelayDevice_init t inv).
Proof. unfold RelayDevice_init, labels. frame_steps. Qed.

Lemma preserves_set_line s n d info : preserves R (set_line s n d info).
Proof. unfold set_line, labels. frame_steps. Qed.

#[local] Hint Resolve preserves_RelayDevice_init preserves_set_line : frame.

Lemma preserves_update_production_line d lines dir item i :
  preserves R (update_production_line d lines dir item i).
Proof. unfold update_production_line. frame_steps. Qed.

#[local] Hint Resolve preserves_update_production_line : frame.

Lemma preserves_update_production_data self dir item :
  preserves R (update_production_data self dir item).
Proof. unfold update_production_data. frame_steps. Qed.

Lemma preserves_find_device_by_type t : preserves R (find_device_by_type t).
Proof. unfold find_device_by_type. frame_steps. Qed.

#[local] Hint Resolve preserves_update_production_data
  preserves_find_device_by_type : frame.

Lemma preserves_convert_production_item dir item :
  preserves R (convert_production_item dir item).
Proof. unfold convert_production_item. frame_steps. Qed.

#[local] Hint Resolve preserves_convert_production_item : frame.

Lemma preserves_ProductionRequest_convert_data :
  preserves R ProductionRequest_convert_data.
Proof.
  unfold ProductionRequest_convert_data, convert_production_direction.
  frame_steps.
Qed.

End Preserves.

(** constructing a device object does not touch the registry *)
Lemma DeviceData_init_devices t inv w :
  devices (snd (DeviceData_init t inv w)) = devices w.
Proof.
  apply (preserves_DeviceData_init (fun a b => devices b = devices a));
    try reflexivity.
  intros a b c H1 H2. rewrite H2. exact H1.
Qed.

Lemma RelayDevice_init_devices t inv w :
  devices (snd (RelayDevice_init t inv w)) = devices w.
Proof.
  apply (preserves_RelayDevice_init (fun a b => devices b = devices a));
    try reflexivity.
  intros a b c H1 H2. rewrite H2. exact H1.
Qed.

Section PreservesRegistry.

Variable R : world -> world -> Prop.
Hypothesis R_refl : forall w, R w w.
Hypothesis R_trans : forall a b c, R a b -> R b c -> R a c.
Hypothesis R_emit : forall c w, R w (set_sink (sink w ++ [c]) w).
Hypothesis R_tick : forall w, R w (set_ticks (S (ticks w)) w).
Hypothesis R_get : forall w, R w (set_requests_made (S (requests_made w)) w).

(** what the relation must allow for the attributes of a device, the
    registry and the two request objects to be assigned *)
Hypothesis R_image : forall self v w,
  R w (set_devices
         (update_at self (fun d => with_image_loaded_date d v) (devices w)) w).
Hypothesis R_text : forall self n w,
  R w (set_devices
         (update_at self (fun d => with_image_loaded_date_date d n) (devices w)) w).
Hypothesis R_register : forall k d w,
  find_key k (devices w) = None ->
  R w (set_devices (dict_set k d (devices w)) w).
Hypothesis R_request : forall r f w,
  R w (set_request r (f (request_of r w)) w).

#[local] Hint Resolve preserves_ret preserves_raise preserves_lift
  preserves_gets preserves_get_device preserves_emit preserves_gauge_set
  preserves_time_time preserves_requests_get preserves_strftime
  preserves_response_json preserves_DeviceData_init
  preserves_RelayDevice_init preserves_update_production_data
  preserves_ProductionRequest_convert_data : frame.

Ltac frame_steps :=
  repeat first
    [ progress intros
    | solve [auto 1 with frame | eauto 3 with frame]
    | apply preserves_bind; try assumption
    | apply preserves_for_each; try assumption
    | apply preserves_method; try assumption
    | match goal with
      | |- preserves _ (if ?b then _ else _) => destruct b
      | |- preserves _ (match ?x with _ => _ end) => destruct x
      end ].

Lemma preserves_publish_health d inv : preserves R (publish_health d inv).
Proof. unfold publish_health. frame_steps. Qed.

#[local] Hint Resolve preserves_publish_health : frame.

Lemma preserves_assign_image self v :
  preserves R (assign self (fun d => with_image_loaded_date d v)).
Proof. intros w. apply R_image. Qed.

Lemma preserves_assign_text self n :
  preserves R (assign self (fun d => with_image_loaded_date_date d n)).
Proof. intros w. apply R_text. Qed.

Lemma preserves_assign_request r f : preserves R (assign_request r f).
Proof. intros w. apply R_request. Qed.

#[local] Hint Resolve preserves_assign_image preserves_assign_text
  preserves_assign_request : frame.

Lemma preserves_update_inventory_data self inv :
  preserves R (update_inventory_data self inv).
Proof. unfold update_inventory_data, info_set. frame_steps. Qed.

Lemma preserves_find_device_by_serial serial t inv :
  preserves R (find_device_by_serial serial t inv).
Proof.
  intros w. unfold find_device_by_serial, bind, lift, gets, modify.
  destruct (Py.hash serial) as [k | e]; simpl; [| apply R_refl].
  destruct (find_key k (devices w)) eqn:Hk; simpl; [apply R_refl |].
  assert (Hnew : forall m : M DeviceData,
             R w (snd (m w)) -> devices (snd (m w)) = devices w ->
             R w (snd (let (o, w') := m w in
                       match o with
                       | Returned a =>
                           (Returned (find_key k (devices
                              (set_devices (dict_set k a (devices w')) w'))),
                            set_devices (dict_set k a (devices w')) w')
                       | Raised e => (Raised e, w')
                       end))).
  { intros m HR Hd. destruct (m w) as [[a | e] w1]; simpl in *.
    - apply R_trans with w1; [exact HR |].
      apply R_register. rewrite Hd. exact Hk.
    - exact HR. }
  destruct inv; simpl; try apply R_refl;
    (destruct (DeviceType_eqb t NSRB);
     [ apply (Hnew (RelayDevice_init t _));
       [ apply preserves_RelayDevice_init; assumption
       | apply RelayDevice_init_devices ]
     | apply (Hnew (DeviceData_init t _));
       [ apply preserves_DeviceData_init; assumption
       | apply DeviceData_init_devices ] ]).
Qed.

#[local] Hint Resolve preserves_update_inventory_data
  preserves_find_device_by_serial : frame.

Lemma preserves_convert_device t inv : preserves R (convert_device t inv).
Proof. unfold convert_device. frame_steps. Qed.

#[local] Hint Resolve preserves_convert_device : frame.

Lemma preserves_convert_group tag t item :
  preserves R (convert_group tag t item).
Proof. unfold convert_group. frame_steps. Qed.

#[local] Hint Resolve preserves_convert_group : frame.

Lemma preserves_convert_inventory_item item :
  preserves R (convert_inventory_item item).
Proof. unfold convert_inventory_item. frame_steps. Qed.

#[local] Hint Resolve preserves_convert_inventory_item : frame.

Lemma preserves_InventoryRequest_convert_data :
  preserves R InventoryRequest_convert_data.
Proof. unfold InventoryRequest_convert_data. frame_steps. Qed.

Lemma preserves_convert_data r : preserves R (convert_data r).
Proof.
  destruct r; simpl.
  - apply preserves_InventoryRequest_convert_data.
  - apply preserves_ProductionRequest_convert_data; assumption.
Qed.

#[local] Hint Resolve preserves_convert_data : frame.

Lemma preserves_update_response r start response :
  preserves R (update_response r start response).
Proof. unfold update_response. frame_steps. Qed.

#[local] Hint Resolve preserves_update_response : frame.

Lemma preserves_update r : preserves R (update r).
Proof. unfold update. frame_steps. Qed.

#[local] Hint Resolve preserves_update : frame.

Lemma preserves_fetch_both : preserves R fetch_both.
Proof. unfold fetch_both. frame_steps. Qed.

Lemma preserves_too_quick : preserves R too_quick.
Proof. unfold too_quick. frame_steps. Qed.

(** the relation must allow the attempt to be recorded *)
Hypothesis R_last : forall t w, R w (set_last_envoy_update_time t w).

Lemma preserves_record_attempt : preserves R record_attempt.
Proof.
  unfold record_attempt. apply preserves_bind; assumption.
Qed.

Lemma preserves_request_envoy_data : preserves R request_envoy_data.
Proof.
  unfold request_envoy_data. apply preserves_bind; try assumption.
  intros [|].
  - apply preserves_ret; assumption.
  - apply preserves_bind; try assumption.
    + apply preserves_record_attempt.
    + intros _. apply preserves_fetch_both.
Qed.

End PreservesRegistry.

(** ** The throttle *)

(** settles the conditions of [PreservesRegistry] for a relation that is a
    conjunction of equations and inequalities between fields *)
Ltac field_relation :=
  intros;
  repeat match goal with
         | H : _ /\ _ |- _ => destruct H
         | r : resource |- _ => destruct r
         end;
  simpl in *; repeat split; try congruence; try lia.

Lemma fetch_both_keeps_throttle w : keeps_throttle w (snd (fetch_both w)).
Proof.
  apply (preserves_fetch_both keeps_throttle);
    unfold keeps_throttle; field_relation.
Qed.

Lemma update_keeps_throttle r w : keeps_throttle w (snd (update r w)).
Proof.
  apply (preserves_update keeps_throttle);
    unfold keeps_throttle; field_relation.
Qed.

Lemma update_response_requests_made r start response w :
  requests_made (snd (update_response r start response w)) = requests_made w.
Proof.
  apply (preserves_update_response
           (fun a b => requests_made b = requests_made a));
    field_relation.
Qed.

(** [update] sends exactly one request *)
Lemma update_requests_made r w :
  requests_made (snd (update r w)) = S (requests_made w).
Proof.
  unfold update, bind, time_time, requests_get.
  rewrite update_response_requests_made. reflexivity.
Qed.

(** a fetch cycle sends the inventory request, and one more request when
    the inventory update returns *)
Lemma fetch_both_requests_made w :
  (requests_made w < requests_made (snd (fetch_both w)))%nat.
Proof.
  unfold fetch_both, bind at 1, time_time.
  set (w1 := set_ticks (S (ticks w)) w).
  unfold bind at 1.
  pose proof (update_requests_made Inventory w1) as H1.
  destruct (update Inventory w1) as [[[] | e] w2]; simpl in H1.
  - assert (H2 : keeps_throttle w2
                   (snd ((update Production ;;
                          end_ <- time_time ;;
                          gauge_set envoy_data_request_duration_seconds
                            (JNum (end_ - time_at w (ticks w))%Q)) w2))).
    { apply (preserves_bind keeps_throttle).
      - unfold keeps_throttle; field_relation.
      - intros w3. apply update_keeps_throttle.
      - intros _. apply preserves_bind.
        + unfold keeps_throttle; field_relation.
        + apply preserves_time_time. unfold keeps_throttle; field_relation.
        + intros t. apply preserves_gauge_set;
            unfold keeps_throttle; field_relation. }
    destruct H2 as (_ & _ & _ & _ & H2).
    unfold time_time in H2. simpl in *. lia.
  - simpl. rewrite H1. unfold w1. simpl. lia.
Qed.

Lemma request_envoy_data_open w :
  Qle_bool (last_envoy_update_time w + envoy_minimum_interval_seconds)
           (time_at w (ticks w)) = true ->
  request_envoy_data w = fetch_both (attempt_recorded w).
Proof.
  intros H. unfold request_envoy_data, too_quick, bind, gets, time_time, ret.
  rewrite H. reflexivity.
Qed.

Lemma request_envoy_data_closed w :
  Qle_bool (last_envoy_update_time w + envoy_minimum_interval_seconds)
           (time_at w (ticks w)) = false ->
  request_envoy_data w = (Returned tt, set_ticks (S (ticks w)) w).
Proof.
  intros H. unfold request_envoy_data, too_quick, bind, gets, time_time, ret.
  rewrite H. reflexivity.
Qed.



(** ** One fetch: [EnvoyRequest.update] *)

(** ingestion writes neither request object *)
Lemma convert_data_keeps_requests r w :
  inventory_data (snd (convert_data r w)) = inventory_data w /\
  production_data (snd (convert_data r w)) = production_data w.
Proof.
  apply (preserves_convert_data
           (fun a b => inventory_data b = inventory_data a /\
                       production_data b = production_data a));
    field_relation.
Qed.

(** [requests.get] raised: the counter goes up by one, the snapshot and the
    registry stay, and [update] returns *)
Lemma update_network_error r w :
  appliance w (requests_made w) (request_address r) = ConnectionError ->
  let w' := snd (update r w) in
  fst (update r w) = Returned tt /\
  failed_request_count (request_of r w') =
    failed_request_count (request_of r w) + 1 /\
  snapshot (request_of r w') = snapshot (request_of r w) /\
  devices w' = devices w /\
  sink w' = sink w ++
    [GaugeSet (my_failed_request_exporter r)
       (JNum (inject_Z (failed_request_count (request_of r w) + 1)))].
Proof.
  intros H. unfold update, bind, time_time, requests_get. simpl.
  rewrite H. destruct r; simpl; repeat split; reflexivity.
Qed.

(** a response came whose status is not 200: the counter is set to zero,
    the snapshot and the registry stay, and [update] returns *)
Lemma update_http_status r w code text parsed :
  appliance w (requests_made w) (request_address r) = Response code text parsed ->
  code <> 200 ->
  let w' := snd (update r w) in
  fst (update r w) = Returned tt /\
  failed_request_count (request_of r w') = 0 /\
  snapshot (request_of r w') = snapshot (request_of r w) /\
  devices w' = devices w /\
  sink w' = sink w ++ [GaugeSet (my_failed_request_exporter r) (JNum 0)].
Proof.
  intros H Hcode. apply Z.eqb_neq in Hcode.
  unfold update, bind, time_time, requests_get. simpl.
  rewrite H. destruct r; simpl; rewrite Hcode; simpl;
    repeat split; reflexivity.
Qed.

(** a response came with status 200 and a body that is not JSON: the
    counter is set to zero, [last_text] is replaced, and the exception of
    [response.json()] leaves [update] *)
Lemma update_malformed_json r w text :
  appliance w (requests_made w) (request_address r) = Response 200 text None ->
  let w' := snd (update r w) in
  fst (update r w) = Raised JSONDecodeError /\
  failed_request_count (request_of r w') = 0 /\
  last_text (request_of r w') = Some text /\
  last_json (request_of r w') = last_json (request_of r w) /\
  last_update_time (request_of r w') = last_update_time (request_of r w) /\
  last_update_duration (request_of r w') =
    last_update_duration (request_of r w) /\
  devices w' = devices w.
Proof.
  intros H. unfold update, bind, time_time, requests_get. simpl.
  rewrite H. destruct r; simpl; repeat split; reflexivity.
Qed.

(** a response came with status 200 and a JSON body: the counter is set to
    zero and the snapshot is replaced before ingestion starts *)
Lemma update_success r w text j :
  appliance w (requests_made w) (request_address r) =
    Response 200 text (Some j) ->
  let w' := snd (update r w) in
  let request_start := time_at w (ticks w) in
  let request_end := time_at w (S (ticks w)) in
  failed_request_count (request_of r w') = 0 /\
  snapshot (request_of r w') =
    (Some text, j, request_end, (request_end - request_start)%Q).
Proof.
  intros H w' request_start request_end. unfold w'.
  unfold update, bind, time_time, requests_get. simpl.
  rewrite H. unfold update_response, bind, assign_request,
    modify, gets, gauge_set, lift, emit, time_time, response_json, ret.
  simpl.
  match goal with
  | |- context [convert_data r ?w1] =>
      destruct (convert_data_keeps_requests r w1) as [Hi Hp];
      destruct r; simpl in *; [rewrite Hi | rewrite Hp];
      simpl; split; reflexivity
  end.
Qed.

(** C2: the three kinds of failure are not treated alike.  After two
    connection errors the inventory counter reads 2; a 503 answer then sets
    it to 0, where the claim has 3.  An answer with status 200 that is not
    JSON sets the counter to 0, replaces [last_text], and the exception
    leaves [update], where the claim has the counter incremented, the
    snapshot untouched and the error absorbed. *)
Theorem update_failure_kinds_differ :
  let w0 := start_world (fun _ => 43200%Q) envoy_down_then_503 in
  let w1 := snd (update Inventory w0) in
  let w2 := snd (update Inventory w1) in
  let w3 := snd (update Inventory w2) in
  let v0 := start_world (fun _ => 43200%Q) envoy_html in
  let v1 := snd (update Inventory v0) in
  failed_request_count (inventory_data w1) = 1 /\
  failed_request_count (inventory_data w2) = 2 /\
  fst (update Inventory w2) = Returned tt /\
  failed_request_count (inventory_data w3) = 0 /\
  snapshot (inventory_data w3) = snapshot (inventory_data w0) /\
  fst (update Inventory v0) = Raised JSONDecodeError /\
  failed_request_count (inventory_data v1) = 0 /\
  last_text (inventory_data v1) = Some "<html>busy</html>" /\
  last_json (inventory_data v1) = JNull.
Proof. vm_compute. repeat split; reflexivity. Qed.

(** ** Production payloads and a registry without a relay *)

Lemma find_type_none_nth t l :
  find_type t l = None <->
  (forall i k d, nth_error l i = Some (k, d) -> DeviceType_eqb (type d) t = false).
Proof.
  induction l as [| [k0 d0] l IH]; simpl.
  - split; [| reflexivity]. intros _ [| i] k d H; discriminate.
  - destruct (DeviceType_eqb (type d0) t) eqn:E.
    + split; [discriminate |]. intros H.
      specialize (H O k0 d0 eq_refl). congruence.
    + destruct (find_type t l) eqn:F; simpl.
      * split; [discriminate |]. intros H.
        assert (Some r = None) as X; [| discriminate X].
        apply IH. intros i k d Hi. apply (H (S i) k d). exact Hi.
      * split; [| reflexivity]. intros _ [| i] k d H.
        -- inversion H; subst. exact E.
        -- apply (proj1 IH eq_refl i k d). exact H.
Qed.

(** an [eim] item met while no device of type NSRB is registered: the
    method call on [None] raises, and nothing has been written *)
Lemma convert_production_item_without_relay dir o w :
  Py.lookup "type" o = Some (JStr "eim") ->
  find_type NSRB (devices w) = None ->
  convert_production_item dir (JObj o) w = (Raised AttributeError, w).
Proof.
  intros Ht Hnone.
  unfold convert_production_item, bind, lift, find_device_by_type, gets.
  simpl. rewrite Ht. simpl. rewrite Hnone. reflexivity.
Qed.

(** C3: ingesting a production payload with an [eim] item while the
    registry holds no relay is not silent: [find_device_by_type] gives
    [None] and the method call on it raises [AttributeError], which leaves
    [request_envoy_data]; no device is created and the aggregate duration is
    not written. *)
Theorem production_without_relay_raises :
  let w := start_world (fun _ => 43200%Q) envoy_without_relay in
  fst (request_envoy_data w) = Raised AttributeError /\
  devices (snd (request_envoy_data w)) = [] /\
  sink (snd (request_envoy_data w)) =
    [GaugeSet envoy_inventory_request_failed_count (JNum 0);
     GaugeSet envoy_inventory_request_duration_seconds (JNum 0);
     GaugeSet envoy_production_request_failed_count (JNum 0);
     GaugeSet envoy_production_request_duration_seconds (JNum 0)].
Proof. vm_compute. repeat split; reflexivity. Qed.

(** ** Constructing a relay device *)

Lemma insert_length {A : Type} (i : Z) (x : A) (l : list A) :
  List.length (Py.insert i x l) = S (List.length l).
Proof.
  unfold Py.insert. rewrite length_app. simpl.
  rewrite length_firstn, length_skipn. lia.
Qed.

Lemma quiet_ret {A : Type} (a : A) : quiet (ret a).
Proof. intros w e w' H. discriminate H. Qed.

Lemma quiet_emit c : quiet (emit c).
Proof. intros w e w' H. discriminate H. Qed.

Lemma quiet_bind {A B : Type} (m : M A) (k : A -> M B) :
  quiet m -> (forall a, quiet (k a)) -> quiet (bind m k).
Proof.
  intros Hm Hk w e w' H. apply bind_inv in H.
  destruct H as [(a & w1 & H1 & H2) | (e' & H1 & H2)].
  - exact (Hk a w1 e w' H2).
  - inversion H2; subst. exact (Hm w e' w' H1).
Qed.

Lemma quiet_lift {A : Type} (o : outcome A) :
  o <> Raised RuntimeError -> quiet (lift o).
Proof. intros Ho w e w' H. inversion H; subst. congruence. Qed.

Lemma quiet_for_each {A : Type} (l : list A) (body : A -> M unit) :
  (forall a, quiet (body a)) -> quiet (for_each l body).
Proof.
  intros Hb. induction l as [| a l IH]; simpl.
  - apply quiet_ret.
  - apply quiet_bind; [apply Hb | intros _; exact IH].
Qed.

Lemma quiet_fold_each {A B : Type} (l : list A) (acc : B)
    (body : B -> A -> M B) :
  (forall b a, quiet (body b a)) -> quiet (fold_each l acc body).
Proof.
  intros Hb. revert acc. induction l as [| a l IH]; intros acc; simpl.
  - apply quiet_ret.
  - apply quiet_bind; [apply Hb | intros b; apply IH].
Qed.

Lemma getitem_quiet x k : Py.getitem x k <> Raised RuntimeError.
Proof.
  destruct x; simpl; try discriminate.
  destruct (Py.lookup k o); discriminate.
Qed.

Lemma int_quiet x : Py.int x <> Raised RuntimeError.
Proof.
  destruct x; simpl; try discriminate.
  destruct (Py.int_of_string s); discriminate.
Qed.

Lemma float_quiet x : Py.float x <> Raised RuntimeError.
Proof.
  destruct x; simpl; try discriminate.
  destruct (Py.float_of_string_ok s); discriminate.
Qed.

Lemma iter_quiet x : Py.iter x <> Raised RuntimeError.
Proof. destruct x; simpl; discriminate. Qed.

Lemma quiet_gauge_set m v : quiet (gauge_set m v).
Proof.
  unfold gauge_set. apply quiet_bind.
  - apply quiet_lift, float_quiet.
  - intros _. apply quiet_emit.
Qed.

Ltac quiet_steps :=
  repeat first
    [ progress intros
    | apply quiet_ret | apply quiet_emit | apply quiet_gauge_set
    | apply getitem_quiet | apply int_quiet | apply float_quiet
    | apply iter_quiet
    | apply quiet_bind
    | apply quiet_for_each
    | apply quiet_lift
    | match goal with
      | |- quiet (if ?b then _ else _) => destruct b
      | |- quiet (match ?x with _ => _ end) => destruct x
      end ].

Lemma quiet_DeviceData_init t inv : quiet (DeviceData_init t inv).
Proof.
  unfold DeviceData_init, strftime_localtime_int, labels, info_set.
  quiet_steps.
Qed.

Lemma quiet_RelayDevice_init_item inv s acc item :
  quiet (RelayDevice_init_item inv s acc item).
Proof.
  unfold RelayDevice_init_item, declare_line, labels, raise.
  quiet_steps; discriminate.
Qed.

(** every item adds one to [relay_lines] and one entry to [line_connected] *)
Lemma RelayDevice_init_item_count inv s acc item w acc' w' :
  RelayDevice_init_item inv s acc item w = (Returned acc', w') ->
  Z.of_nat (List.length (snd acc)) = fst acc ->
  Z.of_nat (List.length (snd acc')) = fst acc'.
Proof.
  unfold RelayDevice_init_item. intros H Hacc.
  destruct item; try discriminate H.
  destruct (search_line_connected s0) as [group1 |].
  - repeat (apply bind_inv in H;
            destruct H as [(? & ? & _ & H) | (? & _ & H)];
            [| discriminate H]).
    inversion H; subst. simpl. rewrite insert_length. lia.
  - inversion H; subst. exact Hacc.
Qed.

Lemma fold_each_invariant {A B : Type} (P : B -> Prop) (body : B -> A -> M B) :
  (forall b a w b' w', body b a w = (Returned b', w') -> P b -> P b') ->
  forall l acc w acc' w',
    fold_each l acc body w = (Returned acc', w') -> P acc -> P acc'.
Proof.
  intros Hb. induction l as [| a l IH]; intros acc w acc' w' H Hacc; simpl in H.
  - inversion H; subst. exact Hacc.
  - apply bind_inv in H.
    destruct H as [(b & w1 & H1 & H2) | (e & _ & H)]; [| discriminate H].
    apply (IH b w1 acc' w' H2). apply (Hb acc a w b w1 H1). exact Hacc.
Qed.

(** the test [len(self.line_connected) != relay_lines] never holds:
    [RelayDevice.__init__] does not raise its own error, whatever the keys *)
Lemma RelayDevice_init_never_RuntimeError t inv w e w' :
  RelayDevice_init t inv w = (Raised e, w') -> e <> RuntimeError.
Proof.
  unfold RelayDevice_init. intros H.
  apply bind_inv in H. destruct H as [(d & w1 & _ & H) | (e' & H & He)];
    [| inversion He; subst; exact (quiet_DeviceData_init _ _ _ _ _ H)].
  apply bind_inv in H. destruct H as [(? & w2 & _ & H) | (e' & H & He)];
    [| discriminate H].
  apply bind_inv in H. destruct H as [(lc & w3 & _ & H) | (e' & H & He)];
    [| inversion He; subst;
       exact (quiet_lift _ (getitem_quiet _ _) _ _ _ H)].
  apply bind_inv in H. destruct H as [(? & w4 & _ & H) | (e' & H & He)];
    [| inversion He; subst; exact (quiet_gauge_set _ _ _ _ _ H)].
  apply bind_inv in H. destruct H as [(items & w5 & _ & H) | (e' & H & He)];
    [| inversion He; subst; exact (quiet_lift _ (iter_quiet _) _ _ _ H)].
  apply bind_inv in H. destruct H as [(acc & w6 & Hfold & H) | (e' & H & He)].
  - assert (Hcount : Z.of_nat (List.length (snd acc)) = fst acc).
    { apply (fold_each_invariant
               (fun a => Z.of_nat (List.length (snd a)) = fst a)
               _ (fun b a w b' w' => RelayDevice_init_item_count _ _ b a w b' w')
               _ _ _ _ _ Hfold).
      reflexivity. }
    apply Z.eqb_eq in Hcount. rewrite Hcount in H. discriminate H.
  - inversion He; subst.
    refine (quiet_fold_each _ _ _ _ _ _ _ H).
    intros b a. apply quiet_RelayDevice_init_item.
Qed.

(** C4: with keys [line1-connected], [line2-connected], [line3-connected]
    the constructor gives a device with 3 lines; with [line1-connected] and
    [line3-connected] it does not raise, where the claim has a construction
    error: [list.insert] puts the flag of line 3 at position 1, the list has
    2 entries for 2 keys, and the device is built with lines 1 and 2. *)
Theorem RelayDevice_init_gap_is_accepted :
  let w := start_world (fun _ => 43200%Q) (fun _ _ => ConnectionError) in
  let built (lines : list bool) : outcome DeviceData :=
    Returned {| type := NSRB; serial_num := JStr "R1";
                part_num := JStr "800-00598";
                installed_date := JStr "1600000000";
                installed_date_date := 1600000000;
                image_loaded_date := JStr "1600000001";
                image_loaded_date_date := 1600000001;
                line_connected := Some lines |} in
  fst (RelayDevice_init NSRB relay_record_123 w) = built [true; true; true] /\
  fst (RelayDevice_init NSRB relay_record_13 w) = built [true; false].
Proof. vm_compute. split; reflexivity. Qed.

(** ** An exception during inventory ingestion *)




(** ** Inventory updates of a registered device *)

Lemma metadata_writes_app s t :
  metadata_writes (s ++ t) = (metadata_writes s + metadata_writes t)%nat.
Proof. unfold metadata_writes. rewrite filter_app, length_app. reflexivity. Qed.

Lemma metadata_writes_gauge s m v :
  metadata_writes (s ++ [GaugeSet m v]) = metadata_writes s.
Proof. rewrite metadata_writes_app. unfold metadata_writes. simpl. lia. Qed.

Ltac run_health :=
  repeat match goal with
         | |- context [match Py.getitem ?x ?k with _ => _ end] =>
             destruct (Py.getitem x k) eqn:?; simpl
         | |- context [match Py.float ?v with _ => _ end] =>
             destruct (Py.float v) as [[] |] eqn:?; simpl
         | H : context [match Py.getitem ?x ?k with _ => _ end] |- _ =>
             destruct (Py.getitem x k) eqn:?; simpl in H
         | H : context [match Py.float ?v with _ => _ end] |- _ =>
             destruct (Py.float v) as [[] |] eqn:?; simpl in H
         end.

Lemma publish_health_returned d inv w w' :
  publish_health d inv w = (Returned tt, w') ->
  exists p c v o,
    Py.getitem inv "producing" = Returned p /\
    Py.getitem inv "communicating" = Returned c /\
    Py.getitem inv "provisioned" = Returned v /\
    Py.getitem inv "operating" = Returned o /\
    w' = set_sink (sink w ++ health_calls d p c v o) w.
Proof.
  unfold publish_health, gauge_set, bind, lift, emit, modify. intros H.
  run_health; try discriminate H.
  inversion H; subst. eexists _, _, _, _. repeat split.
  unfold set_sink, health_calls. simpl. rewrite <- !app_assoc. reflexivity.
Qed.

(** whatever its outcome, [publish_health] publishes no metadata and leaves
    the registry alone *)
Lemma publish_health_frame d inv w :
  metadata_writes (sink (snd (publish_health d inv w))) =
    metadata_writes (sink w) /\
  devices (snd (publish_health d inv w)) = devices w.
Proof.
  unfold publish_health, gauge_set, bind, lift, emit, modify.
  run_health; rewrite ?metadata_writes_gauge; split; reflexivity.
Qed.

Lemma update_at_nth_error i f l k d :
  nth_error l i = Some (k, d) ->
  nth_error (update_at i f l) i = Some (k, f d).
Proof.
  revert i. induction l as [| [k0 d0] l IH]; intros [| i] H; simpl in *;
    try discriminate.
  - inversion H; subst. reflexivity.
  - apply IH. exact H.
Qed.

Lemma update_at_other i j f l :
  i <> j -> nth_error (update_at i f l) j = nth_error l j.
Proof.
  revert i j. induction l as [| [k0 d0] l IH]; intros [| i] [| j] H; simpl;
    try reflexivity.
  - contradiction.
  - apply IH. congruence.
Qed.

Lemma update_at_identity i f l :
  (forall d, fixed_attributes (f d) = fixed_attributes d) ->
  map entry_identity (update_at i f l) = map entry_identity l.
Proof.
  intros Hf. revert i. induction l as [| [k0 d0] l IH]; intros [| i]; simpl;
    try reflexivity.
  - unfold entry_identity at 1 3. simpl. rewrite Hf. reflexivity.
  - rewrite IH. reflexivity.
Qed.

(** the three ways [update_inventory_data] can run on a registered device *)
Lemma update_inventory_data_same self inv w k d incoming :
  nth_error (devices w) self = Some (k, d) ->
  Py.getitem inv "img_load_date" = Returned incoming ->
  Py.eqb (image_loaded_date d) incoming = true ->
  update_inventory_data self inv w = publish_health d inv w.
Proof.
  intros Hd Hi He. unfold update_inventory_data, bind, get_device, lift.
  rewrite Hd, Hi, He. reflexivity.
Qed.

Lemma update_inventory_data_changed self inv w k d incoming n :
  nth_error (devices w) self = Some (k, d) ->
  Py.getitem inv "img_load_date" = Returned incoming ->
  Py.eqb (image_loaded_date d) incoming = false ->
  Py.int incoming = Returned n ->
  update_inventory_data self inv w =
  publish_health d inv
    (set_sink (sink w ++ [InfoSet (envoy_device_metadata (serial_num d))
                                  (part_num d) (installed_date_date d) n])
       (set_devices
          (update_at self (fun d => with_image_loaded_date_date d n)
             (update_at self (fun d => with_image_loaded_date d incoming)
                (devices w))) w)).
Proof.
  intros Hd Hi He Hn.
  unfold update_inventory_data, bind, get_device, lift, assign, modify,
    strftime_localtime_int, lift, info_set, emit, modify.
  rewrite Hd, Hi, He. simpl. rewrite Hn. reflexivity.
Qed.

Lemma update_inventory_data_unreadable self inv w k d incoming e :
  nth_error (devices w) self = Some (k, d) ->
  Py.getitem inv "img_load_date" = Returned incoming ->
  Py.eqb (image_loaded_date d) incoming = false ->
  Py.int incoming = Raised e ->
  update_inventory_data self inv w =
  (Raised e,
   set_devices (update_at self (fun d => with_image_loaded_date d incoming)
                  (devices w)) w).
Proof.
  intros Hd Hi He Hn.
  unfold update_inventory_data, bind, get_device, lift, assign, modify,
    strftime_localtime_int, lift.
  rewrite Hd, Hi, He. simpl. rewrite Hn. reflexivity.
Qed.

(** Python's [==] holds between a string, a number, a boolean or [None] and
    itself *)
Lemma eqb_scalar_refl x :
  match x with
  | JArr _ | JObj _ => True
  | _ => Py.eqb x x = true
  end.
Proof.
  destruct x; simpl; trivial.
  - destruct b; reflexivity.
  - apply Qeq_bool_refl.
  - apply String.eqb_refl.
Qed.

(** C8: when [update_inventory_data] runs to its end on a registered
    device, the metadata record is published once more exactly when the
    incoming image-load timestamp differs (by Python's [!=]) from the stored
    one; the four health flags are written in every case, with the values of
    the record; and running the update again with the same record publishes
    no metadata. *)
Theorem update_inventory_data_republishes_on_change self inv w k d incoming :
  nth_error (devices w) self = Some (k, d) ->
  Py.getitem inv "img_load_date" = Returned incoming ->
  fst (update_inventory_data self inv w) = Returned tt ->
  let w' := snd (update_inventory_data self inv w) in
  let changed := negb (Py.eqb (image_loaded_date d) incoming) in
  metadata_writes (sink w') =
    (metadata_writes (sink w) + (if changed then 1 else 0))%nat /\
  (exists p c v o n,
     Py.getitem inv "producing" = Returned p /\
     Py.getitem inv "communicating" = Returned c /\
     Py.getitem inv "provisioned" = Returned v /\
     Py.getitem inv "operating" = Returned o /\
     (changed = true -> Py.int incoming = Returned n) /\
     sink w' =
       sink w ++
       (if changed
        then [InfoSet (envoy_device_metadata (serial_num d)) (part_num d)
                      (installed_date_date d) n]
        else []) ++
       health_calls d p c v o) /\
  (Py.eqb incoming incoming = true ->
   metadata_writes (sink (snd (update_inventory_data self inv w'))) =
     metadata_writes (sink w')).
Proof.
  intros Hd Hi Hret w' changed. unfold w', changed in *. clear w' changed.
  destruct (Py.eqb (image_loaded_date d) incoming) eqn:He; simpl.
  - rewrite (update_inventory_data_same _ _ _ _ _ _ Hd Hi He) in *.
    destruct (publish_health d inv w) as [[[] | e] w1] eqn:Hp;
      [| discriminate Hret].
    destruct (publish_health_frame d inv w) as [Hm Hdev].
    rewrite Hp in Hm, Hdev. simpl in *.
    split; [rewrite Hm; lia |]. split.
    + destruct (publish_health_returned _ _ _ _ Hp)
        as (p & c & v & o & Hp1 & Hp2 & Hp3 & Hp4 & Hw).
      exists p, c, v, o, 0. repeat split; try assumption; try discriminate.
      subst w1. reflexivity.
    + intros _.
      assert (Hd1 : nth_error (devices w1) self = Some (k, d))
        by (rewrite Hdev; exact Hd).
      rewrite (update_inventory_data_same _ _ _ _ _ _ Hd1 Hi He).
      apply publish_health_frame.
  - destruct (Py.int incoming) as [n | e] eqn:Hn.
    + rewrite (update_inventory_data_changed _ _ _ _ _ _ _ Hd Hi He Hn) in *.
      match goal with
      | H : fst (publish_health d inv ?w0) = _ |- _ => set (w1 := w0) in *
      end.
      destruct (publish_health d inv w1) as [[[] | e] w2] eqn:Hp;
        [| discriminate Hret].
      destruct (publish_health_frame d inv w1) as [Hm Hdev].
      rewrite Hp in Hm, Hdev. simpl in Hm, Hdev |- *.
      split; [| split].
      * rewrite Hm. unfold w1. simpl. rewrite metadata_writes_app.
        reflexivity.
      * destruct (publish_health_returned _ _ _ _ Hp)
          as (p & c & v & o & Hp1 & Hp2 & Hp3 & Hp4 & Hw).
        exists p, c, v, o, n. repeat split; try assumption.
        subst w2. unfold w1. simpl. rewrite <- app_assoc. reflexivity.
      * intros Hrefl.
        assert (Hd2 : nth_error (devices w2) self =
                      Some (k, with_image_loaded_date_date
                                 (with_image_loaded_date d incoming) n)).
        { rewrite Hdev. unfold w1. simpl.
          apply (update_at_nth_error self
                   (fun d => with_image_loaded_date_date d n)).
          apply (update_at_nth_error self
                   (fun d => with_image_loaded_date d incoming)).
          exact Hd. }
        rewrite (update_inventory_data_same _ _ _ _ _ _ Hd2 Hi Hrefl).
        apply publish_health_frame.
    + rewrite (update_inventory_data_unreadable _ _ _ _ _ _ _ Hd Hi He Hn)
        in Hret.
      discriminate Hret.
Qed.

Lemma update_inventory_data_republishes_on_change_witness :
  let w' := snd (update_inventory_data O inverter_record_updated
                   world_with_inverter) in
  metadata_writes (sink w') = 2%nat /\
  metadata_writes (sink (snd (update_inventory_data O inverter_record_updated
                                w'))) = 2%nat.
Proof.
  intros w'.
  assert (Hd : exists d, nth_error (devices world_with_inverter) O =
                           Some (Py.KStr "I1", d) /\
                         image_loaded_date d = JStr "1600000001").
  { eexists. split; vm_compute; reflexivity. }
  destruct Hd as (d & Hd & Hold).
  destruct (update_inventory_data_republishes_on_change
              0%nat inverter_record_updated world_with_inverter
              (Py.KStr "I1") d (JStr "1700000000") Hd)
    as (H1 & _ & H3); [vm_compute; reflexivity | vm_compute; reflexivity |].
  fold w' in H1, H3. rewrite Hold in H1.
  split.
  - rewrite H1. vm_compute. reflexivity.
  - rewrite H3; [rewrite H1 |]; vm_compute; reflexivity.
Defined.

Lemma publish_health_calls d inv w :
  exists added,
    sink (snd (publish_health d inv w)) = sink w ++ added /\
    forallb inventory_call added = true.
Proof.
  unfold publish_health, gauge_set, bind, lift, emit, modify.
  run_health; rewrite <- ?app_assoc; simpl;
    solve [ eexists; split; [reflexivity | reflexivity]
          | exists []; split; [symmetry; apply app_nil_r | reflexivity] ].
Qed.

Lemma update_inventory_data_calls self inv w :
  exists added,
    sink (snd (update_inventory_data self inv w)) = sink w ++ added /\
    forallb inventory_call added = true.
Proof.
  assert (Hnone : exists added, sink w = sink w ++ added /\
                                forallb inventory_call added = true).
  { exists []. split; [symmetry; apply app_nil_r | reflexivity]. }
  destruct (nth_error (devices w) self) as [[k d] |] eqn:Hd.
  2:{ unfold update_inventory_data, bind, get_device. rewrite Hd. exact Hnone. }
  destruct (Py.getitem inv "img_load_date") as [incoming | e] eqn:Hi.
  2:{ unfold update_inventory_data, bind, get_device, lift.
      rewrite Hd, Hi. exact Hnone. }
  destruct (Py.eqb (image_loaded_date d) incoming) eqn:He.
  - rewrite (update_inventory_data_same _ _ _ _ _ _ Hd Hi He).
    apply publish_health_calls.
  - destruct (Py.int incoming) as [n | e] eqn:Hn.
    + rewrite (update_inventory_data_changed _ _ _ _ _ _ _ Hd Hi He Hn).
      match goal with
      | |- context [publish_health d inv ?w0] =>
          destruct (publish_health_calls d inv w0) as (added & Hs & Ha)
      end.
      rewrite Hs. simpl. rewrite <- app_assoc.
      eexists. split; [reflexivity |]. simpl. exact Ha.
    + rewrite (update_inventory_data_unreadable _ _ _ _ _ _ _ Hd Hi He Hn).
      exact Hnone.
Qed.

Lemma update_at_same i l : update_at i (fun d => d) l = l.
Proof.
  revert i. induction l as [| [k0 d0] l IH]; intros [| i]; simpl;
    try reflexivity.
  rewrite IH. reflexivity.
Qed.

Lemma update_at_twice i f g l :
  update_at i g (update_at i f l) = update_at i (fun d => g (f d)) l.
Proof.
  revert i. induction l as [| [k0 d0] l IH]; intros [| i]; simpl;
    try reflexivity.
  rewrite IH. reflexivity.
Qed.

(** the registry after [update_inventory_data]: at most the object [self]
    has been assigned to, and only its image-load attributes *)
Lemma update_inventory_data_devices self inv w :
  exists f,
    devices (snd (update_inventory_data self inv w)) =
      update_at self f (devices w) /\
    forall d, fixed_attributes (f d) = fixed_attributes d.
Proof.
  assert (Hnone : exists f, devices w = update_at self f (devices w) /\
                            forall d, fixed_attributes (f d) = fixed_attributes d).
  { exists (fun d => d). split; [symmetry; apply update_at_same | reflexivity]. }
  destruct (nth_error (devices w) self) as [[k d] |] eqn:Hd.
  2:{ unfold update_inventory_data, bind, get_device. rewrite Hd. exact Hnone. }
  destruct (Py.getitem inv "img_load_date") as [incoming | e] eqn:Hi.
  2:{ unfold update_inventory_data, bind, get_device, lift.
      rewrite Hd, Hi. exact Hnone. }
  destruct (Py.eqb (image_loaded_date d) incoming) eqn:He.
  - rewrite (update_inventory_data_same _ _ _ _ _ _ Hd Hi He).
    rewrite (proj2 (publish_health_frame d inv w)). exact Hnone.
  - destruct (Py.int incoming) as [n | e] eqn:Hn.
    + rewrite (update_inventory_data_changed _ _ _ _ _ _ _ Hd Hi He Hn).
      rewrite (proj2 (publish_health_frame d inv _)). simpl.
      rewrite update_at_twice. eexists. split; [reflexivity |].
      intros d0. reflexivity.
    + rewrite (update_inventory_data_unreadable _ _ _ _ _ _ _ Hd Hi He Hn).
      simpl. eexists. split; [reflexivity |]. intros d0. reflexivity.
Qed.

(** C9: whatever its outcome, [update_inventory_data] leaves the fixed
    attributes of every registered device as they are, [line_connected]
    among them; it leaves every device but [self] untouched; on the sink it
    only publishes metadata and health flags; and it changes nothing else. *)
Theorem update_inventory_data_keeps_line_layout self inv w :
  let w' := snd (update_inventory_data self inv w) in
  map entry_identity (devices w') = map entry_identity (devices w) /\
  map (fun kd => line_connected (snd kd)) (devices w') =
    map (fun kd => line_connected (snd kd)) (devices w) /\
  (forall j, j <> self -> nth_error (devices w') j = nth_error (devices w) j) /\
  (exists added, sink w' = sink w ++ added /\
                 forallb inventory_call added = true) /\
  surroundings w' = surroundings w.
Proof.
  intros w'. unfold w'.
  destruct (update_inventory_data_devices self inv w) as (f & Hf & Hfix).
  assert (Hid : map entry_identity
                  (devices (snd (update_inventory_data self inv w))) =
                map entry_identity (devices w)).
  { rewrite Hf. apply update_at_identity. exact Hfix. }
  split; [exact Hid |]. split; [| split; [| split]].
  - assert (Hmap : forall l : list (Py.key * DeviceData),
              map (fun kd => line_connected (snd kd)) l =
              map (fun x => snd (snd x)) (map entry_identity l)).
    { intros l. rewrite map_map. reflexivity. }
    rewrite !Hmap, Hid. reflexivity.
  - intros j Hj. rewrite Hf. apply update_at_other. congruence.
  - apply update_inventory_data_calls.
  - apply (preserves_update_inventory_data
             (fun a b => surroundings b = surroundings a));
      unfold surroundings; field_relation.
Qed.

(** ** The registry over the life of the process *)

Lemma entry_identity_keys l :
  map fst (map entry_identity l) = map fst l.
Proof. rewrite map_map. reflexivity. Qed.

Lemma update_at_keys i f l : map fst (update_at i f l) = map fst l.
Proof.
  revert i. induction l as [| [k0 d0] l IH]; intros [| i]; simpl;
    try reflexivity.
  rewrite IH. reflexivity.
Qed.

Lemma find_key_keys k l l' :
  map fst l = map fst l' -> find_key k l = find_key k l'.
Proof.
  revert l'. induction l as [| [k0 d0] l IH]; intros [| [k1 d1] l'] H;
    simpl in *; try discriminate; try reflexivity.
  inversion H; subst. rewrite (IH l' H2). reflexivity.
Qed.

Lemma find_key_app k l added i :
  find_key k l = Some i -> find_key k (l ++ added) = Some i.
Proof.
  revert i. induction l as [| [k0 d0] l IH]; intros i H; simpl in *;
    [discriminate |].
  destruct (Py.key_eqb k0 k); [exact H |].
  destruct (find_key k l) as [j |]; [| discriminate].
  rewrite (IH j eq_refl). exact H.
Qed.

Lemma find_key_none_entries k l :
  find_key k l = None -> entries_for k l = 0%nat.
Proof.
  unfold entries_for. induction l as [| [k0 d0] l IH]; simpl; intros H.
  - reflexivity.
  - destruct (Py.key_eqb k0 k); [discriminate |].
    destruct (find_key k l); [discriminate |]. apply IH. reflexivity.
Qed.

Lemma Qeq_bool_congruence p q x :
  Qeq_bool p q = true -> Qeq_bool x q = Qeq_bool x p.
Proof.
  intros H. apply Qeq_bool_iff in H.
  destruct (Qeq_bool x q) eqn:E1, (Qeq_bool x p) eqn:E2; try reflexivity.
  - apply Qeq_bool_iff in E1. apply Qeq_bool_neq in E2.
    exfalso. apply E2. rewrite E1, H. reflexivity.
  - apply Qeq_bool_iff in E2. apply Qeq_bool_neq in E1.
    exfalso. apply E1. rewrite E2, H. reflexivity.
Qed.

(** keys that are equal are equal to the same keys *)
Lemma key_eqb_congruence k k' x :
  Py.key_eqb k k' = true -> Py.key_eqb x k' = Py.key_eqb x k.
Proof.
  destruct k, k'; simpl; try discriminate; intros H.
  - reflexivity.
  - destruct x; simpl; try reflexivity. apply Qeq_bool_congruence. exact H.
  - apply String.eqb_eq in H. subst. reflexivity.
Qed.

Lemma entries_for_congruence k k' l :
  Py.key_eqb k k' = true -> entries_for k' l = entries_for k l.
Proof.
  intros H. unfold entries_for. induction (map fst l) as [| x ks IH]; simpl.
  - reflexivity.
  - rewrite (key_eqb_congruence k k' x H).
    destruct (Py.key_eqb x k); simpl; rewrite IH; reflexivity.
Qed.

Lemma dict_set_new k d l :
  find_key k l = None -> dict_set k d l = l ++ [(k, d)].
Proof. intros H. unfold dict_set. rewrite H. reflexivity. Qed.

(** an assignment under a key that is not yet filed keeps the keys apart *)
Lemma single_entry_new k d l :
  find_key k l = None -> single_entry l -> single_entry (dict_set k d l).
Proof.
  intros Hk Hl k'. rewrite (dict_set_new k d l Hk).
  unfold entries_for. rewrite map_app, filter_app, length_app. simpl.
  fold (entries_for k' l).
  destruct (Py.key_eqb k k') eqn:E; simpl.
  - rewrite (entries_for_congruence k k' l E).
    rewrite (find_key_none_entries k l Hk). lia.
  - specialize (Hl k'). lia.
Qed.

Lemma registry_extends_refl w : registry_extends w w.
Proof. exists []. rewrite app_nil_r. reflexivity. Qed.

Lemma registry_extends_trans a b c :
  registry_extends a b -> registry_extends b c -> registry_extends a c.
Proof.
  intros [x Hx] [y Hy]. exists (x ++ y).
  rewrite Hy, map_app, Hx, <- map_app, app_assoc. reflexivity.
Qed.

Lemma registry_extends_same a b :
  devices b = devices a -> registry_extends a b.
Proof. intros H. exists []. rewrite H, app_nil_r. reflexivity. Qed.

Lemma request_envoy_data_extends w :
  registry_extends w (snd (request_envoy_data w)).
Proof.
  apply (preserves_request_envoy_data registry_extends).
  - apply registry_extends_refl.
  - apply registry_extends_trans.
  - intros c a. apply registry_extends_same. reflexivity.
  - intros a. apply registry_extends_same. reflexivity.
  - intros a. apply registry_extends_same. reflexivity.
  - intros i v a. exists []. simpl. rewrite app_nil_r.
    apply update_at_identity. reflexivity.
  - intros i n a. exists []. simpl. rewrite app_nil_r.
    apply update_at_identity. reflexivity.
  - intros k d a H. exists [(k, d)]. simpl.
    rewrite (dict_set_new k d _ H). reflexivity.
  - intros r f a. apply registry_extends_same. destruct r; reflexivity.
  - intros t a. apply registry_extends_same. reflexivity.
Qed.

Lemma single_entry_keys l l' :
  map fst l' = map fst l -> single_entry l -> single_entry l'.
Proof. intros H Hl k. unfold entries_for. rewrite H. apply Hl. Qed.

Lemma request_envoy_data_single_entry w :
  single_entry (devices w) ->
  single_entry (devices (snd (request_envoy_data w))).
Proof.
  apply (preserves_request_envoy_data
           (fun a b => single_entry (devices a) -> single_entry (devices b)));
    try (intros; simpl; assumption).
  - intros a b c H1 H2 H. apply H2, H1, H.
  - intros i v a. simpl. apply single_entry_keys, update_at_keys.
  - intros i n a. simpl. apply single_entry_keys, update_at_keys.
  - intros k d a H. simpl. apply single_entry_new. exact H.
  - intros r f a. destruct r; simpl; intros H; exact H.
Qed.

(** the object that [find_device_by_serial] returns is filed under the
    serial it was asked for *)
Lemma find_device_by_serial_filed serial t inv k w self w1 :
  Py.hash serial = Returned k ->
  find_device_by_serial serial t inv w = (Returned (Some self), w1) ->
  find_key k (devices w1) = Some self.
Proof.
  intros Hk. unfold find_device_by_serial, bind, lift, gets, modify, ret.
  rewrite Hk. destruct (find_key k (devices w)) as [i |] eqn:Hf.
  - intros H. inversion H; subst. exact Hf.
  - destruct inv; try (intros H; discriminate H);
      (destruct (DeviceType_eqb t NSRB);
       [ destruct (RelayDevice_init t _ w) as [[d | e] w2]
       | destruct (DeviceData_init t _ w) as [[d | e] w2] ];
       intros H; inversion H; subst; reflexivity).
Qed.

Lemma convert_device_found t record serial w self w1 :
  Py.getitem record "serial_num" = Returned serial ->
  find_device_by_serial serial t record w = (Returned (Some self), w1) ->
  convert_device t record w = update_inventory_data self record w1.
Proof.
  intros Hs Hf. unfold convert_device, bind, lift. rewrite Hs, Hf.
  reflexivity.
Qed.

(** a record that has been processed has an entry *)
Lemma convert_device_registers t record serial k w :
  Py.getitem record "serial_num" = Returned serial ->
  Py.hash serial = Returned k ->
  fst (convert_device t record w) = Returned tt ->
  exists self, find_key k (devices (snd (convert_device t record w))) = Some self.
Proof.
  intros Hs Hk.
  destruct (find_device_by_serial serial t record w) as [[[self |] | e] w1]
    eqn:Hf.
  - rewrite (convert_device_found _ _ _ _ _ _ Hs Hf). intros _.
    pose proof (find_device_by_serial_filed _ _ _ _ _ _ _ Hk Hf) as Hfiled.
    exists self.
    destruct (update_inventory_data_devices self record w1) as (f & Hd & _).
    rewrite (find_key_keys k _ (devices w1)); [exact Hfiled |].
    rewrite Hd. apply update_at_keys.
  - unfold convert_device, bind, lift. rewrite Hs, Hf. discriminate.
  - unfold convert_device, bind, lift. rewrite Hs, Hf. discriminate.
Qed.

(** C7: over any number of requests the registry only grows at its end and
    every entry keeps its key and its fixed attributes; no key is filed
    twice; and a record that has been processed has its entry. *)
Theorem registry_is_append_only n w :
  registry_extends w (calls n w) /\
  (single_entry (devices w) -> single_entry (devices (calls n w))) /\
  (forall t record serial k w0,
     Py.getitem record "serial_num" = Returned serial ->
     Py.hash serial = Returned k ->
     fst (convert_device t record w0) = Returned tt ->
     exists self,
       find_key k (devices (snd (convert_device t record w0))) = Some self).
Proof.
  split; [| split].
  - revert w. induction n as [| n IH]; intros w; simpl.
    + apply registry_extends_refl.
    + apply registry_extends_trans with (snd (request_envoy_data w));
        [apply request_envoy_data_extends | apply IH].
  - revert w. induction n as [| n IH]; intros w H; simpl.
    + exact H.
    + apply IH, request_envoy_data_single_entry, H.
  - intros t record serial k w0. apply convert_device_registers.
Qed.

Lemma registry_is_append_only_witness :
  let w := start_world minute_clock envoy_steady in
  single_entry (devices (calls 2 w)) /\
  List.length (devices (calls 2 w)) = 1%nat /\
  requests_made (calls 2 w) = 4%nat.
Proof.
  intros w.
  destruct (registry_is_append_only 2 w) as (_ & H & _).
  split; [| split].
  - apply H. intros k. vm_compute. apply le_S, le_n.
  - vm_compute. reflexivity.
  - vm_compute. reflexivity.
Defined.

(** ** Production data of a relay *)

Lemma set_line_returned serial n dir info w w' :
  set_line serial n dir info w = (Returned tt, w') ->
  sink w' = sink w ++ line_bundle serial n dir info /\
  exists o, info = JObj o.
Proof.
  unfold set_line, line_bundle, labels, gauge_set, bind, lift, emit, modify.
  intros H. run_health; try discriminate H.
  inversion H; subst. simpl. rewrite <- !app_assoc. split; [reflexivity |].
  destruct info; try discriminate. eexists. reflexivity.
Qed.

Lemma update_production_line_returned d lines dir item i w w' :
  update_production_line d lines dir item i w = (Returned tt, w') ->
  sink w' = sink w ++ production_calls d lines dir item i /\
  (nth i lines false = true ->
   exists l info, Py.getitem item "lines" = Returned (JArr l) /\
                  nth_error l i = Some info).
Proof.
  unfold update_production_line, production_calls, lines_of.
  destruct (nth i lines false).
  - unfold bind, lift.
    destruct (Py.getitem item "lines") as [all_lines | e]; [| discriminate].
    destruct (Py.index all_lines i) as [info | e] eqn:Hi; [| discriminate].
    intros H. apply set_line_returned in H. destruct H as [Hs [o Ho]].
    destruct all_lines; simpl in Hi; try discriminate Hi.
    + destruct (nth_error (Py.chars s) i) as [c |] eqn:Hc;
        [| discriminate Hi].
      inversion Hi; subst.
      clear - Hc. exfalso. revert i Hc.
      induction s as [| a s IH]; intros [| i] Hc; simpl in Hc;
        try discriminate.
      apply (IH i Hc).
    + destruct (nth_error l i) as [x |] eqn:Hx; [| discriminate Hi].
      inversion Hi; subst x. split; [exact Hs |].
      intros _. exists l, info. split; [reflexivity | exact Hx].
  - intros H. inversion H; subst. split; [| discriminate].
    symmetry. apply app_nil_r.
Qed.

Lemma update_production_lines_returned d lines dir item a n w w' :
  for_each (seq a n) (update_production_line d lines dir item) w =
    (Returned tt, w') ->
  sink w' = sink w ++ flat_map (production_calls d lines dir item) (seq a n) /\
  (forall i, (a <= i < a + n)%nat -> nth i lines false = true ->
   exists l info, Py.getitem item "lines" = Returned (JArr l) /\
                  nth_error l i = Some info).
Proof.
  revert a w. induction n as [| n IH]; intros a w H; simpl in H.
  - inversion H; subst. simpl. split; [symmetry; apply app_nil_r |].
    intros i Hi. lia.
  - apply bind_inv in H.
    destruct H as [([] & w1 & H1 & H2) | (e & _ & H)]; [| discriminate H].
    apply update_production_line_returned in H1. destruct H1 as [Hs1 Hc1].
    apply IH in H2. destruct H2 as [Hs2 Hc2].
    split.
    + simpl. rewrite Hs2, Hs1, app_assoc. reflexivity.
    + intros i Hi Hconn.
      destruct (Nat.eq_dec i a) as [-> | Hne]; [apply Hc1; exact Hconn |].
      apply Hc2; [lia | exact Hconn].
Qed.

(** a connected line beyond the end of the ['lines'] list: the lookup raises
    before anything is written *)
Lemma update_production_line_short d lines dir item i l w :
  nth i lines false = true ->
  Py.getitem item "lines" = Returned (JArr l) ->
  (List.length l <= i)%nat ->
  update_production_line d lines dir item i w = (Raised IndexError, w).
Proof.
  intros Hc Hg Hlen. unfold update_production_line, bind, lift.
  rewrite Hc, Hg. simpl.
  rewrite (proj2 (nth_error_None l i) Hlen). reflexivity.
Qed.

(** C10: when [update_production_data] runs to its end on a relay, every
    connected line has been looked up in the ['lines'] list of the item, so
    that list exists and is at least as long as every connected line number;
    the calls made on the sink are the bundles of the connected lines, in
    order, and nothing else of the world has changed. *)
Theorem update_production_data_connected_lines self dir item w k d lines :
  nth_error (devices w) self = Some (k, d) ->
  line_connected d = Some lines ->
  fst (update_production_data self dir item w) = Returned tt ->
  let w' := snd (update_production_data self dir item w) in
  (forall i, nth_error lines i = Some true ->
     exists l info,
       Py.getitem item "lines" = Returned (JArr l) /\
       nth_error l i = Some info /\
       Z.of_nat i + 1 <= Z.of_nat (List.length l)) /\
  sink w' =
    sink w ++
    flat_map (production_calls d lines dir item) (seq 0 (List.length lines)) /\
  devices w' = devices w /\
  surroundings w' = surroundings w.
Proof.
  intros Hd Hl Hret w'.
  assert (Hframe : devices w' = devices w /\ surroundings w' = surroundings w).
  { unfold w'.
    apply (preserves_update_production_data
             (fun a b => devices b = devices a /\
                         surroundings b = surroundings a));
      unfold surroundings; field_relation. }
  assert (Hrun : update_production_data self dir item w =
                 for_each (seq 0 (List.length lines))
                          (update_production_line d lines dir item) w).
  { unfold update_production_data, bind, get_device. rewrite Hd, Hl.
    reflexivity. }
  unfold w' in *. rewrite Hrun in *.
  destruct (for_each (seq 0 (List.length lines))
              (update_production_line d lines dir item) w)
    as [[[] | e] w1] eqn:Hfor; [| discriminate Hret].
  apply update_production_lines_returned in Hfor.
  destruct Hfor as [Hsink Hlook]. simpl.
  split; [| split; [exact Hsink | exact Hframe]].
  intros i Hi.
  assert (Hlt : (i < List.length lines)%nat).
  { apply nth_error_Some. rewrite Hi. discriminate. }
  destruct (Hlook i) as (l & info & Hg & Hn); [lia | |].
  - rewrite (nth_error_nth lines i false Hi). reflexivity.
  - exists l, info. split; [exact Hg |]. split; [exact Hn |].
    assert (i < List.length l)%nat; [| lia].
    apply nth_error_Some. rewrite Hn. discriminate.
Qed.

Lemma update_production_data_connected_lines_witness :
  let w' := snd (update_production_data O production eim_item
                   world_with_relay) in
  sink w' =
    sink world_with_relay ++
    line_bundle (JStr "R1") 1 production (line_measurement 230) ++
    line_bundle (JStr "R1") 3 production (line_measurement 460) /\
  devices w' = devices world_with_relay.
Proof.
  intros w'.
  assert (Hd : exists d, nth_error (devices world_with_relay) O =
                           Some (Py.KStr "R1", d) /\
                         line_connected d = Some [true; false; true] /\
                         serial_num d = JStr "R1").
  { eexists. repeat split; vm_compute; reflexivity. }
  destruct Hd as (d & Hd & Hl & Hs).
  destruct (update_production_data_connected_lines
              O production eim_item world_with_relay (Py.KStr "R1") d
              [true; false; true] Hd Hl)
    as (_ & H2 & H3 & _); [vm_compute; reflexivity |].
  fold w' in H2, H3. split; [| exact H3].
  rewrite H2. f_equal.
  transitivity
    (line_bundle (serial_num d) 1 production (line_measurement 230) ++
     line_bundle (serial_num d) 3 production (line_measurement 460) ++ []);
    [reflexivity |].
  rewrite Hs, app_nil_r. reflexivity.
Defined.

(** ** Requests that race *)

Lemma step_at ps w i p :
  nth_error ps i = Some p ->
  step (ps, w) i =
    (set_nth i (fst (step_thread p w)) ps, snd (step_thread p w)).
Proof.
  unfold step. simpl. intros H. rewrite H.
  destruct (step_thread p w). reflexivity.
Qed.

Lemma nth_error_set_nth {A : Type} (l : list A) i x y :
  nth_error l i = Some y -> nth_error (set_nth i x l) i = Some x.
Proof.
  revert i. induction l as [| a l IH]; intros [| i] H; simpl in *;
    try discriminate; [reflexivity | apply IH; exact H].
Qed.

Lemma set_nth_twice {A : Type} (l : list A) i x y :
  set_nth i y (set_nth i x l) = set_nth i y l.
Proof.
  revert i. induction l as [| a l IH]; intros [| i]; simpl;
    try reflexivity.
  rewrite IH. reflexivity.
Qed.

Lemma set_nth_middle {A : Type} (l r : list A) x y :
  set_nth (List.length l) y (l ++ x :: r) = l ++ y :: r.
Proof. induction l as [| a l IH]; simpl; [| rewrite IH]; reflexivity. Qed.

Lemma nth_error_middle {A : Type} (l r : list A) x :
  nth_error (l ++ x :: r) (List.length l) = Some x.
Proof. induction l as [| a l IH]; simpl; [reflexivity | exact IH]. Qed.

Lemma run_app s1 s2 st : run (s1 ++ s2) st = run s2 (run s1 st).
Proof. unfold run. apply fold_left_app. Qed.

Lemma step_thread_check_open w :
  Qle_bool (last_envoy_update_time w + envoy_minimum_interval_seconds)
           (time_at w (ticks w)) = true ->
  step_thread AtCheck w = (AtRecord, set_ticks (S (ticks w)) w).
Proof.
  intros H. unfold step_thread, too_quick, bind, gets, time_time, ret.
  rewrite H. reflexivity.
Qed.

Lemma step_thread_check_closed w :
  Qle_bool (last_envoy_update_time w + envoy_minimum_interval_seconds)
           (time_at w (ticks w)) = false ->
  step_thread AtCheck w = (Done false, set_ticks (S (ticks w)) w).
Proof.
  intros H. unfold step_thread, too_quick, bind, gets, time_time, ret.
  rewrite H. reflexivity.
Qed.

(** a thread that runs its three statements without interruption, the
    throttle being open: it does what [request_envoy_data] does *)
Lemma thread_alone_open ps w i :
  nth_error ps i = Some AtCheck ->
  Qle_bool (last_envoy_update_time w + envoy_minimum_interval_seconds)
           (time_at w (ticks w)) = true ->
  run [i; i; i] (ps, w) =
    (set_nth i (Done true) ps, snd (request_envoy_data w)).
Proof.
  intros Hi Hopen. unfold run. cbn [fold_left].
  rewrite (step_at ps w i AtCheck Hi), (step_thread_check_open w Hopen).
  cbn [fst snd].
  rewrite (step_at _ _ i AtRecord (nth_error_set_nth ps i _ _ Hi)).
  cbn [step_thread fst snd]. rewrite set_nth_twice.
  rewrite (step_at _ _ i AtFetch (nth_error_set_nth ps i _ _ Hi)).
  cbn [step_thread fst snd]. rewrite set_nth_twice.
  rewrite (request_envoy_data_open w Hopen). reflexivity.
Qed.

(** the same, the throttle being closed *)
Lemma thread_alone_closed ps w i :
  nth_error ps i = Some AtCheck ->
  Qle_bool (last_envoy_update_time w + envoy_minimum_interval_seconds)
           (time_at w (ticks w)) = false ->
  run [i; i; i] (ps, w) =
    (set_nth i (Done false) ps, snd (request_envoy_data w)).
Proof.
  intros Hi Hclosed. unfold run. cbn [fold_left].
  rewrite (step_at ps w i AtCheck Hi), (step_thread_check_closed w Hclosed).
  cbn [fst snd].
  rewrite (step_at _ _ i (Done false) (nth_error_set_nth ps i _ _ Hi)).
  cbn [step_thread fst snd]. rewrite set_nth_twice.
  rewrite (step_at _ _ i (Done false) (nth_error_set_nth ps i _ _ Hi)).
  cbn [step_thread fst snd]. rewrite set_nth_twice.
  rewrite (request_envoy_data_closed w Hclosed). reflexivity.
Qed.

(** C5, as claimed, fails: two requests arrive after the interval has
    elapsed; both pass the test of line 436 before either has recorded its
    attempt, and both fetch. *)
Lemma racing_requests_both_fetch :
  let w := start_world (fun _ => 43200%Q) (fun _ _ => ConnectionError) in
  let st := run [0; 1; 0; 1; 0; 1]%nat ([AtCheck; AtCheck], w) in
  forallb finished (fst st) = true /\
  fetch_count (fst st) = 2%nat /\
  requests_made (snd st) = 4%nat.
Proof. vm_compute. repeat split; reflexivity. Qed.

Lemma throttle_closed_test T w :
  throttle_closed_from T w ->
  Qle_bool (last_envoy_update_time w + envoy_minimum_interval_seconds)
           (time_at w (ticks w)) = false.
Proof.
  intros [Hl Hk]. rewrite Hl. specialize (Hk (ticks w) (le_n _)).
  destruct (Qle_bool (T + envoy_minimum_interval_seconds)
                     (time_at w (ticks w))) eqn:E; [| reflexivity].
  apply Qle_bool_iff in E. exfalso. exact (Qlt_not_le _ _ Hk E).
Qed.

Lemma throttle_closed_stays T w :
  throttle_closed_from T w ->
  throttle_closed_from T (snd (request_envoy_data w)).
Proof.
  intros H. rewrite (request_envoy_data_closed w (throttle_closed_test T w H)).
  destruct H as [Hl Hk]. split; [exact Hl |].
  intros k Hle. simpl in *. apply Hk. lia.
Qed.

(** threads that start one after the other while the throttle is closed
    all finish without fetching *)
Lemma later_threads_skip T m :
  forall done w,
    throttle_closed_from T w ->
    exists w',
      run (flat_map (fun i => [i; i; i]) (seq (List.length done) m))
          (done ++ repeat AtCheck m, w) =
        (done ++ repeat (Done false) m, w') /\
      throttle_closed_from T w'.
Proof.
  induction m as [| m IH]; intros done w Hw.
  - exists w. split; [reflexivity | exact Hw].
  - change (flat_map (fun i => [i; i; i]) (seq (List.length done) (S m)))
      with ([List.length done; List.length done; List.length done] ++
            flat_map (fun i => [i; i; i]) (seq (S (List.length done)) m)).
    rewrite run_app. simpl repeat.
    rewrite (thread_alone_closed _ w _ (nth_error_middle done _ AtCheck)
               (throttle_closed_test T w Hw)).
    rewrite set_nth_middle.
    destruct (IH (done ++ [Done false]) (snd (request_envoy_data w))
                 (throttle_closed_stays T w Hw)) as (w' & Hrun & Hw').
    rewrite length_app, Nat.add_1_r, <- app_assoc in Hrun. simpl in Hrun.
    exists w'. split; [| exact Hw'].
    rewrite Hrun, <- app_assoc. reflexivity.
Qed.

Lemma fetch_count_skipped n : fetch_count (repeat (Done false) n) = 0%nat.
Proof. unfold fetch_count. induction n; simpl; [reflexivity | exact IHn]. Qed.

Lemma finished_skipped n : forallb finished (repeat (Done false) n) = true.
Proof. induction n; simpl; [reflexivity | exact IHn]. Qed.

(** C5, amended: the script has no critical section, so what holds is the
    serial case.  When the requests are served one after the other, the
    first finding the throttle open and the clock staying within the minimum
    interval of the attempt it records, the first request fetches and every
    other one finishes without fetching. *)
Theorem serial_requests_fetch_once n w :
  Qle_bool (last_envoy_update_time w + envoy_minimum_interval_seconds)
           (time_at w (ticks w)) = true ->
  (forall k, (S (ticks w) < k)%nat ->
     (time_at w k <
      time_at w (S (ticks w)) + envoy_minimum_interval_seconds)%Q) ->
  let st := run (serial (S n)) (repeat AtCheck (S n), w) in
  fst st = Done true :: repeat (Done false) n /\
  fetch_count (fst st) = 1%nat /\
  forallb finished (fst st) = true.
Proof.
  intros Hopen Hclock st.
  assert (Hst : fst st = Done true :: repeat (Done false) n).
  { unfold st, serial.
    change (flat_map (fun i => [i; i; i]) (seq 0 (S n)))
      with ([O; O; O] ++ flat_map (fun i => [i; i; i]) (seq 1 n)).
    rewrite run_app. simpl repeat.
    rewrite (thread_alone_open (AtCheck :: repeat AtCheck n) w O eq_refl Hopen).
    simpl set_nth.
    destruct (later_threads_skip (time_at w (S (ticks w))) n [Done true]
                (snd (request_envoy_data w))) as (w' & Hrun & _).
    - rewrite (request_envoy_data_open w Hopen).
      destruct (fetch_both_keeps_throttle (attempt_recorded w))
        as (Hl & Ht & _ & Hk & _).
      split.
      + rewrite Hl. reflexivity.
      + intros k Hle. rewrite Ht. simpl in *. apply Hclock. lia.
    - simpl in Hrun. rewrite Hrun. reflexivity. }
  rewrite Hst. split; [reflexivity |]. split.
  - unfold fetch_count. simpl.
    change (S (List.length (filter fetched (repeat (Done false) n))))
      with (S (fetch_count (repeat (Done false) n))).
    rewrite fetch_count_skipped. reflexivity.
  - simpl. apply finished_skipped.
Qed.

(** three requests served one after the other within the same second *)
Lemma serial_requests_fetch_once_witness :
  let w := start_world (fun _ => 43200%Q) (fun _ _ => ConnectionError) in
  fetch_count (fst (run (serial 3) ([AtCheck; AtCheck; AtCheck], w))) = 1%nat.
Proof.
  intros w.
  destruct (serial_requests_fetch_once 2 w) as (_ & H & _).
  - vm_compute. reflexivity.
  - intros k _. vm_compute. reflexivity.
  - exact H.
Defined.

(** * Further properties *)

(** ** The pattern of the line keys *)

Lemma span_digits_split s ds r :
  Py.span_digits s = (ds, r) -> s = (ds ++ r)%string /\ all_digits ds = true.
Proof.
  revert ds r. induction s as [| c s IH]; intros ds r H; simpl in H.
  - inversion H; subst. split; reflexivity.
  - destruct (Py.is_digit c) eqn:Hc.
    + destruct (Py.span_digits s) as [ds' r'] eqn:Hs.
      inversion H; subst. destruct (IH ds' r eq_refl) as [-> Hd].
      simpl. rewrite Hc, Hd. split; reflexivity.
    + inversion H; subst. split; reflexivity.
Qed.

Lemma prefix_app p q s : Py.prefix q s = true -> Py.prefix (p ++ q)%string (p ++ s)%string = true.
Proof.
  intros H. induction p as [| c p IH]; simpl; [exact H |].
  rewrite Ascii.eqb_refl, IH. reflexivity.
Qed.

Lemma match_line_connected_sound key ds :
  match_line_connected key = Some ds ->
  ds <> "" /\ all_digits ds = true /\
  Py.prefix ("line" ++ ds ++ "-connected")%string key = true.
Proof.
  unfold match_line_connected.
  destruct key as [| c0 [| c1 [| c2 [| c3 r]]]]; try discriminate;
    try (destruct c0 as [[] [] [] [] [] [] [] []]; discriminate);
    try (destruct c0 as [[] [] [] [] [] [] [] []]; try discriminate;
         destruct c1 as [[] [] [] [] [] [] [] []]; discriminate);
    try (destruct c0 as [[] [] [] [] [] [] [] []]; try discriminate;
         destruct c1 as [[] [] [] [] [] [] [] []]; try discriminate;
         destruct c2 as [[] [] [] [] [] [] [] []]; discriminate).
  destruct c0 as [[] [] [] [] [] [] [] []]; try discriminate;
  destruct c1 as [[] [] [] [] [] [] [] []]; try discriminate;
  destruct c2 as [[] [] [] [] [] [] [] []]; try discriminate;
  destruct c3 as [[] [] [] [] [] [] [] []]; try discriminate.
  destruct (Py.span_digits r) as [ds' r'] eqn:Hs.
  destruct ds' as [| d ds']; [discriminate |].
  destruct (Py.prefix "-connected" r') eqn:Hp; [| discriminate].
  intros H. inversion H; subst.
  destruct (span_digits_split _ _ _ Hs) as [-> Hd].
  split; [discriminate |]. split; [exact Hd |].
  change (Py.prefix ("line" ++ (String d ds' ++ "-connected"))%string
                    ("line" ++ (String d ds' ++ r'))%string = true).
  apply prefix_app, prefix_app. exact Hp.
Qed.

(** X1: what [re.search] finds in a key is a run of at least one digit that
    stands in the key between the words line and -connected. *)
Theorem search_line_connected_sound key ds :
  search_line_connected key = Some ds ->
  ds <> "" /\ all_digits ds = true /\
  Py.substring_of ("line" ++ ds ++ "-connected")%string key = true.
Proof.
  induction key as [| c key IH]; intros H.
  - simpl in H. discriminate.
  - change (search_line_connected (String c key))
      with (match match_line_connected (String c key) with
            | Some ds => Some ds
            | None => search_line_connected key
            end) in H.
    destruct (match_line_connected (String c key)) as [ds' |] eqn:Hm.
    + inversion H; subst.
      destruct (match_line_connected_sound _ _ Hm) as (H1 & H2 & H3).
      split; [exact H1 |]. split; [exact H2 |].
      change (Py.prefix ("line" ++ ds ++ "-connected")%string (String c key)
              || Py.substring_of ("line" ++ ds ++ "-connected")%string key = true).
      rewrite H3. reflexivity.
    + destruct (IH H) as (H1 & H2 & H3).
      split; [exact H1 |]. split; [exact H2 |].
      change (Py.prefix ("line" ++ ds ++ "-connected")%string (String c key)
              || Py.substring_of ("line" ++ ds ++ "-connected")%string key = true).
      rewrite H3. apply orb_true_r.
Qed.

Lemma search_line_connected_sound_witness :
  all_digits "12" = true /\
  Py.substring_of "line12-connected" "relay-line12-connected-b" = true.
Proof.
  destruct (search_line_connected_sound "relay-line12-connected-b" "12")
    as (_ & H2 & H3); [vm_compute; reflexivity |].
  split; [exact H2 | exact H3].
Defined.

Lemma span_digits_uint u r :
  Py.span_digits r = (EmptyString, r) ->
  Py.span_digits (NilEmpty.string_of_uint u ++ r)%string =
    (NilEmpty.string_of_uint u, r).
Proof.
  intros Hr. induction u; simpl; try exact Hr;
    change (Py.is_digit _) with true; cbv iota; rewrite IHu; reflexivity.
Qed.

Lemma decimal_value_uint u a :
  Py.decimal_value (Z.of_nat a) (NilEmpty.string_of_uint u) =
    Z.of_nat (Nat.of_uint_acc u a).
Proof.
  revert a. induction u; intros a;
    cbn [NilEmpty.string_of_uint Py.decimal_value Nat.of_uint_acc];
    try reflexivity;
    rewrite <- IHu; f_equal; rewrite Nat.tail_mul_spec;
    match goal with
    | |- context [Py.digit_value ?c] =>
        let v := eval vm_compute in (Py.digit_value c) in
        change (Py.digit_value c) with v
    end; lia.
Qed.

Lemma numeral_uint n :
  exists u, numeral n = NilEmpty.string_of_uint u /\ numeral n <> "" /\
            Nat.of_uint u = n.
Proof.
  unfold numeral, NilZero.string_of_uint.
  pose proof (DecimalNat.Unsigned.of_to n) as H.
  destruct (Nat.to_uint n) eqn:E;
    try (eexists; split; [reflexivity | split; [discriminate | exact H]]).
  exists (Decimal.D0 Decimal.Nil). split; [reflexivity |].
  split; [discriminate | exact H].
Qed.

(** X2: the key of line [n] is read back as line [n]: the pattern finds the
    numeral, and [int] of the numeral is [n]. *)
Theorem line_key_round_trip n :
  search_line_connected (line_key n) = Some (numeral n) /\
  Py.decimal_value 0 (numeral n) = Z.of_nat n.
Proof.
  destruct (numeral_uint n) as (u & Hu & Hne & Hn).
  split.
  - unfold line_key. rewrite Hu in *.
    change (search_line_connected
              ("line" ++ NilEmpty.string_of_uint u ++ "-connected")%string)
      with (match match_line_connected
                    ("line" ++ NilEmpty.string_of_uint u ++ "-connected")%string
            with
            | Some ds => Some ds
            | None => search_line_connected
                        ("ine" ++ NilEmpty.string_of_uint u ++ "-connected")%string
            end).
    change (match_line_connected
              ("line" ++ NilEmpty.string_of_uint u ++ "-connected")%string)
      with (let (ds, r') := Py.span_digits
                              (NilEmpty.string_of_uint u ++ "-connected")%string in
            match ds with
            | EmptyString => None
            | _ => if Py.prefix "-connected" r' then Some ds else None
            end).
    rewrite (span_digits_uint u "-connected" eq_refl).
    destruct (NilEmpty.string_of_uint u); [contradiction Hne; reflexivity |].
    reflexivity.
  - rewrite Hu. change 0 with (Z.of_nat 0).
    rewrite decimal_value_uint. unfold Nat.of_uint in Hn. rewrite Hn.
    reflexivity.
Qed.

(** ** Constructing device objects *)

Lemma getitem_errors x k e :
  Py.getitem x k = Raised e -> e = KeyError \/ e = TypeError.
Proof.
  destruct x; simpl; intros H; try (inversion H; right; reflexivity).
  destruct (Py.lookup k o); inversion H. left. reflexivity.
Qed.

Lemma int_errors x e :
  Py.int x = Raised e -> e = ValueError \/ e = TypeError.
Proof.
  destruct x; simpl; intros H; try (inversion H; right; reflexivity);
    try discriminate H.
  destruct (Py.int_of_string s); inversion H. left. reflexivity.
Qed.


(** what later proofs need of a plain device that has been built *)
Lemma DeviceData_init_returned t inv w d w' :
  DeviceData_init t inv w = (Returned d, w') ->
  type d = t /\ line_connected d = None /\
  Py.getitem inv "serial_num" = Returned (serial_num d).
Proof.
  unfold DeviceData_init, strftime_localtime_int, labels, info_set, emit,
    modify, bind, lift, ret.
  destruct (Py.getitem inv "serial_num") as [serial | e]; [| discriminate].
  destruct (Py.getitem inv "part_num") as [part | e]; [| discriminate].
  destruct (Py.getitem inv "installed") as [installed | e]; [| discriminate].
  destruct (Py.int installed) as [n | e]; [| discriminate].
  destruct (Py.getitem inv "img_load_date") as [image | e]; [| discriminate].
  destruct (Py.int image) as [m | e]; [| discriminate].
  intros H. inversion H; subst. simpl. repeat split.
Qed.

Lemma RelayDevice_init_item_places o serial acc key w acc' w' :
  RelayDevice_init_item (JObj o) serial acc (JStr key) w = (Returned acc', w') ->
  snd acc' = match line_flag o key with
             | Some flag => place_line (snd acc) flag
             | None => snd acc
             end.
Proof.
  unfold RelayDevice_init_item, line_flag. intros H.
  destruct (search_line_connected key) as [group1 |].
  - apply bind_inv in H.
    destruct H as [(v & w1 & Hv & H) | (e & _ & H)]; [| discriminate H].
    unfold lift in Hv. simpl in Hv.
    destruct (Py.lookup key o) as [v0 |]; [| discriminate Hv].
    inversion Hv; subst.
    repeat (apply bind_inv in H;
            destruct H as [(? & ? & _ & H) | (? & _ & H)];
            [| discriminate H]).
    inversion H; subst. reflexivity.
  - inversion H; subst. reflexivity.
Qed.

Lemma RelayDevice_init_items_place o serial l :
  forall acc w acc' w',
    fold_each (map (fun kv : string * json => JStr (fst kv)) l) acc
              (RelayDevice_init_item (JObj o) serial) w = (Returned acc', w') ->
    snd acc' =
      fold_left place_line
        (flat_map (fun key => match line_flag o key with
                              | Some x => [x]
                              | None => []
                              end) (map fst l))
        (snd acc).
Proof.
  induction l as [| [key v] l IH]; intros acc w acc' w' H; simpl in H.
  - inversion H; subst. reflexivity.
  - apply bind_inv in H.
    destruct H as [(b & w1 & H1 & H2) | (e & _ & H)]; [| discriminate H].
    apply RelayDevice_init_item_places in H1.
    apply IH in H2. rewrite H2. simpl. rewrite fold_left_app, H1.
    destruct (line_flag o key); reflexivity.
Qed.

(** a relay that has been built: the base object with the flags placed *)
Lemma RelayDevice_init_returned t inv w d w' :
  RelayDevice_init t inv w = (Returned d, w') ->
  exists o d0 w0,
    inv = JObj o /\
    DeviceData_init t inv w = (Returned d0, w0) /\
    d = with_line_connected d0 (place_lines (line_flags o)).
Proof.
  unfold RelayDevice_init. intros H.
  apply bind_inv in H.
  destruct H as [(d0 & w0 & Hd0 & H) | (e & _ & H)]; [| discriminate H].
  destruct (DeviceData_init_returned _ _ _ _ _ Hd0) as (_ & _ & Hs).
  destruct inv as [| | | | | o]; try discriminate Hs.
  exists o, d0, w0. split; [reflexivity |]. split; [exact Hd0 |].
  do 3 (apply bind_inv in H;
        destruct H as [(? & ? & _ & H) | (? & _ & H)];
        [| discriminate H]).
  apply bind_inv in H.
  destruct H as [(items & w5 & Hitems & H) | (e & _ & H)]; [| discriminate H].
  inversion Hitems; subst.
  apply bind_inv in H.
  destruct H as [(acc & w6 & Hfold & H) | (e & _ & H)]; [| discriminate H].
  apply RelayDevice_init_items_place in Hfold. simpl in Hfold.
  destruct (negb (Z.of_nat (List.length (snd acc)) =? fst acc));
    [discriminate H |].
  inversion H; subst. unfold place_lines, line_flags. rewrite Hfold.
  reflexivity.
Qed.

Lemma insert_at_end {A : Type} (x : A) (l : list A) :
  Py.insert (Z.of_nat (List.length l)) x l = l ++ [x].
Proof.
  unfold Py.insert.
  destruct (Z.of_nat (List.length l) <? 0) eqn:E; [apply Z.ltb_lt in E; lia |].
  rewrite Z.min_id, Nat2Z.id, firstn_all, skipn_all. reflexivity.
Qed.

Lemma place_lines_in_order flags :
  forall lines,
    map fst flags =
      map Z.of_nat (seq (S (List.length lines)) (List.length flags)) ->
    fold_left place_line flags lines = lines ++ map snd flags.
Proof.
  induction flags as [| [n c] flags IH]; intros lines H.
  - simpl. symmetry. apply app_nil_r.
  - cbn [map fst List.length seq] in H. injection H as Hn Hrest.
    assert (Hplace : place_line lines (n, c) = lines ++ [c]).
    { unfold place_line. cbn [fst snd].
      replace (n - 1) with (Z.of_nat (List.length lines)) by lia.
      apply insert_at_end. }
    cbn [fold_left map snd]. rewrite Hplace, IH.
    + rewrite <- app_assoc. reflexivity.
    + rewrite length_app, Nat.add_1_r. exact Hrest.
Qed.

(** X4: a relay that has been built has one flag for every key of the
    record that matches the pattern; and when these keys come in the order
    line 1, line 2, ..., the flag of line [n] stands at position [n - 1]. *)
Theorem RelayDevice_init_layout t o w d w' :
  RelayDevice_init t (JObj o) w = (Returned d, w') ->
  (exists lines, line_connected d = Some lines /\
                 List.length lines = List.length (line_flags o)) /\
  (map fst (line_flags o) =
     map Z.of_nat (seq 1 (List.length (line_flags o))) ->
   line_connected d = Some (map snd (line_flags o))).
Proof.
  intros H. apply RelayDevice_init_returned in H.
  destruct H as (o' & d0 & w0 & Ho & _ & Hd). inversion Ho; subst o'.
  subst d. simpl. split.
  - eexists. split; [reflexivity |].
    unfold place_lines.
    assert (Hlen : forall flags lines,
              List.length (fold_left place_line flags lines) =
              (List.length lines + List.length flags)%nat).
    { induction flags as [| f flags IH]; intros lines; simpl; [lia |].
      rewrite IH. unfold place_line. rewrite insert_length. lia. }
    rewrite Hlen. reflexivity.
  - intros Horder. unfold place_lines.
    rewrite (place_lines_in_order _ [] Horder). reflexivity.
Qed.

Lemma RelayDevice_init_layout_witness :
  let w := start_world (fun _ => 43200%Q) (fun _ _ => ConnectionError) in
  exists d w' o,
    relay_record_1x3 = JObj o /\
    RelayDevice_init NSRB relay_record_1x3 w = (Returned d, w') /\
    line_connected d = Some [true; false; true].
Proof.
  intros w.
  assert (E : exists d w', RelayDevice_init NSRB relay_record_1x3 w =
                             (Returned d, w')).
  { eexists. eexists. vm_compute. reflexivity. }
  destruct E as (d & w' & E).
  unfold relay_record_1x3 in *.
  match type of E with
  | RelayDevice_init _ (JObj ?o) _ = _ =>
      destruct (RelayDevice_init_layout NSRB o w d w' E) as [_ H];
      exists d, w', o
  end.
  split; [reflexivity |]. split; [exact E |].
  rewrite H; vm_compute; reflexivity.
Defined.

(** ** Looking devices up *)

Lemma key_eqb_refl k : Py.key_eqb k k = true.
Proof.
  destruct k; simpl; [reflexivity | apply Qeq_bool_refl | apply String.eqb_refl].
Qed.

Lemma find_key_new k d l :
  find_key k l = None -> find_key k (l ++ [(k, d)]) = Some (List.length l).
Proof.
  induction l as [| [k0 d0] l IH]; simpl; intros H.
  - rewrite key_eqb_refl. reflexivity.
  - destruct (Py.key_eqb k0 k); [discriminate H |].
    destruct (find_key k l); [discriminate H |].
    rewrite (IH eq_refl). reflexivity.
Qed.

Lemma find_key_nth k l i :
  find_key k l = Some i ->
  exists k' d, nth_error l i = Some (k', d) /\ Py.key_eqb k' k = true.
Proof.
  revert i. induction l as [| [k0 d0] l IH]; simpl; intros i H;
    [discriminate H |].
  destruct (Py.key_eqb k0 k) eqn:E.
  - inversion H; subst. exists k0, d0. split; [reflexivity | exact E].
  - destruct (find_key k l) as [j |]; [| discriminate H].
    inversion H; subst. apply IH. reflexivity.
Qed.

Lemma DeviceType_eqb_eq a b : DeviceType_eqb a b = true <-> a = b.
Proof. destruct a, b; simpl; split; intros H; congruence. Qed.

(** a serial that is filed: the object is returned and nothing happens *)
Lemma find_device_by_serial_known serial t inv k i w :
  Py.hash serial = Returned k ->
  find_key k (devices w) = Some i ->
  find_device_by_serial serial t inv w = (Returned (Some i), w).
Proof.
  intros Hk Hf. unfold find_device_by_serial, bind, lift, gets, ret.
  rewrite Hk, Hf. reflexivity.
Qed.

(** the registry after a device has been created for a new serial *)
Lemma find_device_by_serial_created serial t inv k w dev w' :
  Py.hash serial = Returned k ->
  find_key k (devices w) = None ->
  find_device_by_serial serial t inv w = (Returned (Some dev), w') ->
  exists d w1,
    (if DeviceType_eqb t NSRB then RelayDevice_init t inv w
     else DeviceData_init t inv w) = (Returned d, w1) /\
    w' = set_devices (devices w ++ [(k, d)]) w1 /\
    dev = List.length (devices w).
Proof.
  intros Hk Hf. unfold find_device_by_serial, bind, lift, gets, modify, ret.
  rewrite Hk, Hf.
  assert (Hgen : forall m : M DeviceData,
            devices (snd (m w)) = devices w ->
            (let (o, w1) := m w in
             match o with
             | Returned d =>
                 (Returned (find_key k (devices
                    (set_devices (dict_set k d (devices w1)) w1))),
                  set_devices (dict_set k d (devices w1)) w1)
             | Raised e => (Raised e, w1)
             end) = (Returned (Some dev), w') ->
            exists d w1, m w = (Returned d, w1) /\
                         w' = set_devices (devices w ++ [(k, d)]) w1 /\
                         dev = List.length (devices w)).
  { intros m Hd. destruct (m w) as [[d | e] w1]; [| discriminate].
    simpl in Hd. simpl devices. rewrite Hd, (dict_set_new k d _ Hf).
    rewrite (find_key_new k d _ Hf). intros H. inversion H; subst.
    exists d, w1. repeat split. }
  destruct inv; try discriminate;
    (destruct (DeviceType_eqb t NSRB);
     [ apply Hgen, RelayDevice_init_devices
     | apply Hgen, DeviceData_init_devices ]).
Qed.

(** X5: [find_device_by_serial] on a serial that is filed returns the object
    and changes nothing, whatever type and inventory it is given; on a
    serial that is not filed and without an inventory it returns [None] and
    changes nothing; on a serial that cannot be hashed it raises
    [TypeError] and changes nothing. *)
Theorem find_device_by_serial_lookup serial t inv w :
  (forall k i, Py.hash serial = Returned k ->
     find_key k (devices w) = Some i ->
     find_device_by_serial serial t inv w = (Returned (Some i), w)) /\
  (forall k, Py.hash serial = Returned k ->
     find_key k (devices w) = None ->
     find_device_by_serial serial t JNull w = (Returned None, w)) /\
  (forall e, Py.hash serial = Raised e ->
     find_device_by_serial serial t inv w = (Raised TypeError, w)).
Proof.
  split; [| split].
  - intros k i. apply find_device_by_serial_known.
  - intros k Hk Hf. unfold find_device_by_serial, bind, lift, gets, ret.
    rewrite Hk, Hf. reflexivity.
  - intros e He. unfold find_device_by_serial, bind, lift.
    rewrite He. destruct serial; simpl in He; try discriminate He;
      inversion He; reflexivity.
Qed.

Lemma find_device_by_serial_lookup_witness :
  find_device_by_serial (JStr "I1") NSRB relay_record_123 world_with_inverter =
    (Returned (Some O), world_with_inverter) /\
  find_device_by_serial (JStr "I2") INVERTER JNull world_with_inverter =
    (Returned None, world_with_inverter) /\
  find_device_by_serial (JArr []) INVERTER inverter_record world_with_inverter =
    (Raised TypeError, world_with_inverter).
Proof.
  destruct (find_device_by_serial_lookup (JStr "I1") NSRB relay_record_123
              world_with_inverter) as (H1 & _ & _).
  destruct (find_device_by_serial_lookup (JStr "I2") INVERTER JNull
              world_with_inverter) as (_ & H2 & _).
  destruct (find_device_by_serial_lookup (JArr []) INVERTER inverter_record
              world_with_inverter) as (_ & _ & H3).
  split; [| split].
  - apply (H1 (Py.KStr "I1")); vm_compute; reflexivity.
  - apply (H2 (Py.KStr "I2")); vm_compute; reflexivity.
  - apply (H3 TypeError). reflexivity.
Defined.

(** X6: a device created for a new serial is filed at the end of the
    registry under that serial, with the type it was created for, and it
    has a line layout exactly when that type is NSRB; from then on
    [find_device_by_serial] returns the same object for the serial and
    changes nothing, whatever type and inventory it is given. *)
Theorem find_device_by_serial_round_trip serial t inv k w dev w' :
  Py.hash serial = Returned k ->
  find_key k (devices w) = None ->
  find_device_by_serial serial t inv w = (Returned (Some dev), w') ->
  dev = List.length (devices w) /\
  (exists d, devices w' = devices w ++ [(k, d)] /\ type d = t /\
             (line_connected d <> None <-> t = NSRB)) /\
  (forall t2 inv2,
     find_device_by_serial serial t2 inv2 w' = (Returned (Some dev), w')).
Proof.
  intros Hk Hf H.
  destruct (find_device_by_serial_created _ _ _ _ _ _ _ Hk Hf H)
    as (d & w1 & Hinit & Hw' & Hdev).
  split; [exact Hdev |]. split.
  - exists d. subst w'. split; [reflexivity |].
    destruct (DeviceType_eqb t NSRB) eqn:Et.
    + apply RelayDevice_init_returned in Hinit.
      destruct Hinit as (o & d0 & w0 & _ & Hd0 & Hd).
      destruct (DeviceData_init_returned _ _ _ _ _ Hd0) as (Ht & _ & _).
      subst d. simpl. split; [exact Ht |].
      split; intros _; [apply DeviceType_eqb_eq; exact Et | discriminate].
    + destruct (DeviceData_init_returned _ _ _ _ _ Hinit) as (Ht & Hl & _).
      split; [exact Ht |]. rewrite Hl.
      split; intros Hx; [contradiction Hx; reflexivity |].
      apply DeviceType_eqb_eq in Hx. congruence.
  - intros t2 inv2. apply (find_device_by_serial_known _ _ _ k); [exact Hk |].
    subst w' dev. simpl. apply find_key_new. exact Hf.
Qed.

Lemma find_device_by_serial_round_trip_witness :
  let w := start_world (fun _ => 43200%Q) (fun _ _ => ConnectionError) in
  exists w',
    find_device_by_serial (JStr "R1") NSRB relay_record_123 w =
      (Returned (Some O), w') /\
    find_device_by_serial (JStr "R1") INVERTER JNull w' = (Returned (Some O), w').
Proof.
  intros w.
  assert (E : exists w', find_device_by_serial (JStr "R1") NSRB
                           relay_record_123 w = (Returned (Some O), w')).
  { eexists. vm_compute. reflexivity. }
  destruct E as (w' & E). exists w'. split; [exact E |].
  destruct (find_device_by_serial_round_trip (JStr "R1") NSRB relay_record_123
              (Py.KStr "R1") w O w') as (_ & _ & H);
    [vm_compute; reflexivity | vm_compute; reflexivity | exact E |].
  apply H.
Defined.

Lemma find_type_some t l i :
  find_type t l = Some i <->
  (exists k d, nth_error l i = Some (k, d) /\ type d = t) /\
  (forall j k d, (j < i)%nat -> nth_error l j = Some (k, d) -> type d <> t).
Proof.
  revert i. induction l as [| [k0 d0] l IH]; intros i; simpl.
  - split; [discriminate |]. intros [(k & d & H & _) _].
    destruct i; discriminate H.
  - destruct (DeviceType_eqb (type d0) t) eqn:E.
    + apply DeviceType_eqb_eq in E. split.
      * intros H. inversion H; subst i. split.
        -- exists k0, d0. split; [reflexivity | exact E].
        -- intros j k d Hj. lia.
      * intros [_ Hmin]. destruct i as [| i]; [reflexivity |].
        exfalso. apply (Hmin O k0 d0); [lia | reflexivity | exact E].
    + assert (Hne : type d0 <> t).
      { intros Hx. apply DeviceType_eqb_eq in Hx. congruence. }
      destruct (find_type t l) as [j |] eqn:F; simpl.
      * split.
        -- intros H. inversion H; subst i.
           destruct (proj1 (IH j) eq_refl) as [Hat Hmin]. split; [exact Hat |].
           intros [| j'] k d Hlt Hn; simpl in Hn.
           ++ inversion Hn; subst. exact Hne.
           ++ apply (Hmin j' k d); [lia | exact Hn].
        -- intros [(k & d & Hat & Ht) Hmin]. destruct i as [| i].
           ++ simpl in Hat. inversion Hat; subst. contradiction.
           ++ assert (Hi : Some j = Some i);
                [| inversion Hi; subst; reflexivity].
              apply IH. split; [exists k, d; split; assumption |].
              intros j' k' d' Hlt Hn. apply (Hmin (S j') k' d'); [lia | exact Hn].
      * split; [discriminate |].
        intros [(k & d & Hat & Ht) Hmin]. destruct i as [| i].
        -- simpl in Hat. inversion Hat; subst. contradiction.
        -- assert (Hi : None = Some i); [| discriminate Hi].
           apply IH. split; [exists k, d; split; assumption |].
           intros j' k' d' Hlt Hn. apply (Hmin (S j') k' d'); [lia | exact Hn].
Qed.

(** X7: [find_device_by_type] changes nothing; it returns the device that
    was registered first among those of the type, and [None] exactly when
    no registered device has the type. *)
Theorem find_device_by_type_first t w :
  snd (find_device_by_type t w) = w /\
  (forall i,
     fst (find_device_by_type t w) = Returned (Some i) <->
     (exists k d, nth_error (devices w) i = Some (k, d) /\ type d = t) /\
     (forall j k d, (j < i)%nat -> nth_error (devices w) j = Some (k, d) ->
                    type d <> t)) /\
  (fst (find_device_by_type t w) = Returned None <->
   forall i k d, nth_error (devices w) i = Some (k, d) -> type d <> t).
Proof.
  unfold find_device_by_type, gets. simpl. split; [reflexivity |]. split.
  - intros i. rewrite <- find_type_some.
    split; intros H; [inversion H; reflexivity | rewrite H; reflexivity].
  - split.
    + intros H i k d Hn Ht. inversion H as [Hnone].
      apply (proj1 (find_type_none_nth t (devices w)) Hnone i k d) in Hn.
      apply DeviceType_eqb_eq in Ht. congruence.
    + intros H. f_equal. apply find_type_none_nth. intros i k d Hn.
      destruct (DeviceType_eqb (type d) t) eqn:E; [| reflexivity].
      apply DeviceType_eqb_eq in E. exfalso. exact (H i k d Hn E).
Qed.

(** ** What holds of every registered device *)

Section PreservesAbove.

Variable R : world -> world -> Prop.
Hypothesis R_refl : forall w, R w w.
Hypothesis R_trans : forall a b c, R a b -> R b c -> R a c.
Hypothesis R_emit : forall c w, R w (set_sink (sink w ++ [c]) w).
Hypothesis R_tick : forall w, R w (set_ticks (S (ticks w)) w).
Hypothesis R_get : forall w, R w (set_requests_made (S (requests_made w)) w).
Hypothesis R_request : forall r f w,
  R w (set_request r (f (request_of r w)) w).
Hypothesis R_last : forall t w, R w (set_last_envoy_update_time t w).

(** the relation is respected by the processing of one device record *)
Hypothesis R_device : forall t inv, preserves R (convert_device t inv).

#[local] Hint Resolve preserves_ret preserves_raise preserves_lift
  preserves_gets preserves_emit preserves_gauge_set
  preserves_time_time preserves_requests_get
  preserves_response_json preserves_ProductionRequest_convert_data : frame.

Ltac frame_steps :=
  repeat first
    [ progress intros
    | solve [auto 1 with frame | eauto 3 with frame]
    | apply preserves_bind; try assumption
    | apply preserves_for_each; try assumption
    | match goal with
      | |- preserves _ (if ?b then _ else _) => destruct b
      | |- preserves _ (match ?x with _ => _ end) => destruct x
      end ].

Lemma above_convert_group tag t item : preserves R (convert_group tag t item).
Proof. unfold convert_group. frame_steps. Qed.

#[local] Hint Resolve above_convert_group : frame.

Lemma above_convert_inventory_item item :
  preserves R (convert_inventory_item item).
Proof. unfold convert_inventory_item. frame_steps. Qed.

#[local] Hint Resolve above_convert_inventory_item : frame.

Lemma above_convert_data r : preserves R (convert_data r).
Proof.
  destruct r; simpl.
  - unfold InventoryRequest_convert_data. frame_steps.
  - apply preserves_ProductionRequest_convert_data; assumption.
Qed.

#[local] Hint Resolve above_convert_data : frame.

Lemma above_update r : preserves R (update r).
Proof.
  unfold update, update_response.
  frame_steps; apply preserves_assign_request; assumption.
Qed.

#[local] Hint Resolve above_update : frame.

Lemma above_request_envoy_data : preserves R request_envoy_data.
Proof.
  unfold request_envoy_data. apply preserves_bind; try assumption.
  intros [|].
  - apply preserves_ret; assumption.
  - apply preserves_bind; try assumption.
    + unfold record_attempt. apply preserves_bind; assumption.
    + intros _. unfold fetch_both. frame_steps.
Qed.

Lemma above_calls n w : R w (calls n w).
Proof.
  revert w. induction n as [| n IH]; intros w; simpl.
  - apply R_refl.
  - apply R_trans with (snd (request_envoy_data w));
      [apply above_request_envoy_data | apply IH].
Qed.

End PreservesAbove.

Lemma Forall_update_at (P : Py.key * DeviceData -> Prop) i f l :
  (forall k d, P (k, d) -> P (k, f d)) ->
  Forall P l -> Forall P (update_at i f l).
Proof.
  intros Hf H. revert i. induction H as [| [k d] l Hx Hl IH]; intros [| i];
    simpl; constructor; auto.
Qed.

Lemma well_filed_fixed k d d' :
  fixed_attributes d' = fixed_attributes d ->
  well_filed (k, d) -> well_filed (k, d').
Proof.
  unfold fixed_attributes, well_filed. simpl. intros H [H1 H2].
  inversion H as [[Ht Hs Hp Hi Hn Hl]]. rewrite Ht, Hs, Hl.
  split; assumption.
Qed.

Lemma find_device_by_serial_unfiled serial t inv k w :
  Py.hash serial = Returned k ->
  find_key k (devices w) = None ->
  find_device_by_serial serial t inv w =
    match inv with
    | JNull => (Returned None, w)
    | _ => file_new k (if DeviceType_eqb t NSRB
                       then RelayDevice_init t inv
                       else DeviceData_init t inv) w
    end.
Proof.
  intros Hk Hf. unfold find_device_by_serial, file_new, bind, lift, gets, ret.
  rewrite Hk, Hf. destruct inv; reflexivity.
Qed.

Lemma file_new_outcomes k (m : M DeviceData) (P : DeviceData -> Prop) w :
  find_key k (devices w) = None ->
  devices (snd (m w)) = devices w ->
  (forall d w1, m w = (Returned d, w1) -> P d) ->
  devices (snd (file_new k m w)) = devices w \/
  exists d, devices (snd (file_new k m w)) = devices w ++ [(k, d)] /\ P d.
Proof.
  intros Hf Hd HP. unfold file_new, bind, modify, gets.
  destruct (m w) as [[d | e] w1]; simpl in *.
  - right. exists d. rewrite Hd, (dict_set_new k d _ Hf).
    split; [reflexivity | apply (HP d w1); reflexivity].
  - left. exact Hd.
Qed.

(** what a device is like that a constructor has built for the type [t] *)
Lemma constructed_device t inv w d w1 :
  (if DeviceType_eqb t NSRB then RelayDevice_init t inv
   else DeviceData_init t inv) w = (Returned d, w1) ->
  type d = t /\ (line_connected d <> None <-> t = NSRB) /\
  Py.getitem inv "serial_num" = Returned (serial_num d).
Proof.
  destruct (DeviceType_eqb t NSRB) eqn:Et; intros Hinit.
  - apply RelayDevice_init_returned in Hinit.
    destruct Hinit as (o & d0 & w0 & _ & Hd0 & Hd).
    destruct (DeviceData_init_returned _ _ _ _ _ Hd0) as (Ht & _ & Hs).
    subst d. simpl. split; [exact Ht |]. split; [| exact Hs].
    split; intros _; [apply DeviceType_eqb_eq; exact Et | discriminate].
  - destruct (DeviceData_init_returned _ _ _ _ _ Hinit) as (Ht & Hl & Hs).
    split; [exact Ht |]. split; [| exact Hs]. rewrite Hl.
    split; intros Hx; [contradiction Hx; reflexivity |].
    apply DeviceType_eqb_eq in Hx. congruence.
Qed.

Lemma constructor_devices t inv w :
  devices (snd ((if DeviceType_eqb t NSRB then RelayDevice_init t inv
                 else DeviceData_init t inv) w)) = devices w.
Proof.
  destruct (DeviceType_eqb t NSRB);
    [apply RelayDevice_init_devices | apply DeviceData_init_devices].
Qed.

(** processing a record keeps every entry well filed *)
Lemma convert_device_well_filed t inv w :
  Forall well_filed (devices w) ->
  Forall well_filed (devices (snd (convert_device t inv w))).
Proof.
  intros Hwf.
  assert (Hupd : forall self w1,
            Forall well_filed (devices w1) ->
            Forall well_filed
              (devices (snd (update_inventory_data self inv w1)))).
  { intros self w1 H1.
    destruct (update_inventory_data_devices self inv w1) as (f & Hf & Hfix).
    rewrite Hf. apply Forall_update_at; [| exact H1].
    intros k d. apply well_filed_fixed, Hfix. }
  unfold convert_device, bind at 1, lift at 1.
  destruct (Py.getitem inv "serial_num") as [serial | e] eqn:Hs;
    [| exact Hwf].
  unfold bind.
  destruct (Py.hash serial) as [k | e] eqn:Hk.
  2:{ unfold find_device_by_serial, bind, lift. rewrite Hk. exact Hwf. }
  destruct (find_key k (devices w)) as [i |] eqn:Hf.
  - rewrite (find_device_by_serial_known _ t inv _ _ _ Hk Hf).
    apply Hupd. exact Hwf.
  - rewrite (find_device_by_serial_unfiled _ t inv _ _ Hk Hf).
    destruct inv as [| | | | | o]; try discriminate Hs.
    destruct (file_new_outcomes k
                (if DeviceType_eqb t NSRB then RelayDevice_init t (JObj o)
                 else DeviceData_init t (JObj o))
                (fun d => type d = t /\ (line_connected d <> None <-> t = NSRB)
                          /\ Py.getitem (JObj o) "serial_num" =
                             Returned (serial_num d))
                w Hf (constructor_devices t (JObj o) w)
                (fun d w1 => constructed_device t (JObj o) w d w1))
      as [Hsame | (d & Hnew & Ht & Hl & Hser)].
    + destruct (file_new k _ w) as [[[self |] | e] w1]; simpl in *.
      * apply Hupd. rewrite Hsame. exact Hwf.
      * rewrite Hsame. exact Hwf.
      * rewrite Hsame. exact Hwf.
    + assert (Hwf1 : Forall well_filed (devices w ++ [(k, d)])).
      { apply Forall_app. split; [exact Hwf |]. constructor; [| constructor].
        split; simpl.
        - rewrite Hs in Hser. inversion Hser; subst. exact Hk.
        - rewrite Ht. exact Hl. }
      destruct (file_new k _ w) as [[[self |] | e] w1]; simpl in *.
      * apply Hupd. rewrite Hnew. exact Hwf1.
      * rewrite Hnew. exact Hwf1.
      * rewrite Hnew. exact Hwf1.
Qed.

(** over any number of requests every entry stays well filed *)
Lemma calls_well_filed n w :
  Forall well_filed (devices w) -> Forall well_filed (devices (calls n w)).
Proof.
  apply (above_calls
           (fun a b => Forall well_filed (devices a) ->
                       Forall well_filed (devices b)));
    try (intros; simpl; assumption).
  - intros a b c H1 H2 H. apply H2, H1, H.
  - intros r f a. destruct r; simpl; intros H; exact H.
  - intros t inv a. apply convert_device_well_filed.
Qed.

(** X8: every entry the registry ever holds is filed under the serial of
    its device, and is a relay object (has a line layout) exactly when its
    type is NSRB; so the device that [find_device_by_type(NSRB)] returns is
    always a [RelayDevice], filed under its own serial. *)
Theorem registry_stays_well_filed n w :
  Forall well_filed (devices w) ->
  Forall well_filed (devices (calls n w)) /\
  forall i,
    fst (find_device_by_type NSRB (calls n w)) = Returned (Some i) ->
    exists k d lines,
      nth_error (devices (calls n w)) i = Some (k, d) /\
      line_connected d = Some lines /\
      Py.hash (serial_num d) = Returned k.
Proof.
  intros Hw. pose proof (calls_well_filed n w Hw) as Hall.
  split; [exact Hall |].
  intros i Hi. unfold find_device_by_type, gets in Hi. simpl in Hi.
  inversion Hi as [Hfound]. apply find_type_some in Hfound.
  destruct Hfound as [(k & d & Hat & Ht) _].
  rewrite Forall_forall in Hall.
  destruct (Hall (k, d) (nth_error_In _ _ Hat)) as [Hk Hl]. simpl in Hk, Hl.
  destruct (line_connected d) as [lines |] eqn:El.
  - exists k, d, lines. repeat split; assumption.
  - exfalso. apply (proj2 Hl Ht). reflexivity.
Qed.

Lemma registry_stays_well_filed_witness :
  let w := start_world minute_clock envoy_steady in
  Forall well_filed (devices w) /\
  Forall well_filed (devices (calls 2 w)).
Proof.
  intros w.
  assert (Hw : Forall well_filed (devices w)) by constructor.
  split; [exact Hw |].
  exact (proj1 (registry_stays_well_filed 2 w Hw)).
Defined.

(** ** One poll of one resource *)

Section PreservesPoll.

Variable R : world -> world -> Prop.
Variable r : resource.
Hypothesis R_refl : forall w, R w w.
Hypothesis R_trans : forall a b c, R a b -> R b c -> R a c.
Hypothesis R_emit : forall c w, R w (set_sink (sink w ++ [c]) w).
Hypothesis R_tick : forall w, R w (set_ticks (S (ticks w)) w).
Hypothesis R_get : forall w, R w (set_requests_made (S (requests_made w)) w).
Hypothesis R_own : forall f w, R w (set_request r (f (request_of r w)) w).
Hypothesis R_convert : preserves R (convert_data r).

Lemma poll_assign_request f : preserves R (assign_request r f).
Proof. intros w. apply R_own. Qed.

#[local] Hint Resolve preserves_ret preserves_raise preserves_lift
  preserves_gets preserves_emit preserves_gauge_set
  preserves_time_time preserves_requests_get
  preserves_response_json poll_assign_request : frame.

Ltac frame_steps :=
  repeat first
    [ progress intros
    | solve [auto 1 with frame | eauto 3 with frame]
    | apply preserves_bind; try assumption
    | match goal with
      | |- preserves _ (if ?b then _ else _) => destruct b
      | |- preserves _ (match ?x with _ => _ end) => destruct x
      end ].

Lemma poll_update : preserves R (update r).
Proof. unfold update, update_response. frame_steps. Qed.

End PreservesPoll.

(** X9: a poll of one resource leaves the request object of the other
    resource and the recorded attempt alone and sends exactly one request;
    a poll of the production data never changes the registry, whatever the
    appliance answers. *)
Theorem update_touches_own_resource w :
  production_data (snd (update Inventory w)) = production_data w /\
  inventory_data (snd (update Production w)) = inventory_data w /\
  devices (snd (update Production w)) = devices w /\
  forall r,
    last_envoy_update_time (snd (update r w)) = last_envoy_update_time w /\
    requests_made (snd (update r w)) = S (requests_made w).
Proof.
  split; [| split; [| split]].
  - apply (poll_update (fun a b => production_data b = production_data a)
             Inventory); try (intros; simpl; congruence).
    intros a. apply (convert_data_keeps_requests Inventory a).
  - apply (poll_update (fun a b => inventory_data b = inventory_data a)
             Production); try (intros; simpl; congruence).
    intros a. apply (convert_data_keeps_requests Production a).
  - apply (poll_update (fun a b => devices b = devices a) Production);
      try (intros; simpl; congruence).
    apply (preserves_ProductionRequest_convert_data
             (fun a b => devices b = devices a));
      intros; simpl; congruence.
  - intros r. split.
    + apply (update_keeps_throttle r w).
    + apply update_requests_made.
Qed.

Lemma counter_kept_refl r w : counter_kept r w w.
Proof. split; [reflexivity | exists []; rewrite app_nil_r; reflexivity]. Qed.

Lemma counter_kept_trans r a b c :
  counter_kept r a b -> counter_kept r b c -> counter_kept r a c.
Proof.
  intros [H1 [l1 S1]] [H2 [l2 S2]]. split; [congruence |].
  exists (l1 ++ l2). rewrite S2, S1, app_assoc. reflexivity.
Qed.

Lemma counter_kept_frame r (f : world -> world) :
  (forall w, failed_request_count (request_of r (f w)) =
             failed_request_count (request_of r w)) ->
  (forall w, sink (f w) = sink w) ->
  forall w, counter_kept r w (f w).
Proof.
  intros H1 H2 w. split; [apply H1 |].
  exists []. rewrite app_nil_r. apply H2.
Qed.

Lemma counter_kept_convert_data r : preserves (counter_kept r) (convert_data r).
Proof.
  intros a. split.
  - destruct (convert_data_keeps_requests r a) as [Hi Hp].
    destruct r; [exact (f_equal failed_request_count Hi)
                | exact (f_equal failed_request_count Hp)].
  - apply (preserves_convert_data (fun a b => exists l, sink b = sink a ++ l)).
    + intros x. exists []. rewrite app_nil_r. reflexivity.
    + intros x y z [l1 H1] [l2 H2]. exists (l1 ++ l2).
      rewrite H2, H1, app_assoc. reflexivity.
    + intros c x. exists [c]. reflexivity.
    + intros self v x. exists []. simpl. rewrite app_nil_r. reflexivity.
    + intros self v x. exists []. simpl. rewrite app_nil_r. reflexivity.
    + intros k d x _. exists []. simpl. rewrite app_nil_r. reflexivity.
Qed.

Lemma counter_kept_assign r (f : EnvoyRequest -> EnvoyRequest) :
  (forall x, failed_request_count (f x) = failed_request_count x) ->
  preserves (counter_kept r) (assign_request r f).
Proof.
  intros Hf w. unfold assign_request, modify. simpl.
  apply (counter_kept_frame r (fun w => set_request r (f (request_of r w)) w)).
  - intros a. destruct r; simpl; apply Hf.
  - intros a. destruct r; reflexivity.
Qed.

Lemma update_response_counter r start response w :
  let w' := snd (update_response r start response w) in
  let n := match response with
           | ConnectionError => failed_request_count (request_of r w) + 1
           | Response _ _ _ => 0
           end in
  failed_request_count (request_of r w') = n /\
  exists rest,
    sink w' = sink w ++
      GaugeSet (my_failed_request_exporter r) (JNum (inject_Z n)) :: rest.
Proof.
  destruct response as [| code text parsed]; cbv zeta.
  - unfold update_response, bind, assign_request, modify, gets, gauge_set, emit.
    destruct r; simpl; (split; [reflexivity | exists []; reflexivity]).
  - remember (snd (update_response r start (Response code text parsed) w))
      as w' eqn:E.
    unfold update_response in E.
    unfold bind at 1, assign_request at 1, modify at 1 in E.
    unfold bind at 1, gets at 1 in E.
    unfold bind at 1 in E.
    match type of E with
    | context [gauge_set ?m ?v ?a] =>
        replace (gauge_set m v a)
          with (Returned tt, set_sink (sink a ++ [GaugeSet m v]) a) in E
          by (destruct r; reflexivity)
    end.
    cbv beta iota zeta in E.
    match type of E with
    | _ = snd (bind ?m ?k ?a) =>
        assert (Ht : counter_kept r a (snd (bind m k a)))
    end.
    { apply preserves_bind; [apply counter_kept_trans | |].
      - apply preserves_time_time. intros a.
        apply (counter_kept_frame r (fun w => set_ticks (S (ticks w)) w));
          intros x; destruct r; reflexivity.
      - intros request_end. destruct (negb (code =? 200)).
        + apply preserves_ret, counter_kept_refl.
        + repeat first
            [ apply counter_kept_convert_data
            | apply counter_kept_assign; intros x; reflexivity
            | apply preserves_response_json, counter_kept_refl
            | apply preserves_bind; [apply counter_kept_trans | |]
            | intros ? ]. }
    rewrite <- E in Ht. destruct Ht as [Hc [l Hl]]. rewrite Hc, Hl.
    destruct r; simpl;
      (split; [reflexivity | exists l; rewrite <- app_assoc; reflexivity]).
Qed.

(** X10: the failure counter follows the transport only.  After a poll it
    is the old count plus one when [requests.get] raised and zero as soon as
    a response arrived, whatever its status and body; the failure gauge is
    the first thing the poll writes and carries that value. *)
Theorem update_counter_follows_transport r w :
  let w' := snd (update r w) in
  let n := match appliance w (requests_made w) (request_address r) with
           | ConnectionError => failed_request_count (request_of r w) + 1
           | Response _ _ _ => 0
           end in
  failed_request_count (request_of r w') = n /\
  exists rest,
    sink w' = sink w ++
      GaugeSet (my_failed_request_exporter r) (JNum (inject_Z n)) :: rest.
Proof.
  unfold update, bind, time_time, requests_get. cbv beta iota zeta.
  match goal with
  | |- context [update_response r ?s ?resp ?a] =>
      pose proof (update_response_counter r s resp a) as H
  end.
  cbv zeta in H. simpl appliance in H. simpl requests_made in H.
  destruct r; exact H.
Qed.

(** ** One fetch cycle *)

Lemma fetch_both_unfold w :
  fetch_both w =
  match update Inventory (set_ticks (S (ticks w)) w) with
  | (Raised e, w1) => (Raised e, w1)
  | (Returned _, w1) =>
      match update Production w1 with
      | (Raised e, w2) => (Raised e, w2)
      | (Returned _, w2) =>
          gauge_set envoy_data_request_duration_seconds
            (JNum (time_at w2 (ticks w2) - time_at w (ticks w))%Q)
            (set_ticks (S (ticks w2)) w2)
      end
  end.
Proof.
  unfold fetch_both, bind, time_time. simpl.
  destruct (update Inventory _) as [[[] | e] w1];
    [destruct (update Production w1) as [[[] | e] w2] |]; reflexivity.
Qed.

Lemma fetch_both_requests w :
  let w' := snd (fetch_both w) in
  match fst (update Inventory (set_ticks (S (ticks w)) w)) with
  | Returned _ => requests_made w' = S (S (requests_made w))
  | Raised e =>
      requests_made w' = S (requests_made w) /\
      fst (fetch_both w) = Raised e
  end.
Proof.
  cbv zeta. rewrite fetch_both_unfold.
  pose proof (update_requests_made Inventory (set_ticks (S (ticks w)) w)) as H1.
  destruct (update Inventory (set_ticks (S (ticks w)) w)) as [[[] | e] w1];
    simpl in H1; simpl fst.
  - pose proof (update_requests_made Production w1) as H2.
    destruct (update Production w1) as [[[] | e] w2]; simpl in H2.
    + unfold gauge_set, bind, emit. simpl. congruence.
    + simpl. congruence.
  - simpl. split; [congruence | reflexivity].
Qed.


Lemma request_envoy_data_spacing w :
  never_runs_back (time_at w) ->
  let w1 := snd (request_envoy_data w) in
  time_at w1 = time_at w /\
  (last_envoy_update_time w1 = last_envoy_update_time w \/
   (last_envoy_update_time w + envoy_minimum_interval_seconds
    <= last_envoy_update_time w1)%Q).
Proof.
  intros Hclock. cbv zeta.
  destruct (Qle_bool (last_envoy_update_time w + envoy_minimum_interval_seconds)
                     (time_at w (ticks w))) eqn:E.
  - rewrite (request_envoy_data_open w E).
    destruct (fetch_both_keeps_throttle (attempt_recorded w))
      as (Hl & Ht & _).
    rewrite Hl, Ht. split; [reflexivity |]. right.
    apply Qle_bool_iff in E. simpl.
    apply Qle_trans with (time_at w (ticks w)); [exact E |].
    apply Hclock. apply le_S, le_n.
  - rewrite (request_envoy_data_closed w E). simpl.
    split; [reflexivity | left; reflexivity].
Qed.

Lemma interval_positive : (0 <= envoy_minimum_interval_seconds)%Q.
Proof. unfold envoy_minimum_interval_seconds. discriminate. Qed.

(** X12: on a clock that never runs back, the recorded attempt is either
    left as it was or moved forward by at least the minimum interval,
    over any number of calls: two recorded attempts are never closer than
    [envoy_minimum_interval_seconds]. *)
Theorem attempts_are_spaced n w :
  never_runs_back (time_at w) ->
  last_envoy_update_time (calls n w) = last_envoy_update_time w \/
  (last_envoy_update_time w + envoy_minimum_interval_seconds
   <= last_envoy_update_time (calls n w))%Q.
Proof.
  revert w. induction n as [| n IH]; intros w Hclock; simpl.
  - left. reflexivity.
  - destruct (request_envoy_data_spacing w Hclock) as [Ht Hstep].
    cbv zeta in Ht, Hstep.
    assert (Hclock1 : never_runs_back (time_at (snd (request_envoy_data w))))
      by (rewrite Ht; exact Hclock).
    destruct (IH _ Hclock1) as [Hsame | Hlater];
      destruct Hstep as [Hsame1 | Hlater1].
    + left. congruence.
    + right. rewrite Hsame. exact Hlater1.
    + right. rewrite <- Hsame1. exact Hlater.
    + right. pose proof interval_positive as Hpos.
      apply Qle_trans with (last_envoy_update_time (snd (request_envoy_data w)));
        [exact Hlater1 |].
      apply Qle_trans with
        (last_envoy_update_time (snd (request_envoy_data w))
         + envoy_minimum_interval_seconds)%Q; [| exact Hlater].
      rewrite <- (Qplus_0_r (last_envoy_update_time (snd (request_envoy_data w))))
        at 1.
      apply Qplus_le_r. exact Hpos.
Qed.

Lemma attempts_are_spaced_witness :
  let w := start_world minute_clock envoy_steady in
  never_runs_back (time_at w) /\
  (last_envoy_update_time w + envoy_minimum_interval_seconds
   <= last_envoy_update_time (calls 2 w))%Q.
Proof.
  intros w.
  assert (Hclock : never_runs_back (time_at w)).
  { intros i j Hij. unfold w, start_world. cbn [time_at].
    unfold minute_clock. rewrite <- Zle_Qle. lia. }
  split; [exact Hclock |].
  destruct (attempts_are_spaced 2 w Hclock) as [H | H].
  - exfalso. revert H. vm_compute. discriminate.
  - exact H.
Defined.

(** ** Threads served in turn *)

Lemma serial_threads_from m :
  forall done w,
    run (flat_map (fun i => [i; i; i]) (seq (List.length done) m))
        (done ++ repeat AtCheck m, w) =
      (done ++ endings m w, calls m w).
Proof.
  induction m as [| m IH]; intros done w.
  - reflexivity.
  - change (flat_map (fun i => [i; i; i]) (seq (List.length done) (S m)))
      with ([List.length done; List.length done; List.length done] ++
            flat_map (fun i => [i; i; i]) (seq (S (List.length done)) m)).
    rewrite run_app. simpl repeat.
    assert (Hone : run [List.length done; List.length done; List.length done]
                     (done ++ AtCheck :: repeat AtCheck m, w) =
                   (done ++ Done (throttle_open w) :: repeat AtCheck m,
                    snd (request_envoy_data w))).
    { unfold throttle_open.
      destruct (Qle_bool (last_envoy_update_time w
                          + envoy_minimum_interval_seconds)
                         (time_at w (ticks w))) eqn:E.
      - rewrite (thread_alone_open _ w _ (nth_error_middle done _ AtCheck) E).
        rewrite set_nth_middle. reflexivity.
      - rewrite (thread_alone_closed _ w _ (nth_error_middle done _ AtCheck) E).
        rewrite set_nth_middle. reflexivity. }
    rewrite Hone.
    pose proof (IH (done ++ [Done (throttle_open w)])
                   (snd (request_envoy_data w))) as Hrun.
    rewrite length_app, Nat.add_1_r, <- app_assoc in Hrun. simpl in Hrun.
    rewrite Hrun, <- app_assoc. reflexivity.
Qed.


(** ** The request handler *)

Lemma request_envoy_data_sends w :
  requests_made (snd (request_envoy_data w)) <> requests_made w <->
  throttle_open w = true.
Proof.
  unfold throttle_open.
  destruct (Qle_bool (last_envoy_update_time w + envoy_minimum_interval_seconds)
                     (time_at w (ticks w))) eqn:E.
  - rewrite (request_envoy_data_open w E).
    pose proof (fetch_both_requests_made (attempt_recorded w)) as H.
    change (requests_made (attempt_recorded w)) with (requests_made w) in H.
    split; [reflexivity | intros _; lia].
  - rewrite (request_envoy_data_closed w E). simpl.
    split; [intros H; contradiction H; reflexivity | discriminate].
Qed.

Lemma do_GET_refreshing path w :
  refreshes path = true ->
  do_GET path w =
  match request_envoy_data (set_ticks (S (ticks w)) w) with
  | (Raised e, w2) => (Raised e, w2)
  | (Returned _, w2) =>
      (Returned
         (if String.eqb path "/metrics" then Metrics (sink w2)
          else if String.eqb path "/last_inventory"
               then last_data_of Inventory w2
               else last_data_of Production w2),
       set_ticks (S (ticks w2)) w2)
  end.
Proof.
  unfold refreshes, do_GET, do_last_data, last_data_of. intros H.
  destruct (String.eqb path "/") eqn:E0.
  { apply String.eqb_eq in E0. subst path. discriminate H. }
  unfold bind, time_time, gets, ret. simpl.
  destruct (String.eqb path "/metrics") eqn:E1.
  - destruct (request_envoy_data _) as [[[] | e] w2]; reflexivity.
  - simpl in H. rewrite H.
    destruct (request_envoy_data _) as [[[] | e] w2]; [| reflexivity].
    destruct (String.eqb path "/last_inventory"); reflexivity.
Qed.

Lemma do_GET_plain path w :
  refreshes path = false ->
  do_GET path w =
  (Returned (if String.eqb path "/"
             then Homepage (filter (is_type NSRB) (map snd (devices w)))
                           (filter (is_type INVERTER) (map snd (devices w)))
             else NotFound),
   set_ticks (S (S (ticks w))) w).
Proof.
  unfold refreshes, do_GET, do_homepage. intros H.
  apply orb_false_elim in H. destruct H as [H H3].
  apply orb_false_elim in H. destruct H as [H1 H2].
  rewrite H1, H2, H3.
  unfold bind, time_time, gets, ret. simpl.
  destruct (String.eqb path "/"); reflexivity.
Qed.

(** X14: a GET contacts the appliance exactly when its path is /metrics,
    /last_inventory or /last_production and the throttle is open at the
    clock reading that follows the one [do_GET] takes itself; for every
    other path the state is only two clock readings older, the homepage
    lists the registered relays and inverters and any other path is
    answered by not-found. *)
Theorem do_GET_contacts_appliance path w :
  (requests_made (snd (do_GET path w)) <> requests_made w <->
   refreshes path = true /\
   throttle_open (set_ticks (S (ticks w)) w) = true) /\
  (refreshes path = true \/
   (snd (do_GET path w) = set_ticks (S (S (ticks w))) w /\
    fst (do_GET path w) =
      Returned (if String.eqb path "/"
                then Homepage (filter (is_type NSRB) (map snd (devices w)))
                       (filter (is_type INVERTER) (map snd (devices w)))
                else NotFound))).
Proof.
  destruct (refreshes path) eqn:E.
  - split; [| left; reflexivity].
    rewrite (do_GET_refreshing path w E).
    pose proof (request_envoy_data_sends (set_ticks (S (ticks w)) w)) as H.
    destruct (request_envoy_data (set_ticks (S (ticks w)) w))
      as [[[] | e] w2]; simpl in *; rewrite <- H; tauto.
  - rewrite (do_GET_plain path w E). simpl.
    split; [| right; split; reflexivity].
    split; [intros H; contradiction H; reflexivity | intros [H _]; discriminate H].
Qed.

(** X15: a page requested while the throttle is closed is made from what
    is stored: the request object as the last poll left it, or the metrics
    as they are, and nothing but three clock readings changes. *)
Theorem page_within_interval_is_stored w :
  throttle_open (set_ticks (S (ticks w)) w) = false ->
  do_GET "/last_inventory" w =
    (Returned (last_data_of Inventory w), set_ticks (S (S (S (ticks w)))) w) /\
  do_GET "/last_production" w =
    (Returned (last_data_of Production w), set_ticks (S (S (S (ticks w)))) w) /\
  do_GET "/metrics" w =
    (Returned (Metrics (sink w)), set_ticks (S (S (S (ticks w)))) w).
Proof.
  intros H. unfold throttle_open in H.
  repeat split;
    (rewrite do_GET_refreshing by reflexivity;
     rewrite (request_envoy_data_closed _ H); reflexivity).
Qed.

Lemma page_within_interval_is_stored_witness :
  let w := calls 1 (start_world (fun _ => 43200%Q) envoy_steady) in
  throttle_open (set_ticks (S (ticks w)) w) = false /\
  fst (do_GET "/last_inventory" w) = Returned (last_data_of Inventory w) /\
  requests_made (snd (do_GET "/last_inventory" w)) = 2%nat.
Proof.
  intros w.
  assert (H : throttle_open (set_ticks (S (ticks w)) w) = false)
    by (vm_compute; reflexivity).
  split; [exact H |].
  destruct (page_within_interval_is_stored w H) as (Hi & _).
  rewrite Hi. split; [reflexivity | vm_compute; reflexivity].
Defined.

(** ** Items the converters pass over *)

Lemma eqb_other_tag t tag : t <> JStr tag -> Py.eqb t (JStr tag) = false.
Proof.
  destruct t as [| b | q | s | l | o]; simpl; try reflexivity.
  intros H. apply String.eqb_neq. intros Hs. apply H. rewrite Hs. reflexivity.
Qed.

(** X16: an item without the key type, or whose type is none of the tags
    PCU, ACB, NSRB, inverters and eim, is skipped by both converters: they
    return and nothing is written, registered or changed. *)
Theorem items_of_other_types_are_skipped item dir w :
  Py.contains "type" item = Returned false \/
  (Py.contains "type" item = Returned true /\
   exists t, Py.getitem item "type" = Returned t /\
             forall tag, In tag known_tags -> t <> JStr tag) ->
  convert_inventory_item item w = (Returned tt, w) /\
  convert_production_item dir item w = (Returned tt, w).
Proof.
  unfold convert_inventory_item, convert_production_item, convert_group.
  intros [Hno | (Hyes & t & Ht & Htags)].
  - unfold bind, lift. rewrite Hno. split; reflexivity.
  - unfold bind, lift, ret. rewrite Hyes, Ht. simpl negb. cbv iota.
    rewrite !eqb_other_tag by (apply Htags; simpl; tauto).
    split; reflexivity.
Qed.

Lemma items_of_other_types_are_skipped_witness :
  let item := JObj [("type", JStr "meter"); ("devices", JNull)] in
  let w := world_with_inverter in
  convert_inventory_item item w = (Returned tt, w) /\
  convert_production_item production item w = (Returned tt, w).
Proof.
  intros item w. apply items_of_other_types_are_skipped.
  right. split; [vm_compute; reflexivity |].
  exists (JStr "meter"). split; [vm_compute; reflexivity |].
  intros tag Hin Heq. inversion Heq as [Htag]. subst tag.
  simpl in Hin. repeat (destruct Hin as [Hin | Hin]; [discriminate Hin |]).
  exact Hin.
Defined.

(** ** Edges of the two updates of a device *)

Lemma update_production_lines_idle d lines dir item n :
  forall s w,
    (forall i, (s <= i < s + n)%nat -> nth i lines false = false) ->
    for_each (seq s n) (update_production_line d lines dir item) w =
      (Returned tt, w).
Proof.
  induction n as [| n IH]; intros s w H; simpl; [reflexivity |].
  unfold bind, update_production_line at 1.
  rewrite (H s) by lia. unfold ret at 1.
  apply IH. intros i Hi. apply H. lia.
Qed.

Lemma update_production_lines_unreadable d lines dir item e n :
  Py.getitem item "lines" = Raised e ->
  forall s w,
    (exists i, (s <= i < s + n)%nat /\ nth i lines false = true) ->
    for_each (seq s n) (update_production_line d lines dir item) w =
      (Raised e, w).
Proof.
  intros He. induction n as [| n IH]; intros s w (i & Hi & Hc); [lia |].
  simpl. unfold bind, update_production_line at 1.
  destruct (nth s lines false) eqn:Es.
  - unfold bind, lift. rewrite He. reflexivity.
  - unfold ret at 1. apply IH. exists i. split; [| exact Hc].
    destruct (Nat.eq_dec i s) as [-> | Hne]; [congruence | lia].
Qed.

(** X17: [update_production_data] looks at the item only for a connected
    line.  On a relay none of whose lines is connected it returns without
    reading the item and without writing; as soon as one line is connected,
    an item whose lines cannot be read raises before anything is written. *)
Theorem update_production_data_reads_item_lazily self dir item k d lines w :
  nth_error (devices w) self = Some (k, d) ->
  line_connected d = Some lines ->
  (existsb (fun b => b) lines = false ->
   update_production_data self dir item w = (Returned tt, w)) /\
  (forall e,
     existsb (fun b => b) lines = true ->
     Py.getitem item "lines" = Raised e ->
     update_production_data self dir item w = (Raised e, w)).
Proof.
  intros Hself Hlines.
  assert (Hupd : update_production_data self dir item w =
                 for_each (seq 0 (List.length lines))
                   (update_production_line d lines dir item) w).
  { unfold update_production_data, bind, get_device.
    rewrite Hself, Hlines. reflexivity. }
  rewrite Hupd. split.
  - intros Hnone. apply update_production_lines_idle. intros i Hi.
    destruct (nth i lines false) eqn:Ei; [| reflexivity].
    assert (Hin : In true lines).
    { rewrite <- Ei. apply nth_In. lia. }
    assert (Hex : existsb (fun b => b) lines = true).
    { apply existsb_exists. exists true. split; [exact Hin | reflexivity]. }
    congruence.
  - intros e Hsome He. apply update_production_lines_unreadable; [exact He |].
    apply existsb_exists in Hsome. destruct Hsome as (b & Hin & Hb). subst b.
    destruct (In_nth _ _ false Hin) as (i & Hi & Hnth).
    exists i. split; [lia | exact Hnth].
Qed.

Lemma update_production_data_reads_item_lazily_witness :
  update_production_data O production JNull world_with_relay =
    (Raised TypeError, world_with_relay).
Proof.
  remember (nth_error (devices world_with_relay) O) as o eqn:E.
  assert (Hsome : match o with
                  | Some (_, d) => line_connected d = Some [true; false; true]
                  | None => False
                  end) by (subst o; vm_compute; reflexivity).
  destruct o as [[k d] |]; [| contradiction].
  destruct (update_production_data_reads_item_lazily
              O production JNull k d [true; false; true] world_with_relay
              (eq_sym E) Hsome) as [_ H].
  apply (H TypeError); vm_compute; reflexivity.
Defined.

(** X18: when the new [img_load_date] cannot be read by [int], the update
    raises after it has stored the new value and before it writes
    anything; the next update with the same record then sees no difference,
    goes straight to the health flags and publishes no metadata: the date
    text of the device stays the one of the old image. *)
Theorem unreadable_image_date_is_reported_once self inv w k d incoming e :
  nth_error (devices w) self = Some (k, d) ->
  Py.getitem inv "img_load_date" = Returned incoming ->
  Py.eqb (image_loaded_date d) incoming = false ->
  Py.eqb incoming incoming = true ->
  Py.int incoming = Raised e ->
  let w1 := snd (update_inventory_data self inv w) in
  let d1 := with_image_loaded_date d incoming in
  fst (update_inventory_data self inv w) = Raised e /\
  sink w1 = sink w /\
  nth_error (devices w1) self = Some (k, d1) /\
  image_loaded_date_date d1 = image_loaded_date_date d /\
  update_inventory_data self inv w1 = publish_health d1 inv w1 /\
  metadata_writes (sink (snd (update_inventory_data self inv w1))) =
    metadata_writes (sink w).
Proof.
  intros Hself Hget Hdiff Hrefl Hint. cbv zeta.
  rewrite (update_inventory_data_unreadable self inv w k d incoming e
             Hself Hget Hdiff Hint).
  simpl fst. simpl snd.
  set (w1 := set_devices
               (update_at self (fun d => with_image_loaded_date d incoming)
                  (devices w)) w).
  assert (Hself1 : nth_error (devices w1) self =
                   Some (k, with_image_loaded_date d incoming)).
  { unfold w1. simpl.
    exact (update_at_nth_error self
             (fun d => with_image_loaded_date d incoming) _ k d Hself). }
  assert (Hsame : update_inventory_data self inv w1 =
                  publish_health (with_image_loaded_date d incoming) inv w1).
  { apply (update_inventory_data_same self inv w1 k _ incoming Hself1 Hget).
    exact Hrefl. }
  repeat split; try assumption.
  rewrite Hsame.
  destruct (publish_health_frame (with_image_loaded_date d incoming) inv w1)
    as [Hm _].
  rewrite Hm. reflexivity.
Qed.

Lemma unreadable_image_date_is_reported_once_witness :
  let w := world_with_inverter in
  let w1 := snd (update_inventory_data O inverter_record_unreadable w) in
  fst (update_inventory_data O inverter_record_unreadable w) = Raised ValueError /\
  fst (update_inventory_data O inverter_record_unreadable w1) = Returned tt /\
  metadata_writes (sink (snd (update_inventory_data O inverter_record_unreadable w1))) =
    metadata_writes (sink w).
Proof.
  intros w w1.
  remember (nth_error (devices w) O) as o eqn:E.
  assert (Hsome : match o with
                  | Some (_, d) =>
                      Py.eqb (image_loaded_date d) (JStr "soon") = false
                  | None => False
                  end) by (subst o; vm_compute; reflexivity).
  destruct o as [[k d] |]; [| contradiction].
  destruct (unreadable_image_date_is_reported_once
              O inverter_record_unreadable w k d (JStr "soon") ValueError
              (eq_sym E)) as (H1 & _ & _ & _ & _ & H6);
    [vm_compute; reflexivity | exact Hsome | vm_compute; reflexivity
     | vm_compute; reflexivity |].
  split; [exact H1 |]. split; [vm_compute; reflexivity | exact H6].
Defined.

(** ** What a poll of the inventory can raise *)

Section RaisesOnly.

Variable P : exn -> Prop.

Lemma raises_only_ret {A : Type} (a : A) : raises_only P (ret a).
Proof. intros w e w' H. discriminate H. Qed.

Lemma raises_only_gets {A : Type} (f : world -> A) : raises_only P (gets f).
Proof. intros w e w' H. discriminate H. Qed.

Lemma raises_only_emit c : raises_only P (emit c).
Proof. intros w e w' H. discriminate H. Qed.

Lemma raises_only_modify f : raises_only P (modify f).
Proof. intros w e w' H. discriminate H. Qed.

Lemma raises_only_time_time : raises_only P time_time.
Proof. intros w e w' H. discriminate H. Qed.

Lemma raises_only_requests_get a : raises_only P (requests_get a).
Proof. intros w e w' H. discriminate H. Qed.

Lemma raises_only_raise {A : Type} e : P e -> raises_only P (@raise A e).
Proof. intros He w e' w' H. inversion H; subst. exact He. Qed.

Lemma raises_only_lift {A : Type} (o : outcome A) :
  (forall e, o = Raised e -> P e) -> raises_only P (lift o).
Proof. intros Ho w e w' H. inversion H; subst. apply Ho. reflexivity. Qed.

Lemma raises_only_bind {A B : Type} (m : M A) (k : A -> M B) :
  raises_only P m -> (forall a, raises_only P (k a)) ->
  raises_only P (bind m k).
Proof.
  intros Hm Hk w e w' H. apply bind_inv in H.
  destruct H as [(a & w1 & _ & H) | (e' & H & He)].
  - exact (Hk a w1 e w' H).
  - inversion He; subst. exact (Hm w e' w' H).
Qed.

Lemma raises_only_for_each {A : Type} (l : list A) (body : A -> M unit) :
  (forall a, raises_only P (body a)) -> raises_only P (for_each l body).
Proof.
  intros Hb. induction l as [| a l IH]; simpl.
  - apply raises_only_ret.
  - apply raises_only_bind; [apply Hb | intros _; exact IH].
Qed.

Lemma raises_only_fold_each {A B : Type} (l : list A) (acc : B)
    (body : B -> A -> M B) :
  (forall b a, raises_only P (body b a)) ->
  raises_only P (fold_each l acc body).
Proof.
  intros Hb. revert acc. induction l as [| a l IH]; intros acc; simpl.
  - apply raises_only_ret.
  - apply raises_only_bind; [apply Hb | intros b; apply IH].
Qed.

End RaisesOnly.

Lemma float_errors x e : Py.float x = Raised e -> e = ValueError \/ e = TypeError.
Proof.
  destruct x as [| b | q | s | l | o]; simpl; intros H;
    try discriminate H; try (inversion H; auto).
  destruct (Py.float_of_string_ok s); inversion H; auto.
Qed.

Lemma iter_errors x e : Py.iter x = Raised e -> e = TypeError.
Proof. destruct x; simpl; intros H; inversion H; reflexivity. Qed.

Lemma contains_errors k x e : Py.contains k x = Raised e -> e = TypeError.
Proof. destruct x; simpl; intros H; inversion H; reflexivity. Qed.

Lemma hash_errors x e : Py.hash x = Raised e -> e = TypeError.
Proof. destruct x; simpl; intros H; inversion H; reflexivity. Qed.

Section DataErrors.

(** a set of exceptions that includes those of the data *)
Variable P : exn -> Prop.
Hypothesis P_data : forall e, data_error e -> P e.

Lemma data_getitem x k e : Py.getitem x k = Raised e -> P e.
Proof.
  intros H. apply P_data. destruct (getitem_errors x k e H) as [-> | ->];
    unfold data_error; auto.
Qed.

Lemma data_int x e : Py.int x = Raised e -> P e.
Proof.
  intros H. apply P_data. destruct (int_errors x e H) as [-> | ->];
    unfold data_error; auto.
Qed.

Lemma data_float x e : Py.float x = Raised e -> P e.
Proof.
  intros H. apply P_data. destruct (float_errors x e H) as [-> | ->];
    unfold data_error; auto.
Qed.

Lemma data_iter x e : Py.iter x = Raised e -> P e.
Proof.
  intros H. apply P_data. rewrite (iter_errors x e H). unfold data_error; auto.
Qed.

Lemma data_contains k x e : Py.contains k x = Raised e -> P e.
Proof.
  intros H. apply P_data. rewrite (contains_errors k x e H).
  unfold data_error; auto.
Qed.

Lemma data_hash x e : Py.hash x = Raised e -> P e.
Proof.
  intros H. apply P_data. rewrite (hash_errors x e H). unfold data_error; auto.
Qed.

Lemma data_TypeError : P TypeError.
Proof. apply P_data. unfold data_error; auto. Qed.

Lemma raises_only_gauge_set m v : raises_only P (gauge_set m v).
Proof.
  unfold gauge_set. apply raises_only_bind.
  - apply raises_only_lift, data_float.
  - intros _. apply raises_only_emit.
Qed.

Ltac raise_steps :=
  repeat first
    [ lazymatch goal with
      | |- raises_only _ _ => fail
      | |- forall _, _ => intro
      end
    | match goal with
      | H : forall _, raises_only _ _ |- _ => apply H
      | H : forall _ _, raises_only _ _ |- _ => apply H
      end
    | apply raises_only_ret | apply raises_only_emit | apply raises_only_gets
    | apply raises_only_modify | apply raises_only_time_time
    | apply raises_only_requests_get
    | apply raises_only_gauge_set
    | apply raises_only_raise; apply data_TypeError
    | apply raises_only_lift;
        first [ apply data_getitem | apply data_int | apply data_float
              | apply data_iter | apply data_contains | apply data_hash ]
    | apply raises_only_bind
    | apply raises_only_for_each
    | match goal with
      | |- raises_only _ (if ?b then _ else _) => destruct b
      | |- raises_only _ (match ?x with _ => _ end) => destruct x
      end ].

Lemma raises_only_DeviceData_init t inv : raises_only P (DeviceData_init t inv).
Proof.
  unfold DeviceData_init, strftime_localtime_int, labels, info_set.
  raise_steps.
Qed.

Lemma raises_only_RelayDevice_init_item inv s acc item :
  raises_only P (RelayDevice_init_item inv s acc item).
Proof.
  unfold RelayDevice_init_item, declare_line, labels. raise_steps.
Qed.

Lemma raises_only_RelayDevice_init t inv :
  P RuntimeError -> raises_only P (RelayDevice_init t inv).
Proof.
  intros Hr. unfold RelayDevice_init, labels. raise_steps.
  - apply raises_only_fold_each. intros acc item.
    apply raises_only_RelayDevice_init_item.
  - apply raises_only_raise. exact Hr.
Qed.

(** [update_inventory_data] once [self] has been read *)
Lemma raises_only_update_inventory_data self inv w k d :
  nth_error (devices w) self = Some (k, d) ->
  forall e w', update_inventory_data self inv w = (Raised e, w') -> P e.
Proof.
  intros Hself e w' H. unfold update_inventory_data in H.
  apply bind_inv in H. destruct H as [(d' & w1 & Hg & H) | (e' & Hg & _)];
    unfold get_device in Hg; rewrite Hself in Hg; [| discriminate Hg].
  revert H. generalize w1 e w'.
  change (raises_only P
            (incoming <- lift (Py.getitem inv "img_load_date") ;;
             (if negb (Py.eqb (image_loaded_date d') incoming) then
                v <- lift (Py.getitem inv "img_load_date") ;;
                assign self (fun d => with_image_loaded_date d v) ;;
                text <- strftime_localtime_int v ;;
                assign self (fun d => with_image_loaded_date_date d text) ;;
                info_set (envoy_device_metadata (serial_num d')) (part_num d')
                         (installed_date_date d') text
              else ret tt) ;;
             publish_health d' inv)).
  unfold assign, info_set, strftime_localtime_int.
  raise_steps.
Qed.

Lemma raises_only_update_Inventory :
  P JSONDecodeError ->
  (forall t inv, raises_only P (convert_device t inv)) ->
  raises_only P (update Inventory).
Proof.
  intros Hj Hd.
  unfold update, update_response, assign_request, response_json.
  simpl convert_data. unfold InventoryRequest_convert_data.
  raise_steps; apply raises_only_raise; exact Hj.
Qed.

End DataErrors.

Lemma data_error_RelayDevice_init t inv :
  raises_only data_error (RelayDevice_init t inv).
Proof.
  intros w e w' H.
  destruct (raises_only_RelayDevice_init
              (fun e => data_error e \/ e = RuntimeError)
              (fun e He => or_introl He) t inv (or_intror eq_refl) w e w' H)
    as [He | He]; [exact He |].
  exfalso. exact (RelayDevice_init_never_RuntimeError t inv w e w' H He).
Qed.

Lemma file_new_never_None k (m : M DeviceData) w w' :
  find_key k (devices w) = None ->
  devices (snd (m w)) = devices w ->
  file_new k m w <> (Returned None, w').
Proof.
  intros Hf Hd H. unfold file_new, bind, modify, gets in H.
  destruct (m w) as [[d | e] w1]; simpl in *; [| discriminate H].
  rewrite Hd, (dict_set_new k d _ Hf), (find_key_new k d _ Hf) in H.
  discriminate H.
Qed.

Lemma find_device_by_serial_valid serial t inv w dev w' :
  find_device_by_serial serial t inv w = (Returned dev, w') ->
  match dev with
  | Some i => exists k d, nth_error (devices w') i = Some (k, d)
  | None => inv = JNull
  end.
Proof.
  intros H.
  destruct (Py.hash serial) as [k | e] eqn:Hk.
  2:{ unfold find_device_by_serial, bind, lift in H. rewrite Hk in H.
      discriminate H. }
  destruct (find_key k (devices w)) as [i |] eqn:Hf.
  - rewrite (find_device_by_serial_known _ t inv _ _ _ Hk Hf) in H.
    inversion H; subst.
    destruct (find_key_nth _ _ _ Hf) as (k' & d & Hn & _).
    exists k', d. exact Hn.
  - destruct dev as [i |].
    + destruct (find_device_by_serial_created _ _ _ _ _ _ _ Hk Hf H)
        as (d & w1 & Hinit & -> & ->).
      exists k, d. simpl. rewrite nth_error_app2 by apply le_n.
      rewrite Nat.sub_diag. reflexivity.
    + rewrite (find_device_by_serial_unfiled _ t inv _ _ Hk Hf) in H.
      destruct inv; try reflexivity; exfalso;
        exact (file_new_never_None k _ w w' Hf (constructor_devices t _ w) H).
Qed.

Lemma data_error_find_device_by_serial serial t inv :
  raises_only data_error (find_device_by_serial serial t inv).
Proof.
  unfold find_device_by_serial.
  apply raises_only_bind.
  - apply raises_only_lift. apply data_hash. auto.
  - intros k. apply raises_only_bind; [apply raises_only_gets |].
    intros [i |]; [apply raises_only_ret |].
    destruct inv; try apply raises_only_ret;
      (apply raises_only_bind;
       [ destruct (DeviceType_eqb t NSRB);
         [ apply data_error_RelayDevice_init
         | apply raises_only_DeviceData_init; auto ]
       | intros d; apply raises_only_bind;
         [apply raises_only_modify | intros _; apply raises_only_gets] ]).
Qed.

Lemma data_error_convert_device t inv :
  raises_only data_error (convert_device t inv).
Proof.
  intros w e w' H. unfold convert_device in H.
  apply bind_inv in H.
  destruct H as [(serial & w1 & Hs & H) | (e' & Hs & He)].
  2:{ inversion He; subst. unfold lift in Hs. inversion Hs as [[Hg Hw]].
      apply (data_getitem data_error (fun e H => H) _ _ _ Hg). }
  unfold lift in Hs. inversion Hs as [[Hg Hw]]. subst w1.
  apply bind_inv in H.
  destruct H as [(dev & w2 & Hfind & H) | (e' & Hfind & He)].
  2:{ inversion He; subst.
      exact (data_error_find_device_by_serial _ _ _ _ _ _ Hfind). }
  pose proof (find_device_by_serial_valid _ _ _ _ _ _ Hfind) as Hvalid.
  destruct dev as [self |]; simpl in H.
  - destruct Hvalid as (k & d & Hself).
    exact (raises_only_update_inventory_data data_error (fun e H => H)
             self inv w2 k d Hself e w' H).
  - subst inv. discriminate Hg.
Qed.


